(** * ShivAI core engine: task queue and plugin loader

    A shallow embedding of [shivai/core_engine/task_queue.py] and
    [shivai/core_engine/plugin_loader.py], with the properties of the
    scheduler and of the plugin registry stated and proved over it.

    Layout: the definitions (the binary heap behind [queue.PriorityQueue],
    the task queue, the plugin loader) come first, the lemmas after them. *)

From Stdlib Require Import QArith.
From stdpp Require Import gmap strings list sorting.
Close Scope Q_scope.

(* ===================================================================== *)
(** * Part I: definitions                                                 *)
(* ===================================================================== *)

(** ** The binary heap of Python's [heapq]

    [queue.PriorityQueue] keeps its entries in a Python list and calls
    [heapq.heappush] in [put] and [heapq.heappop] in [get].  The functions
    below follow [heapq.py] statement by statement; the list is updated by
    index, [lt] is the [<] of the entries.  The two [while] loops run on
    fuel; the fuel handed over by [_siftdown] and [_siftup] is never used up
    before the loop condition fails (see [siftdown_loop_fuel] and
    [siftup_loop_fuel]). *)

Module heapq.
Section defs.
Context {A : Type} (lt : A -> A -> bool).

(** [heap[i] < heap[j]] *)
Definition lt_at (heap : list A) (i j : nat) : bool :=
  match heap !! i, heap !! j with
  | Some a, Some b => lt a b
  | _, _ => false
  end.

(** The [while pos > startpos] loop of [_siftdown]. *)
Fixpoint siftdown_loop (fuel : nat) (heap : list A) (startpos pos : nat)
    (newitem : A) : list A :=
  match fuel with
  | O => <[pos := newitem]> heap
  | S fuel' =>
      if bool_decide (startpos < pos) then
        let parentpos := Nat.shiftr (pos - 1) 1 in
        match heap !! parentpos with
        | Some parent =>
            if lt newitem parent
            then siftdown_loop fuel' (<[pos := parent]> heap) startpos parentpos newitem
            else <[pos := newitem]> heap
        | None => <[pos := newitem]> heap
        end
      else <[pos := newitem]> heap
  end.

(** [_siftdown(heap, startpos, pos)]: [newitem = heap[pos]], then the loop. *)
Definition _siftdown (heap : list A) (startpos pos : nat) : list A :=
  match heap !! pos with
  | Some newitem => siftdown_loop pos heap startpos pos newitem
  | None => heap
  end.

(** The [while childpos < endpos] loop of [_siftup]: the smaller child is
    moved up until a leaf is reached; the result is the heap and that leaf. *)
Fixpoint siftup_loop (fuel : nat) (heap : list A) (endpos pos : nat)
    : list A * nat :=
  match fuel with
  | O => (heap, pos)
  | S fuel' =>
      let childpos := 2 * pos + 1 in
      if bool_decide (childpos < endpos) then
        let rightpos := childpos + 1 in
        let childpos :=
          if bool_decide (rightpos < endpos) && negb (lt_at heap childpos rightpos)
          then rightpos else childpos in
        match heap !! childpos with
        | Some child => siftup_loop fuel' (<[pos := child]> heap) endpos childpos
        | None => (heap, pos)
        end
      else (heap, pos)
  end.

(** [_siftup(heap, pos)] *)
Definition _siftup (heap : list A) (pos : nat) : list A :=
  match heap !! pos with
  | Some newitem =>
      let endpos := length heap in
      let '(heap1, leaf) := siftup_loop endpos heap endpos pos in
      _siftdown (<[leaf := newitem]> heap1) pos leaf
  | None => heap
  end.

(** [heappush(heap, item)] *)
Definition heappush (heap : list A) (item : A) : list A :=
  let heap := heap ++ [item] in
  _siftdown heap 0 (length heap - 1).

(** [heappop(heap)]; [None] stands for the [IndexError] of [heap.pop()] on
    an empty list. *)
Definition heappop (heap : list A) : option (A * list A) :=
  match last heap with
  | None => None
  | Some lastelt =>
      let heap := take (length heap - 1) heap in
      match heap with
      | [] => Some (lastelt, [])
      | returnitem :: _ => Some (returnitem, _siftup (<[0 := lastelt]> heap) 0)
      end
  end.

(** Entries in the order in which repeated [heappop] hands them out. *)
Fixpoint drain (fuel : nat) (heap : list A) : list A :=
  match fuel with
  | O => []
  | S fuel' =>
      match heappop heap with
      | None => []
      | Some (x, heap') => x :: drain fuel' heap'
      end
  end.

(** The heap invariant of [heapq]: no entry is smaller than its parent. *)
Definition heap_ordered (heap : list A) : Prop :=
  forall i x p, 0 < i -> heap !! i = Some x ->
    heap !! (Nat.shiftr (i - 1) 1) = Some p -> lt x p = false.

(** The state of the loop of [_siftdown]: the heap is ordered but for
    [heap[pos]], which the loop is about to overwrite, and what will be
    written at [pos] or above it is not larger than the children of [pos]. *)
Definition siftdown_inv (heap : list A) (pos : nat) (newitem : A) : Prop :=
  (forall i x p, 0 < i -> i <> pos -> heap !! i = Some x ->
     heap !! (Nat.shiftr (i - 1) 1) = Some p -> lt x p = false) /\
  (forall c x, 0 < c -> Nat.shiftr (c - 1) 1 = pos -> heap !! c = Some x ->
     lt x newitem = false) /\
  (forall c x g, 0 < c -> Nat.shiftr (c - 1) 1 = pos -> 0 < pos ->
     heap !! c = Some x -> heap !! (Nat.shiftr (pos - 1) 1) = Some g ->
     lt x g = false).

(** The state of the first loop of [_siftup]: the heap is ordered but for
    [heap[pos]] and its children, and the children of [pos] are not smaller
    than the parent of [pos]. *)
Definition siftup_inv (heap : list A) (pos : nat) : Prop :=
  (forall i x p, 0 < i -> Nat.shiftr (i - 1) 1 <> pos -> heap !! i = Some x ->
     heap !! (Nat.shiftr (i - 1) 1) = Some p -> lt x p = false) /\
  (forall c x g, 0 < c -> Nat.shiftr (c - 1) 1 = pos -> 0 < pos ->
     heap !! c = Some x -> heap !! (Nat.shiftr (pos - 1) 1) = Some g ->
     lt x g = false).

End defs.
End heapq.

(** ** The task queue ([task_queue.py]) *)

Module task_queue.

(** [class TaskPriority(IntEnum)]: lower number, higher priority. *)
Inductive TaskPriority := CRITICAL | HIGH | NORMAL | LOW | BACKGROUND.

Definition priority_value (p : TaskPriority) : Z :=
  match p with
  | CRITICAL => 0
  | HIGH => 1
  | NORMAL => 2
  | LOW => 3
  | BACKGROUND => 4
  end.

(** Values handed around by the work ([Any] in the source). *)
Inductive pyval := PyNone | PyInt (z : Z) | PyStr (s : string).

(** Exceptions, all of them subclasses of [Exception]: the [TimeoutError]
    raised by [_execute_with_timeout]; whatever the work itself raises; the
    [ValueError] of [time.sleep] for a negative length; the [OverflowError]
    of [time.sleep] and of [Thread.join] for a length that is too large, and
    of the conversion of a large power of two to a float. *)
Inductive exn :=
  | TimeoutError (timeout : Q)
  | WorkError (msg : string)
  | ValueError
  | OverflowError.

(** One call of [task.func] on [task.args] and [task.kwargs]: how it ends
    and how long it takes (seconds).  Floats are rationals here.  The call
    returns a value, raises an [Exception], raises a [BaseException] that is
    no [Exception] ([SystemExit], [KeyboardInterrupt]), or does not return
    at all. *)
Inductive work_outcome :=
  | Returns (v : pyval) (elapsed : Q)
  | Raises (e : exn) (elapsed : Q)
  | Exits (elapsed : Q)
  | Hangs.

(** A callback returns, raises an [Exception], which [_worker] catches and
    logs, or ends the worker thread: it raises a [BaseException] that is no
    [Exception], or it does not return. *)
Inductive callback_outcome := CallbackReturns | CallbackRaises | CallbackExits.

(** [@dataclass(order=True) class Task].  [func] together with [args] and
    [kwargs] is one field: [func k] is what the call made while
    [retry_count = k] does (a callable need not behave the same way twice,
    and every call of one task is made at a different [retry_count]).
    [retry_delay] and [timeout] are floats, as the fields are annotated. *)
Record Task := mkTask {
  priority : TaskPriority;
  created_at : Q;
  task_id : string;
  func : Z -> work_outcome;
  max_retries : Z;
  retry_count : Z;
  retry_delay : Q;
  timeout : option Q;
  callback : option (pyval -> callback_outcome);
  error_callback : option (option exn -> callback_outcome)
}.

Definition Qlt_bool (a b : Q) : bool := negb (Qle_bool b a).

(** The [__lt__] that [order=True] generates: the tuples
    [(priority, created_at)] of the two tasks are compared, that is, the
    first components that differ decide. *)
Definition Task_lt (a b : Task) : bool :=
  if negb (priority_value (priority a) =? priority_value (priority b))%Z
  then (priority_value (priority a) <? priority_value (priority b))%Z
  else if negb (Qeq_bool (created_at a) (created_at b))
  then Qlt_bool (created_at a) (created_at b)
  else false.

(** [@dataclass class TaskResult] *)
Record TaskResult := mkTaskResult {
  r_task_id : string;
  success : bool;
  result : pyval;
  error : option exn;
  execution_time : Q;
  r_retry_count : Z
}.

(** [class TaskQueue]: the fields the operations below read and write.  The
    threads that [start] makes are part of [system] below.  Of
    [pending_tasks] the code reads the keys only (membership, deletion,
    [len]); the value kept here is the task as it was submitted. *)
Record TaskQueue := mkTaskQueue {
  max_workers : nat;
  queue : list Task;
  running : bool;
  pending_tasks : gmap string Task;
  completed_tasks : gmap string TaskResult
}.

Definition set_queue (q : list Task) (s : TaskQueue) : TaskQueue :=
  mkTaskQueue (max_workers s) q (running s) (pending_tasks s) (completed_tasks s).
Definition set_running (b : bool) (s : TaskQueue) : TaskQueue :=
  mkTaskQueue (max_workers s) (queue s) b (pending_tasks s) (completed_tasks s).
Definition set_pending_tasks (p : gmap string Task) (s : TaskQueue) : TaskQueue :=
  mkTaskQueue (max_workers s) (queue s) (running s) p (completed_tasks s).
Definition set_completed_tasks (c : gmap string TaskResult) (s : TaskQueue) : TaskQueue :=
  mkTaskQueue (max_workers s) (queue s) (running s) (pending_tasks s) c.

(** [TaskQueue.__init__] *)
Definition init (max_workers : nat) : TaskQueue :=
  mkTaskQueue max_workers [] false ∅ ∅.

(** [PriorityQueue.put] and [PriorityQueue.get]; [None] is [queue.Empty]. *)
Definition queue_put (q : list Task) (task : Task) : list Task :=
  heapq.heappush Task_lt q task.
Definition queue_get (q : list Task) : option (Task * list Task) :=
  heapq.heappop Task_lt q.

(** [start] and [stop], as far as the [running] flag goes. *)
Definition start (s : TaskQueue) : TaskQueue :=
  if running s then s else set_running true s.
Definition stop (s : TaskQueue) : TaskQueue :=
  if negb (running s) then s else set_running false s.

(** [submit].  [uuid] is what [uuid.uuid4()] returned and [now] what
    [time.time()] returned when the [Task] was built. *)
Definition submit (uuid : string) (now : Q) (func : Z -> work_outcome)
    (priority : TaskPriority) (max_retries : Z) (retry_delay : Q)
    (timeout : option Q) (callback : option (pyval -> callback_outcome))
    (error_callback : option (option exn -> callback_outcome))
    (s : TaskQueue) : string * TaskQueue :=
  let task := mkTask priority now uuid func max_retries 0 retry_delay timeout
                callback error_callback in
  let s := set_pending_tasks (<[task_id task := task]> (pending_tasks s)) s in
  let s := set_queue (queue_put (queue s) task) s in
  (task_id task, s).

(** What a worker thread does that can be seen from outside: it calls the
    work of a task, it sleeps before the retry of a task, it stores a result
    for a task, it calls a callback of a task. *)
Inductive event :=
  | EvCall (id : string) (attempt : Z)
  | EvSleep (id : string) (delay : Q)
  | EvStore (task : Task) (r : TaskResult)
  | EvCallback (id : string) (v : pyval) (o : callback_outcome)
  | EvErrorCallback (id : string) (e : option exn) (o : callback_outcome).

(** [task.func] applied to [task.args] and [task.kwargs]: the call and how
    it ends. *)
Definition call (task : Task) : work_outcome * list event :=
  (func task (retry_count task), [EvCall (task_id task) (retry_count task)]).

(** [time.sleep] and [Thread.join] keep a length of time as a 64-bit number
    of nanoseconds and raise [OverflowError] for a length of [2^63]
    nanoseconds or more.  ([join] takes a negative timeout for zero.) *)
Definition fits_PyTime (seconds : Q) : bool :=
  Qlt_bool (seconds * inject_Z (10 ^ 9)) (inject_Z (2 ^ 63)).

(** [time.sleep(delay)]: [None] when it returns, the exception otherwise.
    The length is converted first, which raises [OverflowError] on either
    side of the 64 bits; a negative length that fits is a [ValueError]. *)
Definition time_sleep (delay : Q) : option exn :=
  if Qlt_bool (delay * inject_Z (10 ^ 9)) (inject_Z (- 2 ^ 63)) then Some OverflowError
  else if Qlt_bool delay 0 then Some ValueError
  else if negb (fits_PyTime delay) then Some OverflowError
  else None.

(** [_execute_with_timeout]: the work runs in a thread of its own, which is
    joined for [timeout] seconds (for no time at all when [timeout] is
    negative).  [join] raises for a timeout that is too large.  The thread
    is still alive after the join when the work takes longer than the
    timeout.  When the thread is over, what the work raised, if it was an
    [Exception], is raised again, and what it returned is returned; a thread
    that a [BaseException] has ended has filled neither container, and
    [None] is returned. *)
Definition _execute_with_timeout (task : Task) (t : Q) : work_outcome * list event :=
  let '(o, evs) := call task in
  if negb (fits_PyTime t) then (Raises OverflowError 0, evs)
  else
    let timed_out := Raises (TimeoutError t) (if Qlt_bool t 0 then 0 else t) in
    match o with
    | Returns v elapsed =>
        if Qlt_bool t elapsed then (timed_out, evs) else (Returns v elapsed, evs)
    | Raises e elapsed =>
        if Qlt_bool t elapsed then (timed_out, evs) else (Raises e elapsed, evs)
    | Exits elapsed =>
        if Qlt_bool t elapsed then (timed_out, evs) else (Returns PyNone elapsed, evs)
    | Hangs => (timed_out, evs)
    end.

(** [if task.timeout:] is false for [None] and for [0]. *)
Definition timeout_set (task : Task) : option Q :=
  match timeout task with
  | Some t => if Qeq_bool t 0 then None else Some t
  | None => None
  end.

(** [task.retry_count += 1] on the task object. *)
Definition bump_retry_count (task : Task) : Task :=
  mkTask (priority task) (created_at task) (task_id task) (func task)
    (max_retries task) (retry_count task + 1) (retry_delay task)
    (timeout task) (callback task) (error_callback task).

(** The [if task.timeout: ... else: ...] of [_execute_task]: one call of
    the work, with or without the timeout. *)
Definition attempt (task : Task) : work_outcome * list event :=
  match timeout_set task with
  | Some t => _execute_with_timeout task t
  | None => call task
  end.

(** [delay = task.retry_delay * (2 ** (task.retry_count - 1))], computed
    after [retry_count] has been raised: the power is an [int], and its
    conversion to a float for the product raises [OverflowError] from
    [2 ** 1024] on. *)
Definition backoff_delay (task : Task) : exn + Q :=
  if (1024 <=? retry_count task - 1)%Z then inl OverflowError
  else inr (retry_delay task * 2 ^ (retry_count task - 1))%Q.

(** How a call of [_execute_task] ends: it returns a result, having left
    the task object and the queue as given; or an exception of the retry
    branch (of the delay or of [time.sleep]) leaves it; or what the work
    raised is no [Exception] and passes through; or the work never
    returns. *)
Inductive executed :=
  | Result (r : TaskResult) (task : Task) (q : list Task)
  | Escapes (e : exn) (task : Task)
  | Dies
  | Stuck.

(** [_execute_task] *)
Definition _execute_task (task : Task) (q : list Task) : executed * list event :=
  let '(o, evs) := attempt task in
  match o with
  | Returns v execution_time =>
      (Result (mkTaskResult (task_id task) true v None execution_time
                 (retry_count task)) task q, evs)
  | Raises e execution_time =>
      if (retry_count task <? max_retries task)%Z then
        let task := bump_retry_count task in
        match backoff_delay task with
        | inl e' => (Escapes e' task, evs)
        | inr delay =>
            match time_sleep delay with
            | Some e' => (Escapes e' task, evs)
            | None =>
                (Result (mkTaskResult (task_id task) false PyNone (Some e)
                           execution_time (retry_count task))
                   task (queue_put q task),
                 evs ++ [EvSleep (task_id task) delay])
            end
        end
      else
        (Result (mkTaskResult (task_id task) false PyNone (Some e) execution_time
                   (retry_count task)) task q, evs)
  | Exits _ => (Dies, evs)
  | Hangs => (Stuck, evs)
  end.

(** [self.queue.get(timeout=0.5)] *)
Definition worker_get (s : TaskQueue) : option (Task * TaskQueue) :=
  match queue_get (queue s) with
  | Some (task, q) => Some (task, set_queue q s)
  | None => None
  end.

(** The [with self.lock:] block of [_worker]. *)
Definition store (task : Task) (r : TaskResult) (s : TaskQueue) : TaskQueue :=
  let s := set_completed_tasks (<[task_id task := r]> (completed_tasks s)) s in
  set_pending_tasks (delete (task_id task) (pending_tasks s)) s.

(** The [if result.success and task.callback: ... elif ...] of [_worker]:
    how the callback that is called ends, and the call. *)
Definition call_back (task : Task) (r : TaskResult) : callback_outcome * list event :=
  if success r then
    match callback task with
    | Some cb => (cb (result r), [EvCallback (task_id task) (result r) (cb (result r))])
    | None => (CallbackReturns, [])
    end
  else
    match error_callback task with
    | Some cb => (cb (error r), [EvErrorCallback (task_id task) (error r) (cb (error r))])
    | None => (CallbackReturns, [])
    end.

(** Where a worker thread is in [_worker]: at the head of the loop, about
    to test [self.running]; in [self.queue.get]; holding a task that it is
    about to execute; about to store the result of the task; about to call
    back; out of the loop, having found [self.running] false; gone, ended by
    a [BaseException] or stuck in a call that does not return. *)
Inductive worker :=
  | AtLoop
  | InGet
  | Holding (task : Task)
  | Storing (task : Task) (r : TaskResult)
  | CallingBack (task : Task) (r : TaskResult)
  | Exited
  | Gone.

(** One step of a worker thread.  An exception that leaves [_execute_task]
    is caught and logged by [_worker], which goes on with its loop: nothing
    is stored for the task and no callback is called. *)
Definition worker_step (w : worker) (s : TaskQueue) : worker * TaskQueue * list event :=
  match w with
  | AtLoop => (if running s then InGet else Exited, s, [])
  | InGet =>
      match worker_get s with
      | Some (task, s) => (Holding task, s, [])
      | None => (AtLoop, s, [])
      end
  | Holding task =>
      match _execute_task task (queue s) with
      | (Result r task q, evs) => (Storing task r, set_queue q s, evs)
      | (Escapes _ _, evs) => (AtLoop, s, evs)
      | (Dies, evs) => (Gone, s, evs)
      | (Stuck, evs) => (Gone, s, evs)
      end
  | Storing task r => (CallingBack task r, store task r s, [EvStore task r])
  | CallingBack task r =>
      let '(o, evs) := call_back task r in
      (match o with CallbackExits => Gone | _ => AtLoop end, s, evs)
  | Exited => (Exited, s, [])
  | Gone => (Gone, s, [])
  end.

(** [n] steps of a worker thread, while no other thread acts. *)
Fixpoint worker_steps (n : nat) (w : worker) (s : TaskQueue)
    : worker * TaskQueue * list event :=
  match n with
  | O => (w, s, [])
  | S n' =>
      let '(w1, s1, evs1) := worker_step w s in
      let '(w2, s2, evs2) := worker_steps n' w1 s1 in
      (w2, s2, evs1 ++ evs2)
  end.

(** [_worker]: the first [n] steps of a worker thread that is started on
    [s], while no other thread acts. *)
Definition _worker (n : nat) (s : TaskQueue) : worker * TaskQueue * list event :=
  worker_steps n AtLoop s.

(** [cancel_task] *)
Definition cancel_task (id : string) (s : TaskQueue) : bool * TaskQueue :=
  match pending_tasks s !! id with
  | Some _ => (true, set_pending_tasks (delete id (pending_tasks s)) s)
  | None => (false, s)
  end.

(** [get_result].  The loop polls the completed map, which the workers
    change between two polls: [completed_at k] is the map and [elapsed_at k]
    the value of [time.time() - start_time] at poll [k].  [StillPolling] is
    the loop after [fuel] turns without having returned. *)
Inductive poll := Returned (r : option TaskResult) | StillPolling.

Fixpoint get_result_loop (fuel : nat) (completed_at : nat -> gmap string TaskResult)
    (elapsed_at : nat -> Q) (k : nat) (id : string) (timeout : option Q) : poll :=
  match fuel with
  | O => StillPolling
  | S fuel' =>
      match completed_at k !! id with
      | Some r => Returned (Some r)
      | None =>
          match timeout with
          | Some t =>
              if Qle_bool t (elapsed_at k) then Returned None
              else get_result_loop fuel' completed_at elapsed_at (S k) id timeout
          | None => get_result_loop fuel' completed_at elapsed_at (S k) id timeout
          end
      end
  end.

Definition get_result (fuel : nat) (completed_at : nat -> gmap string TaskResult)
    (elapsed_at : nat -> Q) (id : string) (timeout : option Q) : poll :=
  get_result_loop fuel completed_at elapsed_at 0 id timeout.

(** [get_queue_size], [get_pending_count], [get_completed_count] *)
Definition get_queue_size (s : TaskQueue) : nat := length (queue s).
Definition get_pending_count (s : TaskQueue) : nat := size (pending_tasks s).
Definition get_completed_count (s : TaskQueue) : nat := size (completed_tasks s).

(** [clear_completed] *)
Definition clear_completed (s : TaskQueue) : TaskQueue := set_completed_tasks ∅ s.

(** *** The queue with its worker threads

    [threads] are the worker threads that [start] has made, each where it
    is in [_worker]; [trace] is what the workers have done so far.  Callers
    and workers take turns, one [op] at a time: a call of a method of the
    queue, or one step of one worker thread. *)
Record system := mkSystem {
  tq : TaskQueue;
  threads : list worker;
  trace : list event
}.

Inductive op :=
  | OpStart
  | OpStop
  | OpSubmit (uuid : string) (now : Q) (func : Z -> work_outcome)
      (priority : TaskPriority) (max_retries : Z) (retry_delay : Q)
      (timeout : option Q) (callback : option (pyval -> callback_outcome))
      (error_callback : option (option exn -> callback_outcome))
  | OpStep (k : nat)
  | OpCancel (id : string)
  | OpClearCompleted.

Definition run_op (o : op) (sys : system) : system :=
  match o with
  | OpStart =>
      if running (tq sys) then sys
      else mkSystem (start (tq sys))
             (threads sys ++ replicate (max_workers (tq sys)) AtLoop) (trace sys)
  | OpStop => mkSystem (stop (tq sys)) (threads sys) (trace sys)
  | OpSubmit uuid now func priority max_retries retry_delay timeout callback
      error_callback =>
      mkSystem (submit uuid now func priority max_retries retry_delay timeout
                  callback error_callback (tq sys)).2
        (threads sys) (trace sys)
  | OpStep k =>
      match threads sys !! k with
      | Some w =>
          let '(w, s, evs) := worker_step w (tq sys) in
          mkSystem s (<[k := w]> (threads sys)) (trace sys ++ evs)
      | None => sys
      end
  | OpCancel id => mkSystem (cancel_task id (tq sys)).2 (threads sys) (trace sys)
  | OpClearCompleted => mkSystem (clear_completed (tq sys)) (threads sys) (trace sys)
  end.

Definition run_ops (ops : list op) (sys : system) : system :=
  fold_left (fun sys o => run_op o sys) ops sys.

Definition boot (max_workers : nat) : system := mkSystem (init max_workers) [] [].

(** Two states of the queue and its threads that differ in [pending_tasks]
    at most. *)
Definition same_but_pending (a b : system) : Prop :=
  max_workers (tq a) = max_workers (tq b) /\
  queue (tq a) = queue (tq b) /\
  running (tq a) = running (tq b) /\
  completed_tasks (tq a) = completed_tasks (tq b) /\
  threads a = threads b /\
  trace a = trace b.

(** The task that a worker has in its hands. *)
Definition in_hands (w : worker) : option Task :=
  match w with
  | Holding task => Some task
  | Storing task _ => Some task
  | CallingBack task _ => Some task
  | _ => None
  end.

(** The tasks that workers have taken off the queue and not yet executed. *)
Definition held (w : worker) : option Task :=
  match w with Holding task => Some task | _ => None end.
Definition in_flight (sys : system) : list Task := omap held (threads sys).

(** *** Reading a trace *)

Definition is_call (id : string) (e : event) : bool :=
  match e with EvCall id' _ => String.eqb id id' | _ => false end.
Definition is_sleep (id : string) (e : event) : bool :=
  match e with EvSleep id' _ => String.eqb id id' | _ => false end.
Definition is_callback (id : string) (e : event) : bool :=
  match e with EvCallback id' _ _ => String.eqb id id' | _ => false end.
Definition is_error_callback (id : string) (e : event) : bool :=
  match e with EvErrorCallback id' _ _ => String.eqb id id' | _ => false end.

(** The task that an event is about, and the events about a task. *)
Definition event_id (e : event) : string :=
  match e with
  | EvCall id _ => id
  | EvSleep id _ => id
  | EvStore task _ => task_id task
  | EvCallback id _ _ => id
  | EvErrorCallback id _ _ => id
  end.
Definition events_of (id : string) (evs : list event) : list event :=
  filter (fun e => String.eqb id (event_id e) = true) evs.

(** The calls of the work of the task [id] and the sleeps before its
    retries, in their order. *)
Definition calls_and_sleeps (id : string) (evs : list event) : list event :=
  filter (fun e => is_call id e || is_sleep id e = true) evs.

Definition attempts (id : string) (evs : list event) : nat :=
  length (filter (fun e => is_call id e = true) evs).
Definition on_success_calls (id : string) (evs : list event) : nat :=
  length (filter (fun e => is_callback id e = true) evs).
Definition on_error_calls (id : string) (evs : list event) : nat :=
  length (filter (fun e => is_error_callback id e = true) evs).



Definition raises (o : work_outcome) : bool :=
  match o with Raises _ _ => true | _ => false end.

(** The task that [submit] builds, as it is at its [j]-th retry; the result
    that a failed attempt leaves; what [_worker] does with the
    [error_callback] after a failed attempt. *)
Definition task_at (uuid : string) (now : Q) (func : Z -> work_outcome)
    (priority : TaskPriority) (max_retries : Z) (retry_delay : Q)
    (timeout : option Q) (callback : option (pyval -> callback_outcome))
    (error_callback : option (option exn -> callback_outcome)) (j : nat) : Task :=
  mkTask priority now uuid func max_retries (Z.of_nat j) retry_delay timeout
    callback error_callback.

Definition failed_attempt (uuid : string) (j : nat) (e : exn) (el : Q) : TaskResult :=
  mkTaskResult uuid false PyNone (Some e) el (Z.of_nat j).

Definition error_called_back (uuid : string)
    (error_callback : option (option exn -> callback_outcome)) (e : exn)
    : list event :=
  match error_callback with
  | Some c => [EvErrorCallback uuid (Some e) (c (Some e))]
  | None => []
  end.

(** How many more calls of its work a queued task can get. *)
Definition budget (task : Task) : nat :=
  S (Z.to_nat (max_retries task - retry_count task)).

(** How many calls of work the tasks in the queue can still get. *)
Definition backlog (q : list Task) : nat := sum_list_with budget q.

(** A worker that executes the task gets back to the head of its loop: the
    work does not end the thread, and neither does the callback that is
    called for the result. *)
Definition comes_back (task : Task) : bool :=
  match _execute_task task [] with
  | (Result r task _, _) =>
      match (call_back task r).1 with CallbackExits => false | _ => true end
  | (Escapes _ _, _) => true
  | (Dies, _) => false
  | (Stuck, _) => false
  end.

(** What a worker does for a task from taking it off the queue to getting
    back to its loop: [_execute_task] and, when that returns a result, the
    storing of the result and the callback. *)
Definition attempt_events (task : Task) : list event :=
  match _execute_task task [] with
  | (Result r task _, evs) => evs ++ [EvStore task r] ++ (call_back task r).2
  | (_, evs) => evs
  end.

(** The task at another [retry_count]. *)
Definition set_retry_count (k : Z) (task : Task) : Task :=
  mkTask (priority task) (created_at task) (task_id task) (func task)
    (max_retries task) k (retry_delay task) (timeout task) (callback task)
    (error_callback task).

(** A worker gets back to its loop from this attempt of the task and from
    every later one. *)
Definition tame (task : Task) : Prop :=
  forall k, (retry_count task <= k)%Z -> comes_back (set_retry_count k task) = true.

(** *** Submission order and extraction order

    [submit_all] submits one task per entry (its id, its priority and the
    clock reading of its creation); [extraction_order] lists the ids as one
    worker takes them off the queue. *)
Definition submit_all (subs : list (string * TaskPriority * Q)) (s : TaskQueue)
    : TaskQueue :=
  fold_left
    (fun s '(uuid, priority, now) =>
       (submit uuid now (fun _ => Returns PyNone 0) priority 0 1 None None None s).2)
    subs s.

Definition extraction_order (s : TaskQueue) : list string :=
  map task_id (heapq.drain Task_lt (length (queue s)) (queue s)).

(** "Of two tasks of equal priority, the one submitted first is extracted
    first", for the submissions [subs] made to an empty queue. *)
Definition fifo_among_equal_priority (subs : list (string * TaskPriority * Q)) : Prop :=
  let order := extraction_order (submit_all subs (init 3)) in
  forall i j a b p ta tb,
    i < j -> subs !! i = Some (a, p, ta) -> subs !! j = Some (b, p, tb) ->
    exists m n, m < n /\ order !! m = Some a /\ order !! n = Some b.

(** Four submissions of one priority made so fast that [time.time()] reads
    the same value for all of them. *)
Definition same_clock_submissions : list (string * TaskPriority * Q) :=
  [("A", NORMAL, 5%Q); ("B", NORMAL, 5%Q); ("C", NORMAL, 5%Q); ("D", NORMAL, 5%Q)].

(** A task as [submit] builds it, with work that returns at once. *)
Definition plain_task (uuid : string) (priority : TaskPriority) (now : Q) : Task :=
  mkTask priority now uuid (fun _ => Returns PyNone 0) 0 0 1 None None None.

Definition submit_plain (uuid : string) (priority : TaskPriority) (now : Q) : op :=
  OpSubmit uuid now (fun _ => Returns PyNone 0) priority 0 1 None None None.

(** Work that raises on every call, and a queue holding one task with that
    work, one retry and an [error_callback]. *)
Definition always_raises : Z -> work_outcome :=
  fun _ => Raises (WorkError "boom") 0.

Definition one_retry_queue : TaskQueue :=
  (submit "t" 0 always_raises NORMAL 1 1 None None
     (Some (fun _ => CallbackReturns)) (start (init 1))).2.

(** Work that raises on its first call and returns on the second. *)
Definition raises_once : Z -> work_outcome :=
  fun j => if (j <? 1)%Z then Raises (WorkError "boom") 0 else Returns (PyInt 42) 0.

(** A running queue with one task "t" whose work always raises; "t" has
    two retries and the [retry_delay] given. *)
Definition failing_queue (retry_delay : Q) : TaskQueue :=
  (submit "t" 0 always_raises NORMAL 2 retry_delay None None None (start (init 1))).2.


(** [get_stats].  [workers] is [len(self.workers)], the number of thread
    objects that [start] has made and [stop] not yet cleared. *)
Record Stats := mkStats {
  st_queue_size : nat;
  st_pending : nat;
  st_completed : nat;
  st_success : nat;
  st_failed : Z;
  st_success_rate : Q;
  st_workers : nat;
  st_running : bool
}.

Definition get_stats (workers : nat) (s : TaskQueue) : Stats :=
  let pending := size (pending_tasks s) in
  let completed := size (completed_tasks s) in
  let success :=
    size (filter (fun kv : string * TaskResult => success kv.2 = true)
            (completed_tasks s)) in
  let failed := (Z.of_nat completed - Z.of_nat success)%Z in
  mkStats (get_queue_size s) pending completed success failed
    (if bool_decide (0 < completed)
     then Qmake (Z.of_nat success) (Pos.of_nat completed) else 0%Q)
    workers (running s).

(** A task with a timeout of a tenth of a second and work that takes ten
    seconds. *)
Definition slow_task : Task :=
  mkTask NORMAL 0 "slow" (fun _ => Returns (PyStr "late") 10) 0 0 1
    (Some (1 # 10)%Q) None None.

End task_queue.

(** ** The plugin loader ([plugin_loader.py]) *)

Module plugin_loader.

(** A Python [dict] with string keys keeps its keys in insertion order:
    assigning to a key that is present replaces the value in place, assigning
    to a new key appends, [del] removes the key. *)
Section dict.
Context {V : Type}.

Fixpoint dict_get (k : string) (d : list (string * V)) : option V :=
  match d with
  | [] => None
  | (k', v) :: d' => if String.eqb k k' then Some v else dict_get k d'
  end.

Definition dict_in (k : string) (d : list (string * V)) : bool :=
  match dict_get k d with Some _ => true | None => false end.

Fixpoint dict_set (k : string) (v : V) (d : list (string * V)) : list (string * V) :=
  match d with
  | [] => [(k, v)]
  | (k', v') :: d' =>
      if String.eqb k k' then (k', v) :: d' else (k', v') :: dict_set k v d'
  end.

Fixpoint dict_del (k : string) (d : list (string * V)) : list (string * V) :=
  match d with
  | [] => []
  | (k', v') :: d' =>
      if String.eqb k k' then dict_del k d' else (k', v') :: dict_del k d'
  end.

Definition dict_keys (d : list (string * V)) : list string := map fst d.

End dict.

(** What [json.load] returns. *)
#[warnings="-register-all"] Inductive json :=
  | JNull
  | JBool (b : bool)
  | JInt (z : Z)
  | JFloat (q : Q)
  | JStr (s : string)
  | JList (l : list json)
  | JObj (o : list (string * json)).

(** [@dataclass class PluginManifest], after [__post_init__]. *)
Record PluginManifest := mkPluginManifest {
  name : string;
  version : string;
  description : string;
  author : string;
  plugin_class : string;
  capabilities : list string;
  dependencies : list string;
  config_schema : list (string * json);
  enabled : bool
}.

(** The fields of the dataclass.  The first six have no default. *)
Definition manifest_fields : list string :=
  ["name"; "version"; "description"; "author"; "plugin_class"; "capabilities";
   "dependencies"; "config_schema"; "enabled"].

(** How [_load_manifest] ends.  The dataclass does not check the annotated
    types; a value of another type than the annotated one is stored as it
    is by Python and is [IllTyped] here, outside of what is modelled. *)
Inductive manifest_result :=
  | ManifestOk (m : PluginManifest)
  | RaisesValueError (field : string)
  | RaisesTypeError (key : string)
  | IllTyped (key : string).

Definition as_str (j : json) : option string :=
  match j with JStr s => Some s | _ => None end.
Definition as_bool (j : json) : option bool :=
  match j with JBool b => Some b | _ => None end.
Fixpoint as_str_list_items (l : list json) : option (list string) :=
  match l with
  | [] => Some []
  | JStr s :: l' =>
      match as_str_list_items l' with Some r => Some (s :: r) | None => None end
  | _ => None
  end.
Definition as_str_list (j : json) : option (list string) :=
  match j with JList l => as_str_list_items l | _ => None end.

(** The field [key] of the dataclass from the keyword arguments [data]:
    [absent] when the key is not passed. *)
Definition field {T : Type} (data : list (string * json)) (key : string)
    (as_T : json -> option T) (absent : manifest_result)
    (k : T -> manifest_result) : manifest_result :=
  match dict_get key data with
  | None => absent
  | Some j => match as_T j with Some v => k v | None => IllTyped key end
  end.

(** [PluginManifest] called on the keywords of [data]: a key that is no
    field of the dataclass and a missing field without default are a
    [TypeError]; [dependencies] and [config_schema] default to [None], which
    [__post_init__] turns into the empty list and the empty dict, and
    [enabled] defaults to [True]. *)
Definition PluginManifest_init (data : list (string * json)) : manifest_result :=
  match filter (fun k => k ∉ manifest_fields) (dict_keys data) with
  | unexpected :: _ => RaisesTypeError unexpected
  | [] =>
    let missing k := RaisesTypeError k in
    field data "name" as_str (missing "name") (fun name =>
    field data "version" as_str (missing "version") (fun version =>
    field data "description" as_str (missing "description") (fun description =>
    field data "author" as_str (missing "author") (fun author =>
    field data "plugin_class" as_str (missing "plugin_class") (fun plugin_class =>
    field data "capabilities" as_str_list (missing "capabilities") (fun capabilities =>
    let with_deps k :=
      match dict_get "dependencies" data with
      | None | Some JNull => k []
      | Some j => match as_str_list j with Some d => k d | None => IllTyped "dependencies" end
      end in
    let with_schema k :=
      match dict_get "config_schema" data with
      | None | Some JNull => k []
      | Some (JObj o) => k o
      | Some _ => IllTyped "config_schema"
      end in
    with_deps (fun dependencies =>
    with_schema (fun config_schema =>
    let mk enabled :=
      ManifestOk (mkPluginManifest name version description author plugin_class
                    capabilities dependencies config_schema enabled) in
    field data "enabled" as_bool (mk true) mk))))))))
  end.

(** [_load_manifest], from the object that [json.load] returned. *)
Definition required_fields : list string :=
  ["name"; "version"; "description"; "author"; "plugin_class"].

Definition _load_manifest (data : list (string * json)) : manifest_result :=
  match filter (fun f => negb (dict_in f data)) required_fields with
  | f :: _ => RaisesValueError f
  | [] => PluginManifest_init data
  end.

(** A plugin class: what its constructor and its methods do.  A hook either
    returns or raises. *)
Inductive hook (R : Type) := HookReturns (r : R) | HookRaises.
Arguments HookReturns {R} r.
Arguments HookRaises {R}.

Record PluginClass := mkPluginClass {
  construct : hook unit;
  initialize : hook bool;
  shutdown : hook unit;
  get_capabilities : list string
}.

(** [class BasePlugin] itself: the defaults a subclass inherits. *)
Definition BasePlugin_class : PluginClass :=
  mkPluginClass (HookReturns ()) (HookReturns true) (HookReturns ()) [].

(** A plugin instance: its class, and the two attributes that
    [BasePlugin.__init__] sets ([p_enabled] is the [enabled] of the
    instance, [enabled] the one of the manifest). *)
Record BasePlugin := mkBasePlugin {
  cls : PluginClass;
  config : list (string * json);
  p_enabled : bool
}.

Definition set_enabled (b : bool) (p : BasePlugin) : BasePlugin :=
  mkBasePlugin (cls p) (config p) b.

(** [class PluginLoader]: three dicts. *)
Record PluginLoader := mkPluginLoader {
  plugin_dirs : list string;
  plugins : list (string * BasePlugin);
  manifests : list (string * PluginManifest);
  plugin_paths : list (string * string)
}.

Definition set_plugins (p : list (string * BasePlugin)) (s : PluginLoader) : PluginLoader :=
  mkPluginLoader (plugin_dirs s) p (manifests s) (plugin_paths s).

Definition init (plugin_dirs : list string) : PluginLoader :=
  mkPluginLoader (match plugin_dirs with [] => ["shivai/plugins"] | _ => plugin_dirs end)
    [] [] [].

(** [discover_plugins].  [found] lists, in the order of the scan, the plugin
    folders that hold a [manifest.json]: the path of the folder and what
    [json.load] made of the file ([None] when reading or parsing raised).
    A manifest that is [IllTyped] is registered by the code as it is; it is
    outside of what is modelled, and the scan here passes over it. *)
Fixpoint discover_loop (found : list (string * option (list (string * json))))
    (s : PluginLoader) (discovered : list string) : list string * PluginLoader :=
  match found with
  | [] => (discovered, s)
  | (item_path, file) :: found' =>
      match file with
      | Some data =>
          match _load_manifest data with
          | ManifestOk manifest =>
              let s := mkPluginLoader (plugin_dirs s) (plugins s)
                         (dict_set (name manifest) manifest (manifests s))
                         (dict_set (name manifest) item_path (plugin_paths s)) in
              discover_loop found' s (discovered ++ [name manifest])
          | _ => discover_loop found' s discovered
          end
      | None => discover_loop found' s discovered
      end
  end.

Definition discover_plugins (found : list (string * option (list (string * json))))
    (s : PluginLoader) : list string * PluginLoader :=
  discover_loop found s [].

(** [_check_dependencies] *)
Fixpoint _check_dependencies (dependencies : list string) (s : PluginLoader) : bool :=
  match dependencies with
  | [] => true
  | dep :: rest =>
      if negb (dict_in dep (plugins s)) then false else _check_dependencies rest s
  end.

(** Where [load_plugin] returns, or the [KeyError] that
    [self.plugin_paths[plugin_name]] raises outside of the [try]. *)
Inductive load_outcome :=
  | AlreadyLoaded
  | NotFound
  | MissingDependency
  | ImportFailed
  | InitializationFailed
  | LoadException
  | Loaded
  | LoadKeyError.

(** The value [load_plugin] returns; [None] when it raises. *)
Definition returned (o : load_outcome) : option bool :=
  match o with
  | AlreadyLoaded | Loaded => Some true
  | NotFound | MissingDependency | ImportFailed | InitializationFailed
  | LoadException => Some false
  | LoadKeyError => None
  end.

(** What the loader does to plugin code. *)
Inductive plugin_event :=
  | EvConstruct (plugin_name : string)
  | EvInitialize (plugin_name : string)
  | EvShutdown (plugin_name : string).

(** [load_plugin].  [import_class plugin_path plugin_class] is what
    [_import_plugin_class] returns for the files on disk. *)
Definition load_plugin (import_class : string -> string -> option PluginClass)
    (plugin_name : string) (config : option (list (string * json)))
    (s : PluginLoader) : load_outcome * PluginLoader * list plugin_event :=
  if dict_in plugin_name (plugins s) then (AlreadyLoaded, s, [])
  else
    match dict_get plugin_name (manifests s) with
    | None => (NotFound, s, [])
    | Some manifest =>
        match dict_get plugin_name (plugin_paths s) with
        | None => (LoadKeyError, s, [])
        | Some plugin_path =>
            if negb (_check_dependencies (dependencies manifest) s)
            then (MissingDependency, s, [])
            else
              match import_class plugin_path (plugin_class manifest) with
              | None => (ImportFailed, s, [])
              | Some c =>
                  match construct c with
                  | HookRaises => (LoadException, s, [EvConstruct plugin_name])
                  | HookReturns _ =>
                      let plugin_instance :=
                        mkBasePlugin c (default [] config) true in
                      match initialize c with
                      | HookRaises =>
                          (LoadException, s,
                           [EvConstruct plugin_name; EvInitialize plugin_name])
                      | HookReturns false =>
                          (InitializationFailed, s,
                           [EvConstruct plugin_name; EvInitialize plugin_name])
                      | HookReturns true =>
                          (Loaded,
                           set_plugins (dict_set plugin_name plugin_instance (plugins s)) s,
                           [EvConstruct plugin_name; EvInitialize plugin_name])
                      end
                  end
              end
        end
    end.

(** [unload_plugin] *)
Definition unload_plugin (plugin_name : string) (s : PluginLoader)
    : bool * PluginLoader * list plugin_event :=
  match dict_get plugin_name (plugins s) with
  | None => (false, s, [])
  | Some plugin =>
      match shutdown (cls plugin) with
      | HookReturns _ =>
          (true, set_plugins (dict_del plugin_name (plugins s)) s,
           [EvShutdown plugin_name])
      | HookRaises => (false, s, [EvShutdown plugin_name])
      end
  end.

(** [enable_plugin], [disable_plugin], [get_plugin] *)
Definition enable_plugin (plugin_name : string) (s : PluginLoader) : bool * PluginLoader :=
  match dict_get plugin_name (plugins s) with
  | Some p => (true, set_plugins (dict_set plugin_name (set_enabled true p) (plugins s)) s)
  | None => (false, s)
  end.

Definition disable_plugin (plugin_name : string) (s : PluginLoader) : bool * PluginLoader :=
  match dict_get plugin_name (plugins s) with
  | Some p => (true, set_plugins (dict_set plugin_name (set_enabled false p) (plugins s)) s)
  | None => (false, s)
  end.

Definition get_plugin (plugin_name : string) (s : PluginLoader) : option BasePlugin :=
  dict_get plugin_name (plugins s).

(** [get_plugins_by_capability]: the [for] loop over [self.plugins.items()]
    with the list [matching] it appends to. *)
Fixpoint capability_loop (capability : string) (items : list (string * BasePlugin))
    (matching : list BasePlugin) : list BasePlugin :=
  match items with
  | [] => matching
  | (plugin_name, plugin) :: items' =>
      if negb (p_enabled plugin) then capability_loop capability items' matching
      else if bool_decide (capability ∈ get_capabilities (cls plugin))
      then capability_loop capability items' (matching ++ [plugin])
      else capability_loop capability items' matching
  end.

Definition get_plugins_by_capability (capability : string) (s : PluginLoader)
    : list BasePlugin :=
  capability_loop capability (plugins s) [].

(** [load_all]: the count it returns, or [None] for the [KeyError] of a
    [load_plugin] that finds a manifest without a path, and the loader as
    the call leaves it. *)
Fixpoint load_all_loop (import_class : string -> string -> option PluginClass)
    (enabled_only : bool) (items : list (string * PluginManifest))
    (s : PluginLoader) (loaded_count : nat) : option nat * PluginLoader :=
  match items with
  | [] => (Some loaded_count, s)
  | (plugin_name, manifest) :: items' =>
      if enabled_only && negb (enabled manifest)
      then load_all_loop import_class enabled_only items' s loaded_count
      else
        match returned (load_plugin import_class plugin_name None s).1.1 with
        | Some true =>
            load_all_loop import_class enabled_only items'
              (load_plugin import_class plugin_name None s).1.2 (loaded_count + 1)
        | Some false =>
            load_all_loop import_class enabled_only items'
              (load_plugin import_class plugin_name None s).1.2 loaded_count
        | None => (None, (load_plugin import_class plugin_name None s).1.2)
        end
  end.

Definition load_all (import_class : string -> string -> option PluginClass)
    (enabled_only : bool) (s : PluginLoader) : option nat * PluginLoader :=
  load_all_loop import_class enabled_only (manifests s) s 0.

(** [unload_all]: [unload_plugin] for every name that is loaded when the
    call starts. *)
Fixpoint unload_all_loop (plugin_names : list string) (s : PluginLoader) : PluginLoader :=
  match plugin_names with
  | [] => s
  | plugin_name :: rest => unload_all_loop rest (unload_plugin plugin_name s).1.2
  end.

Definition unload_all (s : PluginLoader) : PluginLoader :=
  unload_all_loop (dict_keys (plugins s)) s.

(** [get_plugin_info] and [list_plugins] *)
Record PluginInfo := mkPluginInfo {
  i_name : string;
  i_version : string;
  i_description : string;
  i_author : string;
  i_capabilities : list string;
  i_dependencies : list string;
  i_loaded : bool;
  i_enabled : bool;
  i_path : option string
}.

Definition get_plugin_info (plugin_name : string) (s : PluginLoader) : option PluginInfo :=
  match dict_get plugin_name (manifests s) with
  | None => None
  | Some manifest =>
      Some (mkPluginInfo (name manifest) (version manifest) (description manifest)
              (author manifest) (capabilities manifest) (dependencies manifest)
              (dict_in plugin_name (plugins s))
              (match dict_get plugin_name (plugins s) with
               | Some plugin => p_enabled plugin
               | None => enabled manifest
               end)
              (dict_get plugin_name (plugin_paths s)))
  end.

Definition list_plugins (s : PluginLoader) : list (option PluginInfo) :=
  map (fun plugin_name => get_plugin_info plugin_name s) (dict_keys (manifests s)).

(** *** The loader in use

    What a caller can do to a loader, one call after the other. *)
Inductive loader_op :=
  | LDiscover (found : list (string * option (list (string * json))))
  | LLoad (import_class : string -> string -> option PluginClass)
      (plugin_name : string) (config : option (list (string * json)))
  | LUnload (plugin_name : string)
  | LEnable (plugin_name : string)
  | LDisable (plugin_name : string)
  | LLoadAll (import_class : string -> string -> option PluginClass)
      (enabled_only : bool)
  | LUnloadAll.

Definition run_loader_op (o : loader_op) (s : PluginLoader) : PluginLoader :=
  match o with
  | LDiscover found => (discover_plugins found s).2
  | LLoad import_class plugin_name config =>
      (load_plugin import_class plugin_name config s).1.2
  | LUnload plugin_name => (unload_plugin plugin_name s).1.2
  | LEnable plugin_name => (enable_plugin plugin_name s).2
  | LDisable plugin_name => (disable_plugin plugin_name s).2
  | LLoadAll import_class enabled_only => (load_all import_class enabled_only s).2
  | LUnloadAll => unload_all s
  end.

Definition run_loader_ops (ops : list loader_op) (s : PluginLoader) : PluginLoader :=
  fold_left (fun s o => run_loader_op o s) ops s.

(** What a loader keeps true of its dicts: no name twice among the loaded
    plugins or the manifests, a path for every manifest, and every manifest
    under its own name. *)
Definition loader_wf (s : PluginLoader) : Prop :=
  NoDup (dict_keys (plugins s)) /\
  NoDup (dict_keys (manifests s)) /\
  (forall n, dict_in n (manifests s) = dict_in n (plugin_paths s)) /\
  (forall n manifest, dict_get n (manifests s) = Some manifest -> name manifest = n).

Definition shutdown_raises (plugin : BasePlugin) : bool :=
  match shutdown (cls plugin) with HookRaises => true | HookReturns _ => false end.

(** *** Plugin folders to try the loader on *)

(** A [manifest.json] with the five required keys and nothing else. *)
Definition manifest_without_capabilities : list (string * json) :=
  [("name", JStr "p"); ("version", JStr "1.0.0"); ("description", JStr "a plugin");
   ("author", JStr "someone"); ("plugin_class", JStr "plugin.Plugin")].

(** A [manifest.json] with the required keys, capabilities and dependencies. *)
Definition manifest_json (name : string) (capabilities dependencies : list string)
    : list (string * json) :=
  [("name", JStr name); ("version", JStr "1.0.0"); ("description", JStr "a plugin");
   ("author", JStr "someone"); ("plugin_class", JStr "plugin.Plugin");
   ("capabilities", JList (JStr <$> capabilities));
   ("dependencies", JList (JStr <$> dependencies))].

(** Folders whose [plugin.py] defines a class that overrides nothing of
    [BasePlugin], and folders whose class has a [shutdown] that raises. *)
Definition import_plain : string -> string -> option PluginClass :=
  fun _ _ => Some BasePlugin_class.

Definition import_failing_shutdown : string -> string -> option PluginClass :=
  fun _ _ => Some (mkPluginClass (HookReturns ()) (HookReturns true) HookRaises []).

(** One plugin "p" that declares the capability "cap" in its manifest,
    discovered and loaded. *)
Definition loader_with_p (import_class : string -> string -> option PluginClass)
    : PluginLoader :=
  let s := (discover_plugins [("plugins/p", Some (manifest_json "p" ["cap"] []))]
              (init [])).2 in
  (load_plugin import_class "p" None s).1.2.

(** Plugins "A" and "B", "B" depending on "A", discovered. *)
Definition loader_with_A_B : PluginLoader :=
  (discover_plugins [("plugins/A", Some (manifest_json "A" [] []));
                     ("plugins/B", Some (manifest_json "B" [] ["A"]))]
     (init [])).2.

(** "A" loaded, "B" loaded, "A" unloaded again. *)
Definition loader_with_B_only : PluginLoader :=
  let s := (load_plugin import_plain "A" None loader_with_A_B).1.2 in
  let s := (load_plugin import_plain "B" None s).1.2 in
  (unload_plugin "A" s).1.2.

End plugin_loader.

(* ===================================================================== *)
(** * Part II: lemmas                                                     *)
(* ===================================================================== *)

(** ** The heap: what [heappush] and [heappop] keep and give *)

Module heapq_facts.
Import heapq.

(** [n >> 1] is the half of [n]. *)
Lemma shiftr1_bounds (n : nat) :
  2 * Nat.shiftr n 1 <= n < 2 * Nat.shiftr n 1 + 2.
Proof.
  rewrite Nat.shiftr_div_pow2. change (2 ^ 1) with 2.
  pose proof (Nat.div_mod_eq n 2). pose proof (Nat.mod_upper_bound n 2). lia.
Qed.

Ltac parent_bounds :=
  repeat match goal with
  | |- context [Nat.shiftr ?n 1] =>
      let H := fresh "Hsh" in
      let p := fresh "pp" in
      pose proof (shiftr1_bounds n) as H;
      generalize dependent (Nat.shiftr n 1); intros p H
  | H0 : context [Nat.shiftr ?n 1] |- _ =>
      let H := fresh "Hsh" in
      let p := fresh "pp" in
      pose proof (shiftr1_bounds n) as H;
      generalize dependent (Nat.shiftr n 1); intros p H
  end.

Section fuel.
Context {A : Type} (lt : A -> A -> bool).

(** The fuel that [_siftdown] and [_siftup] hand to their loops is enough:
    with that much fuel, more fuel changes nothing. *)
Lemma siftdown_loop_fuel (fuel : nat) : forall (heap : list A) startpos pos newitem,
  pos <= fuel ->
  siftdown_loop lt (S fuel) heap startpos pos newitem =
  siftdown_loop lt fuel heap startpos pos newitem.
Proof.
  induction fuel as [|fuel IH]; intros heap startpos pos newitem Hfuel.
  - cbn [siftdown_loop]. case_bool_decide; [lia|done].
  - change (siftdown_loop lt (S (S fuel)) heap startpos pos newitem) with
      (if bool_decide (startpos < pos) then
         match heap !! Nat.shiftr (pos - 1) 1 with
         | Some parent =>
             if lt newitem parent
             then siftdown_loop lt (S fuel) (<[pos := parent]> heap) startpos
                    (Nat.shiftr (pos - 1) 1) newitem
             else <[pos := newitem]> heap
         | None => <[pos := newitem]> heap
         end
       else <[pos := newitem]> heap).
    cbn [siftdown_loop]. case_bool_decide; [|done].
    destruct (heap !! Nat.shiftr (pos - 1) 1) as [parent|]; [|done].
    destruct (lt newitem parent); [|done].
    apply IH. pose proof (shiftr1_bounds (pos - 1)). lia.
Qed.

Lemma siftup_loop_fuel (fuel : nat) : forall (heap : list A) endpos pos,
  endpos - pos <= fuel ->
  siftup_loop lt (S fuel) heap endpos pos = siftup_loop lt fuel heap endpos pos.
Proof.
  induction fuel as [|fuel IH]; intros heap endpos pos Hfuel.
  - cbn [siftup_loop]. case_bool_decide; [lia|done].
  - change (siftup_loop lt (S (S fuel)) heap endpos pos) with
      (if bool_decide (2 * pos + 1 < endpos) then
         match heap !! (if bool_decide (2 * pos + 1 + 1 < endpos)
                           && negb (lt_at lt heap (2 * pos + 1) (2 * pos + 1 + 1))
                        then 2 * pos + 1 + 1 else 2 * pos + 1) with
         | Some child =>
             siftup_loop lt (S fuel) (<[pos := child]> heap) endpos
               (if bool_decide (2 * pos + 1 + 1 < endpos)
                   && negb (lt_at lt heap (2 * pos + 1) (2 * pos + 1 + 1))
                then 2 * pos + 1 + 1 else 2 * pos + 1)
         | None => (heap, pos)
         end
       else (heap, pos)).
    cbn [siftup_loop]. case_bool_decide; [|done].
    destruct (bool_decide (2 * pos + 1 + 1 < endpos)
              && negb (lt_at lt heap (2 * pos + 1) (2 * pos + 1 + 1)));
      (destruct (heap !! _); [apply IH; lia|done]).
Qed.

End fuel.

Section perm.
Context {A : Type} (lt : A -> A -> bool).

Lemma siftdown_loop_perm (fuel : nat) : forall (heap : list A) startpos pos newitem,
  pos < length heap ->
  siftdown_loop lt fuel heap startpos pos newitem ≡ₚ <[pos := newitem]> heap.
Proof.
  induction fuel as [|fuel IH]; intros heap startpos pos newitem Hpos; cbn [siftdown_loop]; [done|].
  case_bool_decide as Hlt; [|done].
  destruct (heap !! Nat.shiftr (pos - 1) 1) as [parent|] eqn:Hparent; [|done].
  destruct (lt newitem parent); [|done].
  assert (Nat.shiftr (pos - 1) 1 < pos) as Hpp
    by (pose proof (shiftr1_bounds (pos - 1)); lia).
  rewrite IH by (rewrite length_insert; lia).
  set (l := <[pos := newitem]> heap).
  replace (<[pos := parent]> heap) with (<[pos := parent]> l)
    by (unfold l; apply list_insert_insert_eq).
  apply Permutation_insert_swap.
  - unfold l. by apply list_lookup_insert_eq.
  - unfold l. rewrite list_lookup_insert_ne by lia. done.
Qed.

Lemma siftdown_perm (heap : list A) startpos pos :
  _siftdown lt heap startpos pos ≡ₚ heap.
Proof.
  unfold _siftdown. destruct (heap !! pos) as [newitem|] eqn:Hpos; [|done].
  rewrite siftdown_loop_perm by (by eapply lookup_lt_Some).
  by rewrite list_insert_id.
Qed.

Lemma heappush_perm (heap : list A) item : heappush lt heap item ≡ₚ item :: heap.
Proof.
  unfold heappush. rewrite siftdown_perm. by rewrite Permutation_app_comm.
Qed.

Lemma siftup_loop_perm (fuel : nat) : forall (heap : list A) pos heap1 leaf newitem,
  pos < length heap ->
  siftup_loop lt fuel heap (length heap) pos = (heap1, leaf) ->
  leaf < length heap1 /\ pos <= leaf /\ length heap1 = length heap /\
  <[leaf := newitem]> heap1 ≡ₚ <[pos := newitem]> heap.
Proof.
  induction fuel as [|fuel IH]; intros heap pos heap1 leaf newitem Hpos; cbn [siftup_loop].
  { intros [= <- <-]. done. }
  case_bool_decide as Hchild; [|by intros [= <- <-]].
  match goal with |- context [heap !! ?c] => set (childpos := c) end.
  assert (childpos = 2 * pos + 1 \/ childpos = 2 * pos + 1 + 1) as Hc
    by (unfold childpos; destruct (_ && _); lia).
  clearbody childpos.
  destruct (heap !! childpos) as [child|] eqn:Hchildv; [|by intros [= <- <-]].
  pose proof (lookup_lt_Some _ _ _ Hchildv) as Hclt.
  intros Hloop.
  replace (length heap) with (length (<[pos := child]> heap)) in Hloop
    by apply length_insert.
  apply (IH _ _ _ _ newitem) in Hloop as (Hleaf & Hle & Hlen & Hperm);
    [|rewrite length_insert; lia].
  rewrite length_insert in Hlen.
  split; [done|]. split; [lia|]. split; [done|].
  rewrite Hperm.
  set (l := <[pos := newitem]> heap).
  replace (<[pos := child]> heap) with (<[pos := child]> l)
    by (unfold l; apply list_insert_insert_eq).
  apply Permutation_insert_swap.
  - unfold l. by apply list_lookup_insert_eq.
  - unfold l. rewrite list_lookup_insert_ne by lia. done.
Qed.

Lemma siftup_perm (heap : list A) pos : _siftup lt heap pos ≡ₚ heap.
Proof.
  unfold _siftup. destruct (heap !! pos) as [newitem|] eqn:Hpos; [|done].
  destruct (siftup_loop lt (length heap) heap (length heap) pos) as [heap1 leaf] eqn:Hloop.
  apply (siftup_loop_perm _ _ _ _ _ newitem) in Hloop as (_ & _ & _ & Hperm);
    [|by eapply lookup_lt_Some].
  rewrite siftdown_perm, Hperm. by rewrite list_insert_id.
Qed.

Lemma heappop_None (heap : list A) : heappop lt heap = None <-> heap = [].
Proof.
  unfold heappop. split.
  - destruct (last heap) eqn:Hlast.
    + destruct (take _ _); discriminate.
    + intros _. by apply last_None.
  - by intros ->.
Qed.

(** [heappop] hands out the entry at index 0 and keeps all the others. *)
Lemma heappop_Some (heap : list A) x heap' :
  heappop lt heap = Some (x, heap') -> heap !! 0 = Some x /\ heap ≡ₚ x :: heap'.
Proof.
  unfold heappop. destruct (last heap) as [lastelt|] eqn:Hlast; [|done].
  apply last_Some in Hlast as [init ->].
  rewrite length_app, Nat.add_sub, take_app_length.
  destruct init as [|returnitem init]; intros [= <- <-]; [done|].
  split; [done|]. simpl.
  rewrite siftup_perm. apply perm_skip. symmetry. apply Permutation_cons_append.
Qed.

End perm.

Ltac lookups :=
  repeat match goal with
  | H : <[_ := _]> _ !! _ = Some _ |- _ =>
      apply list_lookup_insert_Some in H as [(? & ? & ?) | (? & ?)]
  | H : (_ ++ [_]) !! _ = Some _ |- _ =>
      apply lookup_snoc_Some in H as [(? & ?) | (? & ?)]
  | H : ?l !! ?i = Some _ |- _ =>
      lazymatch goal with
      | _ : i < length l |- _ => fail
      | _ => pose proof (lookup_lt_Some _ _ _ H)
      end
  end; simplify_eq.

Ltac arith := solve [exfalso; parent_bounds; lia].
Ltac side := first [done | congruence | solve [parent_bounds; lia]].
(** Close [lt x _ = false] with an invariant [H] at the index where [x] sits. *)
Ltac by_inv H :=
  match goal with
  | Hx : _ !! ?i = Some ?x |- lt ?x _ = false => solve [eapply (H i); side]
  | Hx : _ !! ?i = Some ?x |- ?lt ?x _ = false => solve [eapply (H i); side]
  end.

Section order.
Context {A : Type} (lt : A -> A -> bool).
Hypothesis lt_irrefl : forall x, lt x x = false.
Hypothesis lt_trans : forall x y z, lt x y = true -> lt y z = true -> lt x z = true.
Hypothesis lt_incomp : forall x y z, lt x y = false -> lt y z = false -> lt x z = false.

Lemma lt_asym x y : lt x y = true -> lt y x = false.
Proof.
  intros H. destruct (lt y x) eqn:E; [|done].
  rewrite <- (lt_irrefl x). symmetry. by eapply lt_trans.
Qed.

Lemma lt_le_incomp x y z : lt x y = false -> lt z y = true -> lt x z = false.
Proof.
  intros Hxy Hzy. destruct (lt x z) eqn:E; [|done].
  rewrite <- Hxy. symmetry. by eapply lt_trans.
Qed.

Lemma siftdown_inv_final (heap : list A) pos newitem :
  siftdown_inv lt heap pos newitem ->
  (forall p, 0 < pos -> heap !! Nat.shiftr (pos - 1) 1 = Some p -> lt newitem p = false) ->
  heap_ordered lt (<[pos := newitem]> heap).
Proof.
  intros (Ha & Hb & Hc) Hp i x p Hi Hx Hparent. lookups;
    first [arith | by_inv Ha | by_inv Hb | by eapply Hp].
Qed.

Lemma siftdown_loop_ordered (fuel : nat) : forall (heap : list A) pos newitem,
  pos <= fuel -> pos < length heap ->
  siftdown_inv lt heap pos newitem ->
  heap_ordered lt (siftdown_loop lt fuel heap 0 pos newitem).
Proof.
  induction fuel as [|fuel IH]; intros heap pos newitem Hfuel Hpos Hinv;
    cbn [siftdown_loop].
  { apply siftdown_inv_final; [done|]. intros; lia. }
  case_bool_decide as Hlt; [|apply siftdown_inv_final; [done|intros; lia]].
  destruct (heap !! Nat.shiftr (pos - 1) 1) as [parent|] eqn:Hparent.
  2:{ apply lookup_ge_None in Hparent. arith. }
  destruct (lt newitem parent) eqn:Hcmp.
  2:{ apply siftdown_inv_final; [done|]. intros p _ Hp. by simplify_eq. }
  assert (Nat.shiftr (pos - 1) 1 < pos) as Hpp
    by (pose proof (shiftr1_bounds (pos - 1)); lia).
  destruct Hinv as (Ha & Hb & Hc).
  apply IH; [lia|rewrite length_insert; lia|].
  split; [|split].
  - intros i x p Hi Hne Hx Hp. lookups;
      first [arith | apply lt_irrefl | by_inv Ha | by_inv Hc | idtac].
  - intros c x Hc0 Hcp Hx. lookups;
      first [arith | by apply lt_asym | idtac].
    eapply lt_le_incomp; [|exact Hcmp]. eapply (Ha c); side.
  - intros c x g Hc0 Hcp Hpp0 Hx Hg. lookups;
      first [arith | by_inv Ha | idtac].
    eapply (lt_incomp _ parent).
    + eapply (Ha c); side.
    + eapply (Ha (Nat.shiftr (pos - 1) 1)); side.
Qed.

Lemma heap_ordered_nil : heap_ordered lt (@nil A).
Proof. intros i x p _ Hx. done. Qed.

Lemma heappush_ordered (heap : list A) item :
  heap_ordered lt heap -> heap_ordered lt (heappush lt heap item).
Proof.
  intros Hord. unfold heappush, _siftdown.
  rewrite length_app, Nat.add_sub.
  rewrite (lookup_app_r heap) by done. rewrite Nat.sub_diag. cbn [lookup list_lookup].
  apply siftdown_loop_ordered; [done|rewrite length_app; simpl; lia|].
  split; [|split].
  - intros i x p Hi Hne Hx Hp. lookups; first [arith | by_inv Hord].
  - intros c x Hc0 Hcp Hx. lookups; arith.
  - intros c x g Hc0 Hcp Hpos Hx Hg. lookups; arith.
Qed.

(** The child that the loop of [_siftup] moves up is the smaller one. *)
Lemma smaller_child (heap : list A) pos :
  2 * pos + 1 < length heap ->
  let childpos :=
    if bool_decide (2 * pos + 1 + 1 < length heap)
       && negb (lt_at lt heap (2 * pos + 1) (2 * pos + 1 + 1))
    then 2 * pos + 1 + 1 else 2 * pos + 1 in
  exists child, heap !! childpos = Some child /\
    (childpos = 2 * pos + 1 \/ childpos = 2 * pos + 1 + 1) /\
    forall o x, o = 2 * pos + 1 \/ o = 2 * pos + 1 + 1 ->
      heap !! o = Some x -> lt x child = false.
Proof.
  intros Hleft. unfold lt_at.
  destruct (lookup_lt_is_Some_2 heap (2 * pos + 1) Hleft) as [xl Hl]. rewrite Hl.
  case_bool_decide as Hright; cbn [andb].
  - destruct (lookup_lt_is_Some_2 heap (2 * pos + 1 + 1) Hright) as [xr Hr].
    rewrite Hr. destruct (lt xl xr) eqn:Hcmp; cbn [negb].
    + exists xl. split; [done|]. split; [by left|].
      intros o x [-> | ->] Hx; simplify_eq; [apply lt_irrefl|by apply lt_asym].
    + exists xr. split; [done|]. split; [by right|].
      intros o x [-> | ->] Hx; simplify_eq; [done|apply lt_irrefl].
  - exists xl. split; [done|]. split; [by left|].
    intros o x [-> | ->] Hx; simplify_eq; [apply lt_irrefl|].
    apply lookup_lt_Some in Hx. lia.
Qed.

Lemma siftup_loop_inv (fuel : nat) : forall (heap : list A) pos heap1 leaf,
  length heap - pos <= fuel -> pos < length heap ->
  siftup_inv lt heap pos ->
  siftup_loop lt fuel heap (length heap) pos = (heap1, leaf) ->
  siftup_inv lt heap1 leaf /\ length heap1 <= 2 * leaf + 1.
Proof.
  induction fuel as [|fuel IH]; intros heap pos heap1 leaf Hfuel Hpos Hinv;
    cbn [siftup_loop]; [lia|].
  case_bool_decide as Hchild; [|intros [= <- <-]; split; [done|lia]].
  destruct (smaller_child heap pos Hchild) as (child & Hchildv & Hcp & Hsmall).
  revert Hchildv Hcp Hsmall.
  match goal with |- context [heap !! ?c] => generalize c end.
  intros childpos Hchildv Hcp Hsmall. rewrite Hchildv.
  intros Hloop.
  replace (length heap) with (length (<[pos := child]> heap)) in Hloop
    by apply length_insert.
  pose proof (lookup_lt_Some _ _ _ Hchildv).
  apply IH in Hloop; [done|rewrite length_insert; lia|rewrite length_insert; lia|].
  destruct Hinv as (Ha & Hc).
  split.
  - intros i x p Hi Hne Hx Hp.
    lookups; first [arith | by_inv Ha | by_inv Hc | by_inv Hsmall].
  - intros c x g Hc0 Hcpar Hpos0 Hx Hg. lookups; first [arith | by_inv Ha].
Qed.

Lemma siftup_ordered (heap : list A) :
  siftup_inv lt heap 0 -> heap_ordered lt (_siftup lt heap 0).
Proof.
  intros Hinv. unfold _siftup.
  destruct (heap !! 0) as [newitem|] eqn:Hroot.
  2:{ apply lookup_ge_None in Hroot. destruct heap; [apply heap_ordered_nil|simpl in *; lia]. }
  pose proof (lookup_lt_Some _ _ _ Hroot) as Hlen.
  destruct (siftup_loop lt (length heap) heap (length heap) 0) as [heap1 leaf] eqn:Hloop.
  pose proof Hloop as Hperm.
  apply (siftup_loop_perm _ _ _ _ _ _ newitem) in Hperm as (Hleaf & _ & Hlen1 & _); [|done].
  apply siftup_loop_inv in Hloop as ((Ha & Hc) & Hisleaf); [|lia|done|done].
  unfold _siftdown. rewrite list_lookup_insert_eq by done.
  apply siftdown_loop_ordered; [done|by rewrite length_insert|].
  split; [|split].
  - intros i x p Hi Hne Hx Hp. lookups; first [arith | by_inv Ha].
  - intros c x Hc0 Hcp Hx. lookups; arith.
  - intros c x g Hc0 Hcp Hpos Hx Hg. lookups; arith.
Qed.

Lemma heap_ordered_take (heap : list A) n :
  heap_ordered lt heap -> heap_ordered lt (take n heap).
Proof.
  intros Hord i x p Hi Hx Hp.
  apply lookup_take_Some in Hx as [Hx _]. apply lookup_take_Some in Hp as [Hp _].
  by eapply Hord.
Qed.

Lemma heappop_ordered (heap : list A) x heap' :
  heap_ordered lt heap -> heappop lt heap = Some (x, heap') -> heap_ordered lt heap'.
Proof.
  intros Hord. unfold heappop. destruct (last heap) as [lastelt|]; [|done].
  apply (heap_ordered_take _ (length heap - 1)) in Hord.
  destruct (take (length heap - 1) heap) as [|returnitem rest] eqn:Htake;
    intros [= <- <-]; [apply heap_ordered_nil|].
  apply siftup_ordered. split.
  - intros i y p Hi Hne Hy Hp. eapply (Hord i); [done| |].
    + destruct i; [lia|exact Hy].
    + destruct (Nat.shiftr (i - 1) 1); [done|exact Hp].
  - intros; lia.
Qed.

(** In an ordered heap no entry is smaller than the one at index 0. *)
Lemma heap_root_min (heap : list A) r :
  heap_ordered lt heap -> heap !! 0 = Some r ->
  forall i y, heap !! i = Some y -> lt y r = false.
Proof.
  intros Hord Hroot i. induction (lt_wf i) as [i _ IH]. intros y Hy.
  destruct (decide (i = 0)) as [->|Hi]; [simplify_eq; apply lt_irrefl|].
  assert (Nat.shiftr (i - 1) 1 < i) as Hpp
    by (pose proof (shiftr1_bounds (i - 1)); lia).
  pose proof (lookup_lt_Some _ _ _ Hy).
  destruct (lookup_lt_is_Some_2 heap (Nat.shiftr (i - 1) 1)) as [p Hp]; [lia|].
  eapply (lt_incomp _ p); [eapply (Hord i); [lia|done|done]|by eapply IH].
Qed.

(** What [heappop] hands out is not larger than anything in the heap. *)
Lemma heappop_min (heap : list A) x heap' :
  heap_ordered lt heap -> heappop lt heap = Some (x, heap') ->
  forall y, y ∈ heap -> lt y x = false.
Proof.
  intros Hord Hpop y Hy. apply heappop_Some in Hpop as [Hroot _].
  apply list_elem_of_lookup in Hy as [i Hy]. by eapply heap_root_min.
Qed.

End order.
End heapq_facts.

(** ** The task queue *)

Module task_queue_facts.
Import heapq task_queue heapq_facts.

(** *** The order of the tasks *)

Lemma Qlt_bool_spec (a b : Q) : Qlt_bool a b = true <-> (a < b)%Q.
Proof.
  unfold Qlt_bool. rewrite negb_true_iff. split.
  - intros H. apply Qnot_le_lt. intros Hle. apply Qle_bool_iff in Hle. congruence.
  - intros H. destruct (Qle_bool b a) eqn:E; [|done].
    apply Qle_bool_iff in E. by apply Qlt_not_le in H.
Qed.

Lemma Task_lt_spec (a b : Task) :
  Task_lt a b = true <->
  (priority_value (priority a) < priority_value (priority b))%Z \/
  (priority_value (priority a) = priority_value (priority b) /\
   (created_at a < created_at b)%Q).
Proof.
  unfold Task_lt.
  destruct (Z.eqb_spec (priority_value (priority a)) (priority_value (priority b)))
    as [Heq|Hne]; cbn [negb].
  - destruct (Qeq_bool (created_at a) (created_at b)) eqn:Hq; cbn [negb].
    + apply Qeq_bool_iff in Hq. split; [done|].
      intros [?|[_ Hlt]]; [lia|]. rewrite Hq in Hlt. by apply Qlt_irrefl in Hlt.
    + rewrite Qlt_bool_spec. split; [by right|]. intros [?|[_ ?]]; [lia|done].
  - rewrite Z.ltb_lt. split; [by left|]. intros [?|[? _]]; [done|lia].
Qed.

Lemma Task_lt_false (a b : Task) :
  Task_lt a b = false <->
  (priority_value (priority b) < priority_value (priority a))%Z \/
  (priority_value (priority a) = priority_value (priority b) /\
   (created_at b <= created_at a)%Q).
Proof.
  rewrite <- not_true_iff_false, Task_lt_spec. split.
  - intros H.
    destruct (Z.lt_trichotomy (priority_value (priority a)) (priority_value (priority b)))
      as [Hlt|[Heq|Hgt]].
    + destruct H. by left.
    + right. split; [done|]. apply Qnot_lt_le. intros Hlt. destruct H. by right.
    + by left.
  - intros [Hgt|[Heq Hle]] [Hlt|[Heq' Hlt]]; try lia.
    by apply Qle_not_lt in Hle.
Qed.

Lemma Task_lt_irrefl (x : Task) : Task_lt x x = false.
Proof. apply Task_lt_false. right. split; [done|apply Qle_refl]. Qed.

Lemma Task_lt_trans (x y z : Task) :
  Task_lt x y = true -> Task_lt y z = true -> Task_lt x z = true.
Proof.
  rewrite !Task_lt_spec.
  intros [?|[? Hxy]] [?|[? Hyz]]; try (left; lia).
  right. split; [lia|]. by eapply Qlt_trans.
Qed.

Lemma Task_lt_incomp (x y z : Task) :
  Task_lt x y = false -> Task_lt y z = false -> Task_lt x z = false.
Proof.
  rewrite !Task_lt_false.
  intros [?|[? Hxy]] [?|[? Hyz]]; try (left; lia).
  right. split; [lia|]. by eapply Qle_trans.
Qed.

(** *** The queue stays a heap *)

Lemma queue_put_ordered (q : list Task) task :
  heap_ordered Task_lt q -> heap_ordered Task_lt (queue_put q task).
Proof.
  apply heappush_ordered;
    [apply Task_lt_irrefl|apply Task_lt_trans|apply Task_lt_incomp].
Qed.

Lemma queue_get_ordered (q : list Task) task q' :
  heap_ordered Task_lt q -> queue_get q = Some (task, q') ->
  heap_ordered Task_lt q'.
Proof.
  apply heappop_ordered;
    [apply Task_lt_irrefl|apply Task_lt_trans|apply Task_lt_incomp].
Qed.

Lemma queue_get_min (q : list Task) task q' :
  heap_ordered Task_lt q -> queue_get q = Some (task, q') ->
  forall other, other ∈ q -> Task_lt other task = false.
Proof.
  apply heappop_min; [apply Task_lt_irrefl|apply Task_lt_incomp].
Qed.

(** *** What [_execute_task] does *)

Lemma attempt_calls (task : Task) :
  (attempt task).2 = [EvCall (task_id task) (retry_count task)].
Proof.
  unfold attempt, _execute_with_timeout, call.
  destruct (timeout_set task) as [t|]; [|done].
  destruct (negb (fits_PyTime t)); [done|].
  destruct (func task (retry_count task)) as [v el|e el|el|]; try done;
    by destruct (Qlt_bool t el).
Qed.

(** The cases of [_execute_task]. *)
Lemma execute_task_cases (task : Task) (q : list Task) :
  let called := [EvCall (task_id task) (retry_count task)] in
  match (attempt task).1 with
  | Returns v el =>
      _execute_task task q =
        (Result (mkTaskResult (task_id task) true v None el (retry_count task)) task q,
         called)
  | Raises e el =>
      if (retry_count task <? max_retries task)%Z then
        match backoff_delay (bump_retry_count task) with
        | inl e' => _execute_task task q = (Escapes e' (bump_retry_count task), called)
        | inr delay =>
            match time_sleep delay with
            | Some e' => _execute_task task q = (Escapes e' (bump_retry_count task), called)
            | None =>
                _execute_task task q =
                  (Result (mkTaskResult (task_id task) false PyNone (Some e) el
                             (retry_count task + 1))
                     (bump_retry_count task) (queue_put q (bump_retry_count task)),
                   called ++ [EvSleep (task_id task) delay])
            end
        end
      else
        _execute_task task q =
          (Result (mkTaskResult (task_id task) false PyNone (Some e) el (retry_count task))
             task q, called)
  | Exits _ => _execute_task task q = (Dies, called)
  | Hangs => _execute_task task q = (Stuck, called)
  end.
Proof.
  pose proof (attempt_calls task) as Hcall. unfold _execute_task.
  destruct (attempt task) as [[v el|e el|el|] evs]; cbn in Hcall; subst evs; cbn; try done.
  destruct (retry_count task <? max_retries task)%Z; [|done].
  destruct (backoff_delay (bump_retry_count task)) as [e'|delay]; [done|].
  by destruct (time_sleep delay).
Qed.

(** Where the queue goes: it is left alone, or the task is put back. *)
Lemma execute_task_queue (task : Task) (q : list Task) :
  match (_execute_task task q).1 with
  | Result r task' q' =>
      (task' = task /\ q' = q) \/
      ((retry_count task <? max_retries task)%Z = true /\
       task' = bump_retry_count task /\ q' = queue_put q (bump_retry_count task))
  | _ => True
  end.
Proof.
  pose proof (execute_task_cases task q) as H. cbn zeta in H.
  destruct (attempt task).1 as [v el|e el|el|]; try (by rewrite H); [by rewrite H; left|].
  destruct (retry_count task <? max_retries task)%Z; [|by rewrite H; left].
  destruct (backoff_delay (bump_retry_count task)) as [e'|delay]; [by rewrite H|].
  destruct (time_sleep delay); rewrite H; [done|]. by right.
Qed.

(** The queue decides nothing: on another queue [_execute_task] ends in
    the same way, with the same result and the same events. *)
Lemma execute_task_on (task : Task) (q : list Task) :
  match _execute_task task [] with
  | (Result r task' _, evs) => exists q', _execute_task task q = (Result r task' q', evs)
  | (x, evs) => _execute_task task q = (x, evs)
  end.
Proof.
  pose proof (execute_task_cases task q) as H. pose proof (execute_task_cases task []) as H0.
  cbn zeta in *.
  destruct (attempt task).1 as [v el|e el|el|]; try (by rewrite H0, H);
    [rewrite H0, H; by eexists|].
  destruct (retry_count task <? max_retries task)%Z; [|rewrite H0, H; by eexists].
  destruct (backoff_delay (bump_retry_count task)) as [e'|delay]; [by rewrite H0, H|].
  destruct (time_sleep delay); rewrite H0, H; [done|by eexists].
Qed.

Lemma execute_task_event_ids (task : Task) (q : list Task) :
  Forall (fun e => event_id e = task_id task) (_execute_task task q).2.
Proof.
  pose proof (execute_task_cases task q) as H. cbn zeta in H.
  destruct (attempt task).1 as [v el|e el|el|]; try (rewrite H; by repeat constructor).
  destruct (retry_count task <? max_retries task)%Z; [|rewrite H; by repeat constructor].
  destruct (backoff_delay (bump_retry_count task)) as [e'|delay];
    [rewrite H; by repeat constructor|].
  destruct (time_sleep delay); rewrite H; by repeat constructor.
Qed.


Lemma execute_task_id (task : Task) (q : list Task) :
  match (_execute_task task q).1 with
  | Result r task' q' => task_id task' = task_id task
  | _ => True
  end.
Proof.
  pose proof (execute_task_queue task q) as H.
  destruct (_execute_task task q).1 as [r task' q'| | |]; try done.
  by destruct H as [[-> _]|(_ & -> & _)].
Qed.

Lemma call_back_event_ids (task : Task) (r : TaskResult) :
  Forall (fun e => event_id e = task_id task) (call_back task r).2.
Proof.
  unfold call_back. destruct (success r).
  - destruct (callback task); by repeat constructor.
  - destruct (error_callback task); by repeat constructor.
Qed.

Lemma attempt_event_ids (task : Task) :
  Forall (fun e => event_id e = task_id task) (attempt_events task).
Proof.
  unfold attempt_events.
  pose proof (execute_task_event_ids task []) as Hev.
  pose proof (execute_task_id task []) as Hid.
  destruct (_execute_task task []) as [[r task' q'| | |] evs]; cbn in *; try done.
  apply Forall_app. split; [done|]. rewrite <- Hid.
  constructor; [done|]. apply call_back_event_ids.
Qed.

(** *** The queue stays a heap *)

Lemma worker_step_ordered (w : worker) (s : TaskQueue) :
  heap_ordered Task_lt (queue s) -> heap_ordered Task_lt (queue (worker_step w s).1.2).
Proof.
  intros Hord. destruct w as [| |task|task r|task r| |]; cbn [worker_step]; try done.
  - unfold worker_get. destruct (queue_get (queue s)) as [[task q]|] eqn:Hget; [|done].
    by eapply queue_get_ordered.
  - pose proof (execute_task_queue task (queue s)) as Hq.
    destruct (_execute_task task (queue s)) as [[r task' q'| | |] evs]; cbn in *; try done.
    destruct Hq as [[_ ->]|(_ & _ & ->)]; [done|]. by apply queue_put_ordered.
  - by destruct (call_back task r) as [[| |] evs].
Qed.

Lemma run_op_ordered (o : op) (sys : system) :
  heap_ordered Task_lt (queue (tq sys)) ->
  heap_ordered Task_lt (queue (tq (run_op o sys))).
Proof.
  intros Hord. destruct o; cbn [run_op tq].
  - unfold start. by destruct (running (tq sys)).
  - unfold stop. by destruct (running (tq sys)).
  - by apply queue_put_ordered.
  - destruct (threads sys !! k) as [w|]; [|done].
    pose proof (worker_step_ordered w (tq sys) Hord) as H.
    by destruct (worker_step w (tq sys)) as [[w' s'] evs].
  - unfold cancel_task. by destruct (pending_tasks (tq sys) !! id).
  - done.
Qed.

Lemma run_ops_ordered (ops : list op) : forall sys,
  heap_ordered Task_lt (queue (tq sys)) ->
  heap_ordered Task_lt (queue (tq (run_ops ops sys))).
Proof.
  induction ops as [|o ops IH]; intros sys Hord; [done|].
  apply IH. by apply run_op_ordered.
Qed.

(** Every queue that callers and workers can bring about is a heap. *)
Lemma reachable_ordered (ops : list op) (w : nat) :
  heap_ordered Task_lt (queue (tq (run_ops ops (boot w)))).
Proof. apply run_ops_ordered. apply heap_ordered_nil. Qed.

(** *** Reading a trace *)

Lemma events_of_app (id : string) (e1 e2 : list event) :
  events_of id (e1 ++ e2) = events_of id e1 ++ events_of id e2.
Proof. unfold events_of. by rewrite filter_app. Qed.

Lemma events_of_all (id : string) (evs : list event) :
  Forall (fun e => event_id e = id) evs -> events_of id evs = evs.
Proof.
  induction 1 as [|e evs He _ IH]; [done|]. unfold events_of in *.
  rewrite filter_cons, IH. by rewrite decide_True by (rewrite He; apply String.eqb_refl).
Qed.

Lemma events_of_none (id id' : string) (evs : list event) :
  Forall (fun e => event_id e = id') evs -> id <> id' -> events_of id evs = [].
Proof.
  intros Hall Hne. induction Hall as [|e evs He _ IH]; [done|]. unfold events_of in *.
  rewrite filter_cons, IH. rewrite decide_False; [done|].
  rewrite He. by intros ?%String.eqb_eq.
Qed.

Lemma filter_events_of (P : event -> bool) (id : string) (evs : list event) :
  (forall e, P e = true -> String.eqb id (event_id e) = true) ->
  filter (fun e => P e = true) (events_of id evs) = filter (fun e => P e = true) evs.
Proof.
  intros HP. unfold events_of. induction evs as [|e evs IH]; [done|].
  rewrite !filter_cons. destruct (decide (P e = true)) as [He|He].
  - rewrite decide_True by (by apply HP). rewrite filter_cons, decide_True by done.
    by rewrite IH.
  - destruct (decide (String.eqb id (event_id e) = true)); [|done].
    by rewrite filter_cons, decide_False.
Qed.

Lemma attempts_events_of (id : string) (evs : list event) :
  attempts id (events_of id evs) = attempts id evs.
Proof.
  unfold attempts. rewrite (filter_events_of (is_call id)); [done|]. by intros [].
Qed.

Lemma on_error_calls_events_of (id : string) (evs : list event) :
  on_error_calls id (events_of id evs) = on_error_calls id evs.
Proof.
  unfold on_error_calls. rewrite (filter_events_of (is_error_callback id)); [done|].
  by intros [].
Qed.

Lemma on_success_calls_events_of (id : string) (evs : list event) :
  on_success_calls id (events_of id evs) = on_success_calls id evs.
Proof.
  unfold on_success_calls. rewrite (filter_events_of (is_callback id)); [done|].
  by intros [].
Qed.

Lemma calls_and_sleeps_events_of (id : string) (evs : list event) :
  calls_and_sleeps id (events_of id evs) = calls_and_sleeps id evs.
Proof.
  unfold calls_and_sleeps.
  rewrite (filter_events_of (fun e => is_call id e || is_sleep id e)); [done|].
  intros []; cbn; try done; by rewrite ?orb_false_r.
Qed.

(** *** One worker, step by step *)

Lemma worker_steps_app (a b : nat) : forall w s,
  worker_steps (a + b) w s =
  let '(w1, s1, evs1) := worker_steps a w s in
  let '(w2, s2, evs2) := worker_steps b w1 s1 in (w2, s2, evs1 ++ evs2).
Proof.
  induction a as [|a IH]; intros w s; cbn [worker_steps Nat.add].
  - by destruct (worker_steps b w s) as [[w2 s2] evs2].
  - destruct (worker_step w s) as [[w1 s1] evs1]. rewrite IH.
    destruct (worker_steps a w1 s1) as [[w2 s2] evs2].
    destruct (worker_steps b w2 s2) as [[w3 s3] evs3]. by rewrite app_assoc.
Qed.

Lemma worker_steps_S (n : nat) (w : worker) (s : TaskQueue) :
  worker_steps (S n) w s =
  let '(w1, s1, evs1) := worker_step w s in
  let '(w2, s2, evs2) := worker_steps n w1 s1 in (w2, s2, evs1 ++ evs2).
Proof. done. Qed.

(** The first two steps of a turn: the test of [running] and the [get]. *)
Lemma test_and_get (n : nat) (s : TaskQueue) (x : Task) (q : list Task) :
  running s = true -> queue_get (queue s) = Some (x, q) ->
  worker_steps (S (S n)) AtLoop s = worker_steps n (Holding x) (set_queue q s).
Proof.
  intros Hrun Hget. rewrite worker_steps_S. cbn [worker_step]. rewrite Hrun.
  rewrite worker_steps_S. cbn [worker_step]. unfold worker_get. rewrite Hget.
  by destruct (worker_steps n (Holding x) (set_queue q s)) as [[w2 s2] evs2].
Qed.

(** The state in which a worker leaves the queue after having taken the
    task [x] off it, [q] being the rest of the queue. *)
Lemma after_turn (s : TaskQueue) (x : Task) (q : list Task) :
  let s1 := match (_execute_task x q).1 with
            | Result r x' q' => store x' r (set_queue q' s)
            | _ => set_queue q s
            end in
  running s1 = running s /\
  (queue s1 = q \/
   ((retry_count x <? max_retries x)%Z = true /\
    queue s1 = queue_put q (bump_retry_count x))) /\
  (forall id, id <> task_id x ->
     completed_tasks s1 !! id = completed_tasks s !! id /\
     pending_tasks s1 !! id = pending_tasks s !! id).
Proof.
  pose proof (execute_task_queue x q) as Hq. pose proof (execute_task_id x q) as Hid.
  destruct (_execute_task x q).1 as [r x' q'| | |]; cbn; try (split; [done|]; split; [by left|done]).
  split; [done|]. split.
  - destruct Hq as [[_ ->]|(Hlt & _ & ->)]; [by left|by right].
  - intros id Hne. rewrite Hid.
    by rewrite lookup_insert_ne, lookup_delete_ne by done.
Qed.

Lemma budget_bump (task : Task) :
  (retry_count task <? max_retries task)%Z = true ->
  S (budget (bump_retry_count task)) = budget task.
Proof. rewrite Z.ltb_lt. unfold budget. cbn. lia. Qed.

(** One turn of the loop of a worker that comes back from the task: the
    test of [running], the [get], [_execute_task], and, when that returns a
    result, the storing and the callback. *)
Lemma turn (s : TaskQueue) (x : Task) (q : list Task) :
  running s = true -> queue_get (queue s) = Some (x, q) -> comes_back x = true ->
  exists n0 s1, n0 <= 5 /\
    worker_steps n0 AtLoop s = (AtLoop, s1, attempt_events x) /\
    s1 = match (_execute_task x q).1 with
         | Result r x' q' => store x' r (set_queue q' s)
         | _ => set_queue q s
         end /\
    running s1 = true /\
    (queue s1 = q \/
     ((retry_count x <? max_retries x)%Z = true /\
      queue s1 = queue_put q (bump_retry_count x))) /\
    backlog (queue s1) < backlog (queue s) /\
    (forall id, id <> task_id x ->
       completed_tasks s1 !! id = completed_tasks s !! id /\
       pending_tasks s1 !! id = pending_tasks s !! id).
Proof.
  intros Hrun Hget Hback.
  pose proof (after_turn s x q) as (Hrun1 & Hq1 & Hframe).
  assert (backlog (queue match (_execute_task x q).1 with
                         | Result r x' q' => store x' r (set_queue q' s)
                         | _ => set_queue q s
                         end) < backlog (queue s)) as Hless.
  { apply heappop_Some in Hget as [_ Hperm]. unfold backlog. rewrite Hperm.
    cbn [sum_list_with]. assert (0 < budget x) by (unfold budget; lia).
    destruct Hq1 as [->|[Hlt ->]]; [lia|].
    unfold queue_put. rewrite heappush_perm. cbn [sum_list_with].
    apply budget_bump in Hlt. lia. }
  unfold comes_back, attempt_events in *.
  pose proof (execute_task_on x q) as Hon.
  destruct (_execute_task x []) as [[r x' q0|e x'| |] evs0]; try done.
  - destruct Hon as [q' Hq']. exists 5. eexists. split; [lia|].
    split; [|split; [reflexivity|by rewrite Hrun1]].
    rewrite (test_and_get _ _ _ _ Hrun Hget). rewrite !worker_steps_S.
    cbn [worker_step worker_steps queue set_queue]. rewrite Hq'.
    cbn [worker_step fst snd].
    destruct (call_back x' r) as [o cevs]. cbn in *. rewrite ?app_nil_r.
    by destruct o.
  - exists 3. eexists. split; [lia|].
    split; [|split; [reflexivity|by rewrite Hrun1]].
    rewrite (test_and_get _ _ _ _ Hrun Hget). rewrite !worker_steps_S.
    cbn [worker_step worker_steps queue set_queue]. rewrite Hon. cbn.
    by rewrite app_nil_r.
Qed.

(** Steps of a worker that has nothing to do with the task [uuid]: it
    does not have the task in its hands, and the task is not in the queue. *)
Lemma foreign_step (uuid : string) (w : worker) (s : TaskQueue) :
  (forall t, in_hands w = Some t -> task_id t <> uuid) ->
  (forall t, t ∈ queue s -> task_id t <> uuid) ->
  (forall t, in_hands (worker_step w s).1.1 = Some t -> task_id t <> uuid) /\
  (forall t, t ∈ queue (worker_step w s).1.2 -> task_id t <> uuid) /\
  events_of uuid (worker_step w s).2 = [] /\
  completed_tasks (worker_step w s).1.2 !! uuid = completed_tasks s !! uuid /\
  pending_tasks (worker_step w s).1.2 !! uuid = pending_tasks s !! uuid.
Proof.
  intros Hw Hq. destruct w as [| |task|task r|task r| |]; cbn [worker_step].
  - by destruct (running s).
  - unfold worker_get. destruct (queue_get (queue s)) as [[task q]|] eqn:Hget; [|done].
    apply heappop_Some in Hget as [_ Hperm]. cbn. repeat split; try done.
    + intros t [= <-]. apply Hq. rewrite Hperm. apply list_elem_of_here.
    + intros t Ht. apply Hq. rewrite Hperm. by apply list_elem_of_further.
  - specialize (Hw task eq_refl).
    pose proof (execute_task_queue task (queue s)) as Hqq.
    pose proof (execute_task_id task (queue s)) as Hid.
    pose proof (execute_task_event_ids task (queue s)) as Hev.
    assert (events_of uuid (_execute_task task (queue s)).2 = []) as Hnone
      by (eapply events_of_none; [exact Hev|done]).
    destruct (_execute_task task (queue s)) as [[r task' q'| | |] evs]; cbn in *; try done.
    repeat split; try done.
    + intros t [= <-]. congruence.
    + intros t Ht. destruct Hqq as [[_ ->]|(_ & _ & ->)]; [by apply Hq|].
      unfold queue_put in Ht. rewrite heappush_perm in Ht.
      apply elem_of_cons in Ht as [->|Ht]; [done|by apply Hq].
  - specialize (Hw task eq_refl). cbn. repeat split; try done.
    + intros t [= <-]. done.
    + rewrite decide_False; [done|]. by intros ->%String.eqb_eq.
    + by rewrite lookup_insert_ne.
    + by rewrite lookup_delete_ne.
  - specialize (Hw task eq_refl).
    pose proof (call_back_event_ids task r) as Hev.
    destruct (call_back task r) as [o evs]. cbn in *. repeat split; try done.
    + by destruct o.
    + by eapply events_of_none.
  - done.
  - done.
Qed.

Lemma foreign_steps (uuid : string) (n : nat) : forall w s,
  (forall t, in_hands w = Some t -> task_id t <> uuid) ->
  (forall t, t ∈ queue s -> task_id t <> uuid) ->
  events_of uuid (worker_steps n w s).2 = [] /\
  completed_tasks (worker_steps n w s).1.2 !! uuid = completed_tasks s !! uuid /\
  pending_tasks (worker_steps n w s).1.2 !! uuid = pending_tasks s !! uuid.
Proof.
  induction n as [|n IH]; intros w s Hw Hq; [done|]. cbn [worker_steps].
  destruct (foreign_step uuid w s Hw Hq) as (Hw1 & Hq1 & Hev1 & Hc1 & Hp1).
  destruct (worker_step w s) as [[w1 s1] evs1]. cbn [fst snd] in *.
  destruct (IH w1 s1 Hw1 Hq1) as (Hev2 & Hc2 & Hp2).
  destruct (worker_steps n w1 s1) as [[w2 s2] evs2]. cbn [fst snd] in *.
  rewrite events_of_app, Hev1, Hev2. split; [done|]. split; congruence.
Qed.

Lemma set_retry_count_same (x : Task) : set_retry_count (retry_count x) x = x.
Proof. by destruct x. Qed.

Lemma tame_comes_back (x : Task) : tame x -> comes_back x = true.
Proof. intros H. rewrite <- (set_retry_count_same x). apply H. lia. Qed.

Lemma tame_bump (x : Task) : tame x -> tame (bump_retry_count x).
Proof. intros H k Hk. apply (H k). cbn in Hk. lia. Qed.

(** A running worker that comes back from every task it takes gets to
    every task in the queue: it takes the task off the queue within five
    steps for every call that the tasks in the queue have in store. *)
Lemma reach (B : nat) : forall s task,
  running s = true -> task ∈ queue s ->
  (forall t, t ∈ queue s -> t = task \/ tame t) ->
  backlog (queue s) <= B ->
  exists n s1 evs, n <= 5 * B /\ worker_steps n AtLoop s = (Holding task, s1, evs).
Proof.
  induction B as [|B IH]; intros s task Hrun Hin Htame HB.
  { exfalso. pose proof (sum_list_with_in _ budget _ Hin) as Hb.
    assert (0 < budget task) by (unfold budget; lia). unfold backlog in HB. lia. }
  destruct (queue_get (queue s)) as [[x q]|] eqn:Hget.
  2:{ apply heappop_None in Hget. rewrite Hget in Hin. by apply elem_of_nil in Hin. }
  pose proof Hget as Hpop. apply heappop_Some in Hpop as [_ Hperm].
  assert (x = task \/ (tame x /\ task ∈ q)) as [->|[Hx Hq]].
  { rewrite Hperm in Hin. apply elem_of_cons in Hin as [->|Hin]; [by left|].
    destruct (Htame x) as [->|Hx]; [rewrite Hperm; apply list_elem_of_here|by left|].
    by right. }
  { exists 2, (set_queue q s), []. split; [lia|].
    by rewrite (test_and_get 0 _ _ _ Hrun Hget). }
  destruct (turn s x q Hrun Hget (tame_comes_back x Hx))
    as (n0 & s1 & Hn0 & Hsteps & _ & Hrun1 & Hq1 & Hless & _).
  assert (forall t, t ∈ queue s1 -> t ∈ q \/ t = bump_retry_count x) as Hs1.
  { intros t Ht. destruct Hq1 as [Heq|[_ Heq]]; rewrite Heq in Ht; [by left|].
    unfold queue_put in Ht. rewrite heappush_perm in Ht.
    apply elem_of_cons in Ht as [->|Ht]; [by right|by left]. }
  destruct (IH s1 task) as (n & s2 & evs & Hn & Hreach); [done| | |lia|].
  { destruct Hq1 as [->|[_ ->]]; [done|].
    unfold queue_put. rewrite heappush_perm. by apply list_elem_of_further. }
  { intros t [Ht| ->]%Hs1.
    - apply Htame. rewrite Hperm. by apply list_elem_of_further.
    - right. by apply tame_bump. }
  exists (n0 + n), s2, (attempt_events x ++ evs). split; [lia|].
  by rewrite worker_steps_app, Hsteps, Hreach.
Qed.

(** *** What [pending_tasks] does not decide *)

Lemma worker_step_pending (w : worker) (a b : TaskQueue) :
  max_workers a = max_workers b -> queue a = queue b -> running a = running b ->
  completed_tasks a = completed_tasks b ->
  (worker_step w a).1.1 = (worker_step w b).1.1 /\
  (worker_step w a).2 = (worker_step w b).2 /\
  max_workers (worker_step w a).1.2 = max_workers (worker_step w b).1.2 /\
  queue (worker_step w a).1.2 = queue (worker_step w b).1.2 /\
  running (worker_step w a).1.2 = running (worker_step w b).1.2 /\
  completed_tasks (worker_step w a).1.2 = completed_tasks (worker_step w b).1.2.
Proof.
  intros Hm Hq Hr Hc. destruct w as [| |task|task r|task r| |]; cbn [worker_step]; try done.
  - by rewrite Hr.
  - unfold worker_get. rewrite Hq. by destruct (queue_get (queue b)) as [[task q]|].
  - rewrite Hq. by destruct (_execute_task task (queue b)) as [[r task' q'| | |] evs].
  - cbn. by rewrite Hc.
  - by destruct (call_back task r) as [[| |] evs].
Qed.

Lemma run_op_pending (o : op) (a b : system) :
  same_but_pending a b -> same_but_pending (run_op o a) (run_op o b).
Proof.
  unfold same_but_pending. intros (Hm & Hq & Hr & Hc & Ht & He).
  destruct o; cbn [run_op].
  - rewrite Hr. destruct (running (tq b)) eqn:Hrb; [repeat split; congruence|].
    unfold start. rewrite Hr, Hrb. cbn. repeat split; congruence.
  - unfold stop. rewrite Hr.
    destruct (running (tq b)) eqn:Hrb; cbn; repeat split; congruence.
  - cbn. repeat split; congruence.
  - rewrite Ht. destruct (threads b !! k) as [w|]; [|repeat split; congruence].
    pose proof (worker_step_pending w (tq a) (tq b) Hm Hq Hr Hc) as (Hw & Hev & ? & ? & ? & ?).
    destruct (worker_step w (tq a)) as [[wa sa] evsa].
    destruct (worker_step w (tq b)) as [[wb sb] evsb]. cbn in *.
    repeat split; congruence.
  - unfold cancel_task.
    destruct (pending_tasks (tq a) !! id), (pending_tasks (tq b) !! id);
      cbn; repeat split; congruence.
  - cbn. repeat split; congruence.
Qed.

Lemma run_ops_pending (ops : list op) : forall a b,
  same_but_pending a b -> same_but_pending (run_ops ops a) (run_ops ops b).
Proof.
  induction ops as [|o ops IH]; intros a b Hab; [done|].
  apply IH. by apply run_op_pending.
Qed.

(** *** Results stored and callbacks called

    [kind] is a kind of result and [is_cb] the call of the callback that is
    called for a result of this kind. *)
Section callbacks.
Context (kind : Task -> TaskResult -> bool) (is_cb : event -> bool).
Hypothesis call_back_kind : forall task r,
  length (filter (fun e => is_cb e = true) (call_back task r).2) =
  if kind task r then 1 else 0.
Hypothesis is_cb_callback : forall e,
  is_cb e = true ->
  match e with EvCallback _ _ _ | EvErrorCallback _ _ _ => True | _ => False end.









End callbacks.



(** *** The events of one attempt *)

Lemma raises_attempt (t : Task) :
  raises (func t (retry_count t)) = true -> raises (attempt t).1 = true.
Proof.
  unfold attempt, _execute_with_timeout, call.
  destruct (timeout_set t) as [to|]; [|done].
  destruct (negb (fits_PyTime to)); [done|].
  destruct (func t (retry_count t)) as [v el|e el|el|]; try done.
  intros _. by destruct (Qlt_bool to el).
Qed.

Lemma attempt_untimed (t : Task) : timeout_set t = None -> attempt t = call t.
Proof. unfold attempt. by intros ->. Qed.

Lemma attempt_events_success (task : Task) (v : pyval) (el : Q) :
  (attempt task).1 = Returns v el ->
  attempt_events task =
    [EvCall (task_id task) (retry_count task);
     EvStore task (mkTaskResult (task_id task) true v None el (retry_count task))] ++
    match callback task with
    | Some c => [EvCallback (task_id task) v (c v)]
    | None => []
    end.
Proof.
  intros Hatt. pose proof (execute_task_cases task []) as H. cbn zeta in H.
  rewrite Hatt in H. unfold attempt_events. rewrite H. unfold call_back. cbn.
  by destruct (callback task).
Qed.

Lemma attempt_events_failure (task : Task) (e : exn) (el : Q) :
  (attempt task).1 = Raises e el -> (max_retries task <= retry_count task)%Z ->
  attempt_events task =
    [EvCall (task_id task) (retry_count task);
     EvStore task (mkTaskResult (task_id task) false PyNone (Some e) el (retry_count task))]
    ++ error_called_back (task_id task) (error_callback task) e.
Proof.
  intros Hatt Hle. pose proof (execute_task_cases task []) as H. cbn zeta in H.
  rewrite Hatt, (proj2 (Z.ltb_ge _ _) Hle) in H. unfold attempt_events. rewrite H.
  unfold call_back, error_called_back. cbn. by destruct (error_callback task).
Qed.

Lemma attempt_events_retry (task : Task) (e : exn) (el delay : Q) :
  (attempt task).1 = Raises e el -> (retry_count task < max_retries task)%Z ->
  backoff_delay (bump_retry_count task) = inr delay -> time_sleep delay = None ->
  attempt_events task =
    [EvCall (task_id task) (retry_count task); EvSleep (task_id task) delay;
     EvStore (bump_retry_count task)
       (mkTaskResult (task_id task) false PyNone (Some e) el (retry_count task + 1))]
    ++ error_called_back (task_id task) (error_callback task) e.
Proof.
  intros Hatt Hlt Hdelay Hsleep. pose proof (execute_task_cases task []) as H.
  cbn zeta in H. rewrite Hatt, (proj2 (Z.ltb_lt _ _) Hlt), Hdelay, Hsleep in H.
  unfold attempt_events. rewrite H.
  unfold call_back, error_called_back. cbn. by destruct (error_callback task).
Qed.

Lemma attempt_events_lost (task : Task) (e : exn) (el : Q) :
  (attempt task).1 = Raises e el -> (retry_count task < max_retries task)%Z ->
  (forall delay, backoff_delay (bump_retry_count task) = inr delay ->
     time_sleep delay <> None) ->
  attempt_events task = [EvCall (task_id task) (retry_count task)].
Proof.
  intros Hatt Hlt Hbad. pose proof (execute_task_cases task []) as H.
  cbn zeta in H. rewrite Hatt, (proj2 (Z.ltb_lt _ _) Hlt) in H.
  unfold attempt_events.
  destruct (backoff_delay (bump_retry_count task)) as [e'|delay]; [by rewrite H|].
  destruct (time_sleep delay) eqn:Hs; [by rewrite H|]. by destruct (Hbad delay).
Qed.

(** *** Counting in a trace *)

Lemma filter_cons_bool {A} (P : A -> bool) (x : A) (l : list A) :
  filter (fun x => P x = true) (x :: l) =
  if P x then x :: filter (fun x => P x = true) l else filter (fun x => P x = true) l.
Proof.
  rewrite filter_cons. destruct (P x) eqn:E.
  - by rewrite decide_True.
  - by rewrite decide_False.
Qed.

Lemma attempts_app id (e1 e2 : list event) :
  attempts id (e1 ++ e2) = attempts id e1 + attempts id e2.
Proof. unfold attempts. by rewrite filter_app, length_app. Qed.
Lemma on_error_calls_app id (e1 e2 : list event) :
  on_error_calls id (e1 ++ e2) = on_error_calls id e1 + on_error_calls id e2.
Proof. unfold on_error_calls. by rewrite filter_app, length_app. Qed.
Lemma on_success_calls_app id (e1 e2 : list event) :
  on_success_calls id (e1 ++ e2) = on_success_calls id e1 + on_success_calls id e2.
Proof. unfold on_success_calls. by rewrite filter_app, length_app. Qed.
Lemma calls_and_sleeps_app id (e1 e2 : list event) :
  calls_and_sleeps id (e1 ++ e2) = calls_and_sleeps id e1 ++ calls_and_sleeps id e2.
Proof. unfold calls_and_sleeps. by rewrite filter_app. Qed.

Lemma count_error_called_back (id : string) ecb (e : exn) :
  attempts id (error_called_back id ecb e) = 0 /\
  on_error_calls id (error_called_back id ecb e) = (if ecb is Some _ then 1 else 0) /\
  on_success_calls id (error_called_back id ecb e) = 0 /\
  calls_and_sleeps id (error_called_back id ecb e) = [].
Proof.
  unfold error_called_back, attempts, on_error_calls, on_success_calls, calls_and_sleeps.
  destruct ecb; [|done]. rewrite !filter_cons_bool. cbn. by rewrite String.eqb_refl.
Qed.

(** Every attempt is one call of the work; what the worker does for it
    besides calling and sleeping is no call and no sleep. *)
Lemma count_attempt_events (task : Task) :
  attempts (task_id task) (attempt_events task) = 1 /\
  calls_and_sleeps (task_id task) (attempt_events task) = (_execute_task task []).2.
Proof.
  unfold attempt_events.
  assert (forall r t', attempts (task_id task) ([EvStore t' r] ++ (call_back t' r).2) = 0 /\
                       calls_and_sleeps (task_id task) ([EvStore t' r] ++ (call_back t' r).2)
                       = []) as Hrest.
  { intros r t'. cbn [app].
    unfold attempts, calls_and_sleeps, call_back. rewrite !filter_cons_bool. cbn.
    destruct (success r).
    - destruct (callback t'); [|done]. cbn [snd]. by rewrite !filter_cons_bool.
    - destruct (error_callback t'); [|done]. cbn [snd]. by rewrite !filter_cons_bool. }
  pose proof (execute_task_cases task []) as H. cbn zeta in H.
  assert (attempts (task_id task) [EvCall (task_id task) (retry_count task)] = 1 /\
          calls_and_sleeps (task_id task) [EvCall (task_id task) (retry_count task)] =
            [EvCall (task_id task) (retry_count task)]) as [Hc1 Hc2].
  { unfold attempts, calls_and_sleeps. rewrite !filter_cons_bool. cbn.
    by rewrite String.eqb_refl. }
  assert (forall delay,
            attempts (task_id task) [EvSleep (task_id task) delay] = 0 /\
            calls_and_sleeps (task_id task) [EvSleep (task_id task) delay] =
              [EvSleep (task_id task) delay]) as Hsl.
  { intros delay. unfold attempts, calls_and_sleeps. rewrite !filter_cons_bool. cbn.
    by rewrite String.eqb_refl. }
  destruct (attempt task).1 as [v el|e el|el|]; try (by rewrite H).
  - rewrite H. rewrite attempts_app, calls_and_sleeps_app.
    destruct (Hrest (mkTaskResult (task_id task) true v None el (retry_count task)) task)
      as [-> ->].
    by rewrite Hc1, Hc2, app_nil_r.
  - destruct (retry_count task <? max_retries task)%Z.
    + destruct (backoff_delay (bump_retry_count task)) as [e'|delay]; [by rewrite H|].
      destruct (time_sleep delay); [by rewrite H|]. rewrite H.
      rewrite !attempts_app, !calls_and_sleeps_app.
      destruct (Hrest (mkTaskResult (task_id task) false PyNone (Some e) el
                         (retry_count task + 1)) (bump_retry_count task)) as [Hr1 Hr2].
      destruct (Hsl delay) as [Hs1 Hs2].
      rewrite attempts_app in Hr1. rewrite calls_and_sleeps_app in Hr2.
      cbn [fst snd]. rewrite Hc1, Hc2, Hs1, Hs2, Hr2, app_nil_r. split; [lia|done].
    + rewrite H. rewrite attempts_app, calls_and_sleeps_app.
      destruct (Hrest (mkTaskResult (task_id task) false PyNone (Some e) el (retry_count task))
                  task) as [-> ->].
      by rewrite Hc1, Hc2, app_nil_r.
Qed.

(** A worker whose queue is empty goes round its loop and does nothing. *)
Lemma idle (n : nat) : forall w s,
  queue s = [] -> w = AtLoop \/ w = InGet \/ w = Exited ->
  (worker_steps n w s).1.2 = s /\ (worker_steps n w s).2 = [].
Proof.
  induction n as [|n IH]; intros w s Hq Hw; [done|]. rewrite worker_steps_S.
  destruct Hw as [->|[->| ->]]; cbn [worker_step].
  - destruct (running s);
      [destruct (IH InGet s) as [H1 H2]|destruct (IH Exited s) as [H1 H2]]; auto;
      match goal with |- context [worker_steps n ?w s] =>
        destruct (worker_steps n w s) as [[w2 s2] evs2] end; cbn in *; by subst.
  - unfold worker_get. rewrite Hq. cbn.
    destruct (IH AtLoop s) as [H1 H2]; auto.
    destruct (worker_steps n AtLoop s) as [[w2 s2] evs2]; cbn in *; by subst.
  - destruct (IH Exited s) as [H1 H2]; auto.
    destruct (worker_steps n Exited s) as [[w2 s2] evs2]; cbn in *; by subst.
Qed.

(** *** The life of one task among others

    The task, submitted as [uuid], is in the queue at its [j]-th retry; the
    other tasks in the queue are tasks of other ids from which a worker
    comes back.  Attempt [k] is the last one: [_execute_task] puts the task
    back into the queue after the attempts before it, and not after it. *)
Section single_task.
Context (uuid : string) (now : Q) (f : Z -> work_outcome) (p : TaskPriority)
  (m : Z) (d : Q) (to : option Q) (cb : option (pyval -> callback_outcome))
  (ecb : option (option exn -> callback_outcome)).

Local Abbreviation task := (task_at uuid now f p m d to cb ecb).

Lemma bump_task (j : nat) : bump_retry_count (task j) = task (S j).
Proof. unfold bump_retry_count, task_at. cbn. f_equal. lia. Qed.

Lemma life (k : nat) : forall B j s others n,
  j <= k -> running s = true -> queue s ≡ₚ task j :: others ->
  Forall (fun t => task_id t <> uuid /\ tame t) others ->
  (forall i q, j <= i < k -> exists r evs,
      _execute_task (task i) q = (Result r (task (S i)) (queue_put q (task (S i))), evs)) ->
  (forall q, exists r evs, _execute_task (task k) q = (Result r (task k) q, evs)) ->
  (forall i, j <= i <= k -> comes_back (task i) = true) ->
  backlog (queue s) <= B -> 5 * B <= n ->
  exists r evsk,
    _execute_task (task k) [] = (Result r (task k) [], evsk) /\
    events_of uuid (worker_steps n AtLoop s).2 =
      flat_map (fun i => attempt_events (task i)) (seq j (S k - j)) /\
    completed_tasks (worker_steps n AtLoop s).1.2 !! uuid = Some r /\
    pending_tasks (worker_steps n AtLoop s).1.2 !! uuid = None.
Proof.
  induction B as [|B IH];
    intros j s others n Hjk Hrun Hperm Hothers Hretry Hfinal Hback HB Hn.
  { exfalso. unfold backlog in HB. rewrite Hperm in HB. cbn [sum_list_with] in HB.
    assert (0 < budget (task j)) by (unfold budget; lia). lia. }
  destruct (queue_get (queue s)) as [[x q]|] eqn:Hget.
  2:{ apply heappop_None in Hget. rewrite Hget in Hperm.
      by apply Permutation_nil_cons in Hperm. }
  pose proof Hget as Hpop. apply heappop_Some in Hpop as [_ Hpq].
  assert (x ∈ task j :: others) as Hx by (rewrite <- Hperm, Hpq; apply list_elem_of_here).
  assert (comes_back x = true) as Hxback.
  { apply elem_of_cons in Hx as [->|Hx]; [apply Hback; lia|].
    apply tame_comes_back. by apply (proj1 (Forall_forall _ _) Hothers x Hx). }
  destruct (turn s x q Hrun Hget Hxback)
    as (n0 & s1 & Hn0 & Hsteps & Hs1 & Hrun1 & Hq1 & Hless & Hframe).
  replace n with (n0 + (n - n0)) by lia. rewrite worker_steps_app, Hsteps.
  apply elem_of_cons in Hx as [->|Hx].
  - (* the worker has taken the task *)
    assert (q ≡ₚ others) as Hqo
      by (apply (Permutation_cons_inv (a := task j)); by rewrite <- Hpq).
    assert (events_of uuid (attempt_events (task j)) = attempt_events (task j)) as Hev
      by (apply events_of_all, (attempt_event_ids (task j))).
    destruct (decide (j = k)) as [->|Hne].
    + destruct (Hfinal q) as (r & evs & Heq). rewrite Heq in Hs1. cbn in Hs1.
      destruct (Hfinal []) as (r0 & evs0 & Heq0).
      assert (r0 = r) as ->.
      { pose proof (execute_task_on (task k) q) as Hon. rewrite Heq0 in Hon.
        destruct Hon as [q' Hon]. rewrite Heq in Hon. by injection Hon as -> _ _. }
      destruct (foreign_steps uuid (n - n0) AtLoop s1) as (Hev2 & Hc2 & Hp2); [done| |].
      { intros t Ht. rewrite Hs1 in Ht. cbn in Ht. rewrite Hqo in Ht.
        by apply (proj1 (Forall_forall _ _) Hothers t Ht). }
      destruct (worker_steps (n - n0) AtLoop s1) as [[w2 s2] evs2]. cbn [fst snd] in *.
      exists r, evs0. split; [done|]. rewrite events_of_app, Hev, Hev2, Hc2, Hp2.
      replace (S k - k) with 1 by lia. cbn [seq flat_map]. rewrite Hs1. cbn.
      split; [done|]. split; [apply lookup_insert_eq|apply lookup_delete_eq].
    + destruct (Hretry j q) as (r & evs & Heq); [lia|]. rewrite Heq in Hs1. cbn in Hs1.
      destruct (IH (S j) s1 others (n - n0)) as (r1 & evsk & Hk & Hev1 & Hc1 & Hp1);
        [lia|done| |done|intros; apply Hretry; lia|done|intros; apply Hback; lia|lia|lia|].
      { rewrite Hs1. cbn. unfold queue_put. by rewrite heappush_perm, Hqo. }
      destruct (worker_steps (n - n0) AtLoop s1) as [[w2 s2] evs2]. cbn [fst snd] in *.
      exists r1, evsk. split; [done|]. rewrite events_of_app, Hev, Hev1.
      replace (S k - j) with (S (S k - S j)) by lia. by cbn [seq flat_map].
  - (* the worker has taken another task *)
    destruct (proj1 (Forall_forall _ _) Hothers x Hx) as [Hid Htame].
    apply elem_of_Permutation in Hx as [others' Ho].
    assert (q ≡ₚ task j :: others') as Hq.
    { apply (Permutation_cons_inv (a := x)). rewrite <- Hpq, Hperm, Ho. apply perm_swap. }
    assert (Forall (fun t => task_id t <> uuid /\ tame t) others') as Ho'.
    { apply Forall_forall. intros t Ht. apply (proj1 (Forall_forall _ _) Hothers).
      rewrite Ho. by apply list_elem_of_further. }
    assert (exists others1, queue s1 ≡ₚ task j :: others1 /\
              Forall (fun t => task_id t <> uuid /\ tame t) others1) as (others1 & Hq1' & Ho1).
    { destruct Hq1 as [->|[_ ->]]; [by exists others'|].
      exists (bump_retry_count x :: others'). split.
      - unfold queue_put. rewrite heappush_perm, Hq. apply perm_swap.
      - constructor; [|done]. split; [done|by apply tame_bump]. }
    destruct (IH j s1 others1 (n - n0)) as (r1 & evsk & Hk & Hev1 & Hc1 & Hp1);
      [done|done|done|done|done|done|done|lia|lia|].
    destruct (worker_steps (n - n0) AtLoop s1) as [[w2 s2] evs2]. cbn [fst snd] in *.
    exists r1, evsk. split; [done|]. rewrite events_of_app, Hev1.
    rewrite (events_of_none uuid (task_id x)); [done|apply attempt_event_ids|done].
Qed.

End single_task.

End task_queue_facts.

(* ===================================================================== *)
(** * Part III: the properties of the scheduler and of the registry       *)
(* ===================================================================== *)

Section scheduler.
Import heapq task_queue heapq_facts task_queue_facts.

(** C1, as the specification states it, fails: four tasks of one priority
    submitted within one reading of the clock leave the queue in the order
    A, C, B, D, so that C, submitted after B, is extracted before it. *)
Lemma fifo_tie_break_fails : ~ fifo_among_equal_priority same_clock_submissions.
Proof.
  intros H.
  destruct (H 1 2 "B" "C" NORMAL 5%Q 5%Q) as (m & n & Hmn & Hm & Hn);
    [lia|reflexivity|reflexivity|].
  change (["A"; "C"; "B"; "D"] !! m = Some "B") in Hm.
  change (["A"; "C"; "B"; "D"] !! n = Some "C") in Hn.
  destruct m as [|[|[|[|m]]]]; try discriminate Hm.
  destruct n as [|[|[|[|n]]]]; try discriminate Hn. lia.
Qed.

(** C1, amended: the tie-break component of the ordering key is the
    wall-clock reading [created_at], not a sequence counter.  In every queue
    that submissions, cancellations and workers can bring about, of two
    queued tasks of equal priority the one with the strictly smaller
    [created_at] is extracted first: a worker that takes a task off the
    queue does not take the later one, which stays queued. *)
Theorem tie_break_is_created_at (ops : list op) (w i j : nat) (a b task : Task)
    (s' : TaskQueue) :
  queue (tq (run_ops ops (boot w))) !! i = Some a ->
  queue (tq (run_ops ops (boot w))) !! j = Some b ->
  priority a = priority b ->
  (created_at a < created_at b)%Q ->
  worker_get (tq (run_ops ops (boot w))) = Some (task, s') ->
  task <> b /\ b ∈ queue s'.
Proof.
  intros Ha Hb Hprio Htime. unfold worker_get.
  destruct (queue_get (queue (tq (run_ops ops (boot w))))) as [[t q']|] eqn:Hget; [|done].
  intros [= -> <-]. cbn [queue set_queue].
  assert (Task_lt a b = true) as Hlt by (apply Task_lt_spec; right; by rewrite Hprio).
  assert (task <> b) as Hne.
  { intros ->. rewrite (queue_get_min _ _ _ (reachable_ordered ops w) Hget a) in Hlt; [done|].
    by eapply list_elem_of_lookup_2. }
  split; [done|].
  apply heappop_Some in Hget as [_ Hperm].
  apply list_elem_of_lookup_2 in Hb. rewrite Hperm in Hb.
  apply elem_of_cons in Hb as [->|Hb]; done.
Qed.

Lemma tie_break_is_created_at_witness :
  exists task s',
    worker_get (tq (run_ops [submit_plain "late" NORMAL 7; submit_plain "early" NORMAL 5;
                             OpStart] (boot 1))) = Some (task, s') /\
    task <> plain_task "late" NORMAL 7 /\ plain_task "late" NORMAL 7 ∈ queue s'.
Proof.
  eexists _, _. split; [reflexivity|].
  eapply (tie_break_is_created_at
            [submit_plain "late" NORMAL 7; submit_plain "early" NORMAL 5; OpStart]
            1 0 1 (plain_task "early" NORMAL 5));
    [reflexivity|reflexivity|reflexivity|reflexivity|reflexivity].
Defined.

(** A helper for the runs below: a worker that is back at its loop after
    three steps and has left the queue empty stays as it is. *)
Lemma settled (s s' : TaskQueue) (evs : list event) (n : nat) :
  worker_steps 3 AtLoop s = (AtLoop, s', evs) -> queue s' = [] -> 3 <= n ->
  (_worker n s).1.2 = s' /\ (_worker n s).2 = evs.
Proof.
  intros Hthree Hq Hn. unfold _worker. replace n with (3 + (n - 3)) by lia.
  rewrite worker_steps_app, Hthree.
  destruct (idle (n - 3) AtLoop s' Hq) as [H1 H2]; [by left|].
  destruct (worker_steps (n - 3) AtLoop s') as [[w2 s2] evs2]. cbn in *.
  subst. by rewrite app_nil_r.
Qed.

Lemma execute_task_calls (task : Task) (q : list Task) :
  EvCall (task_id task) (retry_count task) ∈ (_execute_task task q).2.
Proof.
  pose proof (execute_task_cases task q) as H. cbn zeta in H.
  destruct (attempt task).1 as [v el|e el|el|]; try (rewrite H; apply list_elem_of_here).
  destruct (retry_count task <? max_retries task)%Z; [|rewrite H; apply list_elem_of_here].
  destruct (backoff_delay (bump_retry_count task)) as [e'|delay];
    [rewrite H; apply list_elem_of_here|].
  destruct (time_sleep delay); rewrite H; apply list_elem_of_here.
Qed.








(** C10, as the specification states it, fails in its last sentence: a
    task that is in the queue when it is cancelled is still taken off the
    queue and its work is called, but a result need not be stored for it.
    The task "t" of this queue is cancelled, with success, while it is
    queued; the worker calls its work, which raises; the backoff of the
    retry is refused by [time.sleep], and no result is ever stored. *)
Lemma a_cancelled_task_may_leave_no_result :
  (cancel_task "t" (failing_queue (-1))).1 = true /\
  EvCall "t" 0 ∈ (_worker 3 (cancel_task "t" (failing_queue (-1))).2).2 /\
  forall n, completed_tasks (_worker n (cancel_task "t" (failing_queue (-1))).2).1.2 !! "t"
            = None.
Proof.
  split; [reflexivity|]. split; [apply list_elem_of_here|]. intros n.
  destruct (decide (n < 3)) as [Hn|Hn].
  - destruct n as [|[|[|n]]]; [by vm_compute|by vm_compute|by vm_compute|lia].
  - edestruct (settled (cancel_task "t" (failing_queue (-1))).2) as [-> _];
      [reflexivity|reflexivity|lia|]. by vm_compute.
Qed.

(** C10, amended: [cancel_task] writes to the map of pending tasks only;
    the queue, the map of results and the [running] flag are as before.
    Nothing that callers and workers do afterwards, in whatever order,
    tells the cancelled queue from the one that was not cancelled, but for
    [pending_tasks].  So a task that is in the queue when it is cancelled
    is still taken off the queue by a running worker that comes back from
    the tasks it takes before, and its work is called; the result that
    [_execute_task] returns for it, if it returns one, is stored under its
    id. *)
Theorem cancel_task_leaves_the_queue_alone (id : string) (s : TaskQueue) :
  queue (cancel_task id s).2 = queue s /\
  completed_tasks (cancel_task id s).2 = completed_tasks s /\
  running (cancel_task id s).2 = running s /\
  pending_tasks (cancel_task id s).2 = delete id (pending_tasks s) /\
  (forall ops ths evs,
     same_but_pending (run_ops ops (mkSystem s ths evs))
       (run_ops ops (mkSystem (cancel_task id s).2 ths evs))) /\
  (forall task,
     running s = true -> task ∈ queue s -> task_id task = id ->
     (forall t, t ∈ queue s -> t = task \/ tame t) ->
     exists n s1 evs,
       _worker n (cancel_task id s).2 = (Holding task, s1, evs) /\
       EvCall id (retry_count task) ∈ (worker_step (Holding task) s1).2 /\
       (forall r task' q' evs',
          _execute_task task (queue s1) = (Result r task' q', evs') ->
          _worker (n + 2) (cancel_task id s).2 =
            (CallingBack task' r, store task' r (set_queue q' s1),
             evs ++ evs' ++ [EvStore task' r]) /\
          completed_tasks (store task' r (set_queue q' s1)) !! id = Some r) /\
       (forall v el,
          timeout_set task = None -> func task (retry_count task) = Returns v el ->
          completed_tasks (_worker (n + 2) (cancel_task id s).2).1.2 !! id =
            Some (mkTaskResult id true v None el (retry_count task)))).
Proof.
  assert (queue (cancel_task id s).2 = queue s /\
          completed_tasks (cancel_task id s).2 = completed_tasks s /\
          running (cancel_task id s).2 = running s /\
          max_workers (cancel_task id s).2 = max_workers s /\
          pending_tasks (cancel_task id s).2 = delete id (pending_tasks s))
    as (Hq & Hc & Hr & Hm & Hp).
  { unfold cancel_task. destruct (pending_tasks s !! id) eqn:Hid; cbn; [done|].
    by rewrite delete_id. }
  repeat (split; [done|]). split.
  - intros ops ths evs. apply run_ops_pending. by repeat split.
  - intros task Hrun Hin <- Htame.
    destruct (reach (backlog (queue s)) (cancel_task (task_id task) s).2 task)
      as (n & s1 & evs & _ & Hreach); [congruence|by rewrite Hq|by rewrite Hq|by rewrite Hq|].
    exists n, s1, evs. split; [done|]. split.
    { cbn [worker_step]. pose proof (execute_task_calls task (queue s1)) as Hcall.
      by destruct (_execute_task task (queue s1)) as [[r task' q'| | |] evs']. }
    assert (forall r task' q' evs',
              _execute_task task (queue s1) = (Result r task' q', evs') ->
              _worker (n + 2) (cancel_task (task_id task) s).2 =
                (CallingBack task' r, store task' r (set_queue q' s1),
                 evs ++ evs' ++ [EvStore task' r]) /\
              completed_tasks (store task' r (set_queue q' s1)) !! task_id task = Some r)
      as Hstored.
    { intros r task' q' evs' Hx. unfold _worker in *.
      rewrite worker_steps_app, Hreach. rewrite !worker_steps_S.
      cbn [worker_step worker_steps]. rewrite Hx. cbn [worker_step fst snd].
      rewrite app_nil_r. split; [done|].
      pose proof (execute_task_id task (queue s1)) as Hid. rewrite Hx in Hid. cbn in Hid.
      cbn. rewrite <- Hid. apply lookup_insert_eq. }
    split; [exact Hstored|].
    intros v el Hto Hf.
    pose proof (execute_task_cases task (queue s1)) as Hx. cbn zeta in Hx.
    rewrite (attempt_untimed _ Hto) in Hx. unfold call in Hx. cbn [fst] in Hx.
    rewrite Hf in Hx. destruct (Hstored _ _ _ _ Hx) as [-> Hdone]. exact Hdone.
Qed.

Lemma cancel_task_leaves_the_queue_alone_witness :
  exists n s1 evs,
    _worker n (cancel_task "t" one_retry_queue).2 =
      (Holding (task_at "t" 0 always_raises NORMAL 1 1 None None
                  (Some (fun _ => CallbackReturns)) 0), s1, evs) /\
    EvCall "t" 0 ∈
      (worker_step (Holding (task_at "t" 0 always_raises NORMAL 1 1 None None
                               (Some (fun _ => CallbackReturns)) 0)) s1).2 /\
    completed_tasks (_worker (n + 2) (cancel_task "t" one_retry_queue).2).1.2 !! "t" =
      Some (mkTaskResult "t" false PyNone (Some (WorkError "boom")) 0 1).
Proof.
  destruct (cancel_task_leaves_the_queue_alone "t" one_retry_queue)
    as (_ & _ & _ & _ & _ & H).
  destruct (H (task_at "t" 0 always_raises NORMAL 1 1 None None
                 (Some (fun _ => CallbackReturns)) 0))
    as (n & s1 & evs & Hreach & Hcall & Hstored & _).
  - reflexivity.
  - apply list_elem_of_here.
  - reflexivity.
  - intros t Ht. left. by apply list_elem_of_singleton in Ht.
  - exists n, s1, evs. split; [exact Hreach|]. split; [exact Hcall|].
    destruct (Hstored (mkTaskResult "t" false PyNone (Some (WorkError "boom")) 0 1)
                (task_at "t" 0 always_raises NORMAL 1 1 None None
                   (Some (fun _ => CallbackReturns)) 1)
                (queue_put (queue s1)
                   (task_at "t" 0 always_raises NORMAL 1 1 None None
                      (Some (fun _ => CallbackReturns)) 1))
                [EvCall "t" 0; EvSleep "t" (1 * 2 ^ 0)%Q]) as [-> Hc];
      [reflexivity|exact Hc].
Defined.

(** C9, on the code: a task that a worker has taken off the queue and is
    executing is still in [pending_tasks], and [cancel_task] returns [True]
    for it, where the specification and the docstring of [cancel_task] say
    that only a task that has not started can be cancelled.  It still does
    so when the work has been called and has returned, as long as the
    worker has not stored the result. *)
Theorem cancel_task_succeeds_for_a_task_in_flight :
  let sys := run_ops [OpStart; submit_plain "t" NORMAL 0; OpStep 0; OpStep 0] (boot 1) in
  map task_id (in_flight sys) = ["t"] /\
  queue (tq sys) = [] /\
  (cancel_task "t" (tq sys)).1 = true /\
  trace (run_op (OpStep 0) sys) = [EvCall "t" 0] /\
  (cancel_task "t" (tq (run_op (OpStep 0) sys))).1 = true.
Proof. repeat split; reflexivity. Qed.

(** [cancel_task] answers whether the id was in [pending_tasks]. *)
Lemma cancel_task_result (id : string) (s : TaskQueue) :
  (cancel_task id s).1 = bool_decide (is_Some (pending_tasks s !! id)).
Proof.
  unfold cancel_task. by destruct (pending_tasks s !! id).
Qed.

(** C2, on the code: with the default [timeout=None] and no result stored
    under the id, [get_result] does not return, however often it polls. *)
Theorem get_result_without_timeout_polls_forever (fuel : nat) (elapsed_at : nat -> Q)
    (id : string) :
  get_result fuel (fun _ => ∅) elapsed_at id None = StillPolling.
Proof.
  unfold get_result. generalize 0.
  induction fuel as [|fuel IH]; intros k; [done|].
  cbn [get_result_loop]. rewrite lookup_empty. apply IH.
Qed.

(** What [get_result] does right: a stored result is returned at the first
    poll, and with a timeout the first poll at which the timeout has
    elapsed returns [None]. *)
Lemma get_result_present (fuel : nat) completed_at elapsed_at id timeout r :
  completed_at 0 !! id = Some r ->
  get_result (S fuel) completed_at elapsed_at id timeout = Returned (Some r).
Proof. intros H. unfold get_result. cbn. by rewrite H. Qed.

Lemma get_result_timed_out (fuel : nat) completed_at (elapsed_at : nat -> Q) id t :
  completed_at 0 !! id = None -> (t <= elapsed_at 0%nat)%Q ->
  get_result (S fuel) completed_at elapsed_at id (Some t) = Returned None.
Proof.
  intros H Ht. unfold get_result. cbn. rewrite H.
  by rewrite (proj2 (Qle_bool_iff _ _) Ht).
Qed.

End scheduler.

Section registry.
Import plugin_loader.

(** *** Dicts *)

Lemma dict_get_set {V} (k k' : string) (v : V) (d : list (string * V)) :
  dict_get k (dict_set k' v d) = if String.eqb k k' then Some v else dict_get k d.
Proof.
  induction d as [|[k0 v0] d IH]; cbn.
  - by destruct (String.eqb k k').
  - destruct (String.eqb_spec k' k0) as [->|Hne]; cbn.
    + by destruct (String.eqb k k0).
    + rewrite IH. destruct (String.eqb_spec k k0) as [->|]; [|done].
      by rewrite (proj2 (String.eqb_neq k0 k')).
Qed.

Lemma dict_get_del {V} (k k' : string) (d : list (string * V)) :
  dict_get k (dict_del k' d) = if String.eqb k k' then None else dict_get k d.
Proof.
  induction d as [|[k0 v0] d IH]; cbn.
  - by destruct (String.eqb k k').
  - destruct (String.eqb_spec k' k0) as [->|Hne]; cbn.
    + rewrite IH. destruct (String.eqb k k0); done.
    + rewrite IH. destruct (String.eqb_spec k k0) as [->|]; [|done].
      by rewrite (proj2 (String.eqb_neq k0 k')).
Qed.

Lemma dict_set_new {V} (k : string) (v : V) (d : list (string * V)) :
  dict_get k d = None -> dict_set k v d = d ++ [(k, v)].
Proof.
  induction d as [|[k0 v0] d IH]; cbn; [done|].
  destruct (String.eqb k k0); [done|]. intros H. by rewrite IH.
Qed.

Lemma dict_in_set {V} (k k' : string) (v : V) (d : list (string * V)) :
  dict_in k (dict_set k' v d) = String.eqb k k' || dict_in k d.
Proof. unfold dict_in. rewrite dict_get_set. by destruct (String.eqb k k'). Qed.

Lemma check_dependencies_spec (deps : list string) (s : PluginLoader) :
  _check_dependencies deps s = true <->
  forall dep, dep ∈ deps -> dict_in dep (plugins s) = true.
Proof.
  induction deps as [|dep deps IH]; cbn.
  - split; [|done]. intros _ dep Hdep. by apply elem_of_nil in Hdep.
  - destruct (dict_in dep (plugins s)) eqn:Hdep; cbn.
    + rewrite IH. split.
      * intros H dep' [->|Hin]%elem_of_cons; [done|by apply H].
      * intros H dep' Hin. apply H. apply elem_of_cons. by right.
    + split; [done|]. intros H. rewrite <- Hdep. apply H. apply elem_of_cons. by left.
Qed.

(** *** Manifests *)

(** C6, on the code: a manifest with the five required keys and without
    [capabilities] passes the check of the required fields and is then
    refused by the constructor of the dataclass, so that discovery skips the
    plugin, where the specification has it accepted with no capabilities. *)
Theorem manifest_without_capabilities_is_refused :
  _load_manifest manifest_without_capabilities = RaisesTypeError "capabilities" /\
  discover_plugins [("plugins/p", Some manifest_without_capabilities)] (init []) =
    ([], init []).
Proof. split; reflexivity. Qed.

Lemma as_str_list_items_strs (l : list string) : as_str_list_items (JStr <$> l) = Some l.
Proof. induction l as [|x l IH]; cbn; [done|]. by rewrite IH. Qed.

(** The other optional keys do default: with [capabilities] given and
    [dependencies], [config_schema] and [enabled] left out, the manifest is
    accepted with the empty list, the empty dict and [True]. *)
Lemma optional_keys_default (n v d a c : string) (caps : list string) :
  _load_manifest [("name", JStr n); ("version", JStr v); ("description", JStr d);
                  ("author", JStr a); ("plugin_class", JStr c);
                  ("capabilities", JList (JStr <$> caps))] =
  ManifestOk (mkPluginManifest n v d a c caps [] [] true).
Proof.
  unfold _load_manifest, PluginManifest_init, field. cbn.
  by rewrite as_str_list_items_strs.
Qed.

(** *** Capabilities *)

(** C4, as the specification states it, fails: the plugin "p" is loaded and
    enabled and its manifest lists the capability "cap", but its class does
    not override [get_capabilities], and it is not among the providers. *)
Lemma manifest_capability_is_not_looked_at :
  let s := loader_with_p import_plain in
  (exists plugin, dict_get "p" (plugins s) = Some plugin /\ p_enabled plugin = true) /\
  (exists manifest, dict_get "p" (manifests s) = Some manifest /\
                    "cap" ∈ capabilities manifest) /\
  get_plugins_by_capability "cap" s = [].
Proof.
  split; [eexists; split; reflexivity|].
  split; [|reflexivity].
  eexists. split; [reflexivity|]. cbn. set_solver.
Qed.

Lemma capability_loop_filter (capability : string) (items : list (string * BasePlugin)) :
  forall matching,
  capability_loop capability items matching =
  matching ++
  (snd <$> filter (fun item => p_enabled item.2 = true /\
                               capability ∈ get_capabilities (cls item.2)) items).
Proof.
  induction items as [|[plugin_name plugin] items IH]; intros matching.
  { cbn. by rewrite app_nil_r. }
  rewrite filter_cons. cbn [capability_loop].
  destruct (p_enabled plugin) eqn:Hen; cbn [negb].
  - case_bool_decide as Hcap.
    + rewrite decide_True by (by cbn). rewrite IH. cbn. by rewrite <- app_assoc.
    + rewrite decide_False by (cbn; intros [_ ?]; done). apply IH.
  - rewrite decide_False by (cbn; intros [? _]; congruence). apply IH.
Qed.

(** C4, amended: the providers of a capability are, in the order of the
    dict of loaded plugins, exactly the loaded instances that are enabled
    and whose own [get_capabilities()] contains the capability; the manifest
    is not consulted.  The dict is in load order: loading a plugin leaves it
    as it is or appends the new instance. *)
Theorem providers_are_picked_by_get_capabilities (capability : string)
    (import_class : string -> string -> option PluginClass) (plugin_name : string)
    (config : option (list (string * json))) (s : PluginLoader) :
  get_plugins_by_capability capability s =
    (snd <$> filter (fun item => p_enabled item.2 = true /\
                                 capability ∈ get_capabilities (cls item.2))
               (plugins s)) /\
  (plugins (load_plugin import_class plugin_name config s).1.2 = plugins s \/
   exists plugin,
     plugins (load_plugin import_class plugin_name config s).1.2 =
       plugins s ++ [(plugin_name, plugin)]).
Proof.
  split; [apply (capability_loop_filter capability (plugins s) [])|].
  unfold load_plugin.
  destruct (dict_in plugin_name (plugins s)) eqn:Hin; [by left|].
  destruct (dict_get plugin_name (manifests s)); [|by left].
  destruct (dict_get plugin_name (plugin_paths s)); [|by left].
  destruct (negb _); [by left|].
  destruct (import_class _ _) as [c|]; [|by left].
  destruct (construct c); [|by left].
  destruct (initialize c) as [[|]|]; [|by left|by left].
  right. eexists. cbn. apply dict_set_new.
  unfold dict_in in Hin. by destruct (dict_get plugin_name (plugins s)).
Qed.

(** *** Unloading *)

(** C5, as the specification states it, fails: a loaded plugin whose
    [shutdown] raises is still loaded after [unload_plugin], which returns
    [False] although the name was active. *)
Lemma unload_keeps_a_plugin_whose_shutdown_raises :
  let s := loader_with_p import_failing_shutdown in
  dict_in "p" (plugins s) = true /\
  unload_plugin "p" s = (false, s, [EvShutdown "p"]).
Proof. split; reflexivity. Qed.

(** C5, amended: for a loaded plugin, [unload_plugin] calls the [shutdown]
    hook of the instance and never propagates what the hook raises.  When
    the hook returns, the instance is removed from the loaded plugins, the
    others stay, and the call returns [True]; when the hook raises, the call
    returns [False] and the instance stays loaded.  For a name that is not
    loaded the call returns [False] and does nothing. *)
Theorem unload_removes_when_shutdown_returns (plugin_name : string) (s : PluginLoader) :
  match dict_get plugin_name (plugins s) with
  | None => unload_plugin plugin_name s = (false, s, [])
  | Some plugin =>
      (unload_plugin plugin_name s).2 = [EvShutdown plugin_name] /\
      match shutdown (cls plugin) with
      | HookReturns _ =>
          (unload_plugin plugin_name s).1.1 = true /\
          dict_in plugin_name (plugins (unload_plugin plugin_name s).1.2) = false /\
          forall other, other <> plugin_name ->
            dict_get other (plugins (unload_plugin plugin_name s).1.2) =
            dict_get other (plugins s)
      | HookRaises => (unload_plugin plugin_name s).1 = (false, s)
      end
  end.
Proof.
  unfold unload_plugin.
  destruct (dict_get plugin_name (plugins s)) as [plugin|]; [|done].
  destruct (shutdown (cls plugin)); [|done]. cbn.
  split; [done|]. split; [done|]. split.
  - unfold dict_in. by rewrite dict_get_del, String.eqb_refl.
  - intros other Hne. rewrite dict_get_del.
    by rewrite (proj2 (String.eqb_neq other plugin_name)).
Qed.

(** *** Loading and dependencies *)

(** C8, as the specification states it, fails: "B" depends on "A" and "A"
    is not loaded, but "B" is, and [load_plugin] returns [True] for "B"
    without looking at its dependencies. *)
Lemma load_of_a_loaded_plugin_skips_the_dependencies :
  let s := loader_with_B_only in
  (exists manifest, dict_get "B" (manifests s) = Some manifest /\
                    "A" ∈ dependencies manifest) /\
  dict_in "A" (plugins s) = false /\
  load_plugin import_plain "B" None s = (AlreadyLoaded, s, []) /\
  returned AlreadyLoaded = Some true.
Proof.
  split; [|repeat split; reflexivity].
  eexists. split; [reflexivity|]. cbn. set_solver.
Qed.

Lemma load_plugin_Loaded import_class plugin_name config (s s' : PluginLoader) evs :
  load_plugin import_class plugin_name config s = (Loaded, s', evs) ->
  exists plugin, s' = set_plugins (dict_set plugin_name plugin (plugins s)) s.
Proof.
  unfold load_plugin.
  destruct (dict_in plugin_name (plugins s)); [done|].
  destruct (dict_get plugin_name (manifests s)); [|done].
  destruct (dict_get plugin_name (plugin_paths s)); [|done].
  destruct (negb _); [done|].
  destruct (import_class _ _) as [c|]; [|done].
  destruct (construct c); [|done].
  destruct (initialize c) as [[|]|]; [|done|done].
  intros [= <- _]. by eexists.
Qed.

(** C8, amended: for a discovered plugin B that is not loaded itself and
    whose manifest lists the dependency A, [load_plugin] fails on the
    missing dependency, and leaves the loaded plugins as they are, when A is
    not loaded at the time of the call.  Once A has been loaded, loading B
    succeeds, provided that the other dependencies of B are loaded and that
    the class of B is imported, constructed and initialized without
    failure.  (For a B that is loaded already the call is a no-op that
    returns [True], whatever has become of its dependencies.) *)
Theorem load_checks_dependencies_at_call_time
    (import_class : string -> string -> option PluginClass) (A B : string)
    (config_A config_B : option (list (string * json))) (s : PluginLoader)
    (manifest : PluginManifest) (plugin_path : string) :
  dict_get B (manifests s) = Some manifest ->
  dict_get B (plugin_paths s) = Some plugin_path ->
  A ∈ dependencies manifest ->
  dict_in B (plugins s) = false ->
  dict_in A (plugins s) = false ->
  load_plugin import_class B config_B s = (MissingDependency, s, []) /\
  forall s_A evs c,
    load_plugin import_class A config_A s = (Loaded, s_A, evs) ->
    (forall dep, dep ∈ dependencies manifest -> dep <> A ->
       dict_in dep (plugins s) = true) ->
    import_class plugin_path (plugin_class manifest) = Some c ->
    construct c = HookReturns () -> initialize c = HookReturns true ->
    (load_plugin import_class B config_B s_A).1.1 = Loaded /\
    dict_in A (plugins (load_plugin import_class B config_B s_A).1.2) = true /\
    dict_in B (plugins (load_plugin import_class B config_B s_A).1.2) = true.
Proof.
  intros Hm Hpath HA HB HnA.
  assert (_check_dependencies (dependencies manifest) s = false) as Hcheck.
  { apply not_true_iff_false. rewrite check_dependencies_spec.
    intros H. specialize (H A HA). congruence. }
  assert (forall config, load_plugin import_class B config s = (MissingDependency, s, []))
    as Hfail.
  { intros config. unfold load_plugin. by rewrite HB, Hm, Hpath, Hcheck. }
  split; [apply Hfail|].
  intros s_A evs c HloadA Hdeps Himport Hconstruct Hinit.
  assert (B <> A) as Hne by (intros ->; rewrite Hfail in HloadA; discriminate).
  apply load_plugin_Loaded in HloadA as [plugin_A ->].
  assert (_check_dependencies (dependencies manifest)
            (set_plugins (dict_set A plugin_A (plugins s)) s) = true) as Hcheck'.
  { apply check_dependencies_spec. intros dep Hdep. cbn. rewrite dict_in_set.
    destruct (String.eqb_spec dep A) as [->|Hd]; [done|]. by apply Hdeps. }
  unfold load_plugin. cbn [plugins manifests plugin_paths set_plugins].
  rewrite dict_in_set, (proj2 (String.eqb_neq B A)) by done.
  rewrite HB, Hm, Hpath. cbn [orb].
  cbn [plugins manifests plugin_paths set_plugins] in Hcheck'. rewrite Hcheck'.
  cbn [negb]. rewrite Himport, Hconstruct, Hinit. cbn.
  split; [done|]. rewrite !dict_in_set, !String.eqb_refl.
  split; [|done]. by rewrite orb_true_r.
Qed.

Lemma load_checks_dependencies_at_call_time_witness :
  load_plugin import_plain "B" None loader_with_A_B =
    (MissingDependency, loader_with_A_B, []) /\
  (load_plugin import_plain "B" None
     (load_plugin import_plain "A" None loader_with_A_B).1.2).1.1 = Loaded.
Proof.
  destruct (load_checks_dependencies_at_call_time import_plain "A" "B" None None
              loader_with_A_B
              (mkPluginManifest "B" "1.0.0" "a plugin" "someone" "plugin.Plugin"
                 [] ["A"] [] true)
              "plugins/B") as [Hfail Hthen];
    [reflexivity|reflexivity|apply list_elem_of_here|reflexivity|reflexivity|].
  split; [exact Hfail|].
  eapply Hthen; [reflexivity| |reflexivity|reflexivity|reflexivity].
  intros dep Hdep Hne. apply list_elem_of_singleton in Hdep. congruence.
Defined.

End registry.

(* ===================================================================== *)
(** * Part IV: more of the scheduler                                      *)
(* ===================================================================== *)

(** Emptying a heap with [heappop] sorts it. *)
Module heapq_drain.
Import heapq heapq_facts.
Section drain.
Context {A : Type} (lt : A -> A -> bool).
Hypothesis lt_irrefl : forall x, lt x x = false.
Hypothesis lt_trans : forall x y z, lt x y = true -> lt y z = true -> lt x z = true.
Hypothesis lt_incomp : forall x y z, lt x y = false -> lt y z = false -> lt x z = false.

Lemma drain_perm (fuel : nat) : forall heap : list A,
  length heap <= fuel -> drain lt fuel heap ≡ₚ heap.
Proof.
  induction fuel as [|fuel IH]; intros heap Hlen.
  { destruct heap; [done|simpl in Hlen; lia]. }
  cbn [drain]. destruct (heappop lt heap) as [[x heap']|] eqn:Hpop.
  - apply heappop_Some in Hpop as [_ Hperm]. rewrite Hperm. apply perm_skip, IH.
    apply Permutation_length in Hperm. simpl in Hperm. lia.
  - apply heappop_None in Hpop. by subst.
Qed.

Lemma drain_subset (fuel : nat) : forall (heap : list A) y,
  y ∈ drain lt fuel heap -> y ∈ heap.
Proof.
  induction fuel as [|fuel IH]; intros heap y; cbn [drain].
  { by intros ?%elem_of_nil. }
  destruct (heappop lt heap) as [[x heap']|] eqn:Hpop; [|by intros ?%elem_of_nil].
  apply heappop_Some in Hpop as [_ Hperm]. rewrite Hperm.
  intros [->|Hy]%elem_of_cons; apply elem_of_cons; [by left|right; by apply IH].
Qed.

Lemma drain_sorted (fuel : nat) : forall heap : list A,
  heap_ordered lt heap ->
  StronglySorted (fun x y => lt y x = false) (drain lt fuel heap).
Proof.
  induction fuel as [|fuel IH]; intros heap Hord; cbn [drain]; [constructor|].
  destruct (heappop lt heap) as [[x heap']|] eqn:Hpop; [|constructor].
  constructor.
  - apply IH. by eapply (heappop_ordered lt lt_irrefl lt_trans lt_incomp).
  - apply Forall_forall. intros y Hy%drain_subset.
    eapply (heappop_min lt lt_irrefl lt_incomp); [done|done|].
    apply heappop_Some in Hpop as [_ Hperm]. rewrite Hperm. apply elem_of_cons. by right.
Qed.

End drain.
End heapq_drain.

Section scheduler_more.
Import heapq task_queue heapq_facts task_queue_facts.

(** Of two queued tasks, the one with the lower priority number is taken
    first: in every queue that callers and workers can bring about, a
    worker does not take a task while a more urgent one is queued. *)
Theorem lower_priority_number_goes_first (ops : list op) (w i j : nat)
    (a b task : Task) (s' : TaskQueue) :
  queue (tq (run_ops ops (boot w))) !! i = Some a ->
  queue (tq (run_ops ops (boot w))) !! j = Some b ->
  (priority_value (priority a) < priority_value (priority b))%Z ->
  worker_get (tq (run_ops ops (boot w))) = Some (task, s') ->
  task <> b /\ b ∈ queue s'.
Proof.
  intros Ha Hb Hprio. unfold worker_get.
  destruct (queue_get (queue (tq (run_ops ops (boot w))))) as [[t q']|] eqn:Hget; [|done].
  intros [= -> <-]. cbn [queue set_queue].
  assert (Task_lt a b = true) as Hlt by (apply Task_lt_spec; by left).
  assert (task <> b) as Hne.
  { intros ->. rewrite (queue_get_min _ _ _ (reachable_ordered ops w) Hget a) in Hlt; [done|].
    by eapply list_elem_of_lookup_2. }
  split; [done|].
  apply heappop_Some in Hget as [_ Hperm].
  apply list_elem_of_lookup_2 in Hb. rewrite Hperm in Hb.
  apply elem_of_cons in Hb as [->|Hb]; done.
Qed.

Lemma lower_priority_number_goes_first_witness :
  exists task s',
    worker_get (tq (run_ops [submit_plain "chore" BACKGROUND 1;
                             submit_plain "alarm" CRITICAL 9; OpStart] (boot 1)))
      = Some (task, s') /\
    task <> plain_task "chore" BACKGROUND 1 /\
    plain_task "chore" BACKGROUND 1 ∈ queue s'.
Proof.
  eexists _, _. split; [reflexivity|].
  eapply (lower_priority_number_goes_first
            [submit_plain "chore" BACKGROUND 1; submit_plain "alarm" CRITICAL 9; OpStart]
            1 0 1 (plain_task "alarm" CRITICAL 9));
    [reflexivity|reflexivity|reflexivity|reflexivity].
Defined.

(** One worker empties a queue in the order of the keys
    [(priority, created_at)]: whatever callers and workers have done
    before, the tasks come off the queue each exactly once, and none comes
    off before a task with a smaller key. *)
Theorem extraction_follows_the_keys (ops : list op) (w : nat) :
  heapq.drain Task_lt (length (queue (tq (run_ops ops (boot w)))))
    (queue (tq (run_ops ops (boot w))))
    ≡ₚ queue (tq (run_ops ops (boot w))) /\
  StronglySorted (fun x y => Task_lt y x = false)
    (heapq.drain Task_lt (length (queue (tq (run_ops ops (boot w)))))
       (queue (tq (run_ops ops (boot w))))).
Proof.
  split.
  - by apply heapq_drain.drain_perm.
  - apply heapq_drain.drain_sorted;
      [apply Task_lt_irrefl|apply Task_lt_trans|apply Task_lt_incomp|].
    apply reachable_ordered.
Qed.

(** [submit] returns the id it was given by [uuid4], registers the new task
    under it as pending, and adds the task to the queue without losing or
    doubling any task that is queued; results and the [running] flag are
    untouched.  It does so whether or not the workers run. *)
Theorem submit_registers_and_enqueues (uuid : string) (now : Q)
    (f : Z -> work_outcome) (p : TaskPriority) (m : Z) (d : Q) (to : option Q)
    (cb : option (pyval -> callback_outcome))
    (ecb : option (option exn -> callback_outcome)) (s : TaskQueue) :
  (submit uuid now f p m d to cb ecb s).1 = uuid /\
  queue (submit uuid now f p m d to cb ecb s).2
    ≡ₚ mkTask p now uuid f m 0 d to cb ecb :: queue s /\
  pending_tasks (submit uuid now f p m d to cb ecb s).2 !! uuid
    = Some (mkTask p now uuid f m 0 d to cb ecb) /\
  completed_tasks (submit uuid now f p m d to cb ecb s).2 = completed_tasks s /\
  running (submit uuid now f p m d to cb ecb s).2 = running s.
Proof.
  unfold submit. cbn. split; [done|]. split; [apply heappush_perm|].
  split; [apply lookup_insert_eq|done].
Qed.

(** A worker that finds the queue non-empty takes exactly one task off it:
    the tasks left are the tasks before without the one taken.  Taking a
    task changes neither the pending tasks nor the results, so a task in
    flight still counts as pending. *)
Theorem worker_get_takes_one_task (s s' : TaskQueue) (task : Task) :
  worker_get s = Some (task, s') ->
  queue s ≡ₚ task :: queue s' /\
  pending_tasks s' = pending_tasks s /\
  completed_tasks s' = completed_tasks s.
Proof.
  unfold worker_get. destruct (queue_get (queue s)) as [[t q]|] eqn:Hget; [|done].
  intros [= -> <-]. by apply heappop_Some in Hget as [_ Hperm].
Qed.

Lemma worker_get_takes_one_task_witness :
  exists task s',
    worker_get one_retry_queue = Some (task, s') /\
    queue one_retry_queue ≡ₚ task :: queue s' /\
    pending_tasks s' = pending_tasks one_retry_queue /\
    completed_tasks s' = completed_tasks one_retry_queue.
Proof.
  eexists _, _. split; [reflexivity|].
  apply worker_get_takes_one_task. reflexivity.
Defined.

(** *** One attempt *)

Lemma failed_attempt_retries (task : Task) (e : exn) (el delay : Q) (q : list Task) :
  (attempt task).1 = Raises e el -> (retry_count task < max_retries task)%Z ->
  backoff_delay (bump_retry_count task) = inr delay -> time_sleep delay = None ->
  _execute_task task q =
    (Result (mkTaskResult (task_id task) false PyNone (Some e) el (retry_count task + 1))
       (bump_retry_count task) (queue_put q (bump_retry_count task)),
     [EvCall (task_id task) (retry_count task); EvSleep (task_id task) delay]).
Proof.
  intros Hatt Hlt Hdelay Hsleep.
  pose proof (execute_task_cases task q) as H. cbn zeta in H.
  rewrite Hatt, (proj2 (Z.ltb_lt _ _) Hlt), Hdelay, Hsleep in H. exact H.
Qed.

Lemma failed_attempt_ends (task : Task) (e : exn) (el : Q) (q : list Task) :
  (attempt task).1 = Raises e el -> (max_retries task <= retry_count task)%Z ->
  _execute_task task q =
    (Result (mkTaskResult (task_id task) false PyNone (Some e) el (retry_count task))
       task q,
     [EvCall (task_id task) (retry_count task)]).
Proof.
  intros Hatt Hge.
  pose proof (execute_task_cases task q) as H. cbn zeta in H.
  rewrite Hatt, (proj2 (Z.ltb_ge _ _) Hge) in H. exact H.
Qed.

Lemma successful_attempt (task : Task) (v : pyval) (el : Q) (q : list Task) :
  (attempt task).1 = Returns v el ->
  _execute_task task q =
    (Result (mkTaskResult (task_id task) true v None el (retry_count task)) task q,
     [EvCall (task_id task) (retry_count task)]).
Proof.
  intros Hatt.
  pose proof (execute_task_cases task q) as H. cbn zeta in H.
  rewrite Hatt in H. exact H.
Qed.

(** The two steps of a worker that executes the task in its hands and
    stores the result. *)
Lemma execute_and_store (task : Task) (s : TaskQueue) (r : TaskResult) (task' : Task)
    (q' : list Task) (evs : list event) :
  _execute_task task (queue s) = (Result r task' q', evs) ->
  worker_steps 2 (Holding task) s =
    (CallingBack task' r, store task' r (set_queue q' s), evs ++ [EvStore task' r]).
Proof.
  intros Hx. rewrite !worker_steps_S. cbn [worker_step worker_steps]. rewrite Hx.
  cbn [worker_step fst snd]. done.
Qed.

Lemma gone (n : nat) (s : TaskQueue) : worker_steps n Gone s = (Gone, s, []).
Proof. induction n as [|n IH]; [done|]. rewrite worker_steps_S. cbn [worker_step]. by rewrite IH. Qed.

(** A failed attempt with retries left whose backoff [time.sleep] accepts
    puts the task back into the queue with its [retry_count] raised by
    one; the worker stores a failed result with that count and removes the
    id from the pending tasks.  From then on [cancel_task] returns [False]
    for the task although it will run again. *)
Theorem task_awaiting_retry_is_not_pending (task : Task) (s : TaskQueue)
    (e : exn) (el delay : Q) :
  (attempt task).1 = Raises e el ->
  (retry_count task < max_retries task)%Z ->
  backoff_delay (bump_retry_count task) = inr delay ->
  time_sleep delay = None ->
  queue (worker_steps 2 (Holding task) s).1.2 ≡ₚ bump_retry_count task :: queue s /\
  pending_tasks (worker_steps 2 (Holding task) s).1.2 !! task_id task = None /\
  completed_tasks (worker_steps 2 (Holding task) s).1.2 !! task_id task =
    Some (mkTaskResult (task_id task) false PyNone (Some e) el (retry_count task + 1)) /\
  (cancel_task (task_id task) (worker_steps 2 (Holding task) s).1.2).1 = false.
Proof.
  intros Hatt Hlt Hdelay Hsleep.
  rewrite (execute_and_store task s _ _ _ _
             (failed_attempt_retries task e el delay (queue s) Hatt Hlt Hdelay Hsleep)).
  cbn. split; [apply heappush_perm|]. split; [apply lookup_delete_eq|].
  split; [apply lookup_insert_eq|].
  unfold cancel_task. cbn. by rewrite lookup_delete_eq.
Qed.

Lemma task_awaiting_retry_is_not_pending_witness :
  pending_tasks (worker_steps 2 (Holding (task_at "t" 0 always_raises NORMAL 1 1 None None
                                            None 0)) one_retry_queue).1.2 !! "t" = None /\
  (cancel_task "t"
     (worker_steps 2 (Holding (task_at "t" 0 always_raises NORMAL 1 1 None None None 0))
        one_retry_queue).1.2).1 = false.
Proof.
  destruct (task_awaiting_retry_is_not_pending
              (task_at "t" 0 always_raises NORMAL 1 1 None None None 0)
              one_retry_queue (WorkError "boom") 0%Q (1 * 2 ^ 0)%Q) as (_ & Hp & _ & Hc);
    [reflexivity|reflexivity|reflexivity|reflexivity|].
  split; [exact Hp|exact Hc].
Defined.

(** A timeout of zero is no timeout: [if task.timeout:] is false for it, the
    work is called directly, once, and may take as long as it likes; what
    it returns or raises is the outcome of the attempt. *)
Theorem timeout_zero_is_no_timeout (task : Task) (t : Q) :
  timeout task = Some t -> (t == 0)%Q ->
  attempt task =
    (func task (retry_count task), [EvCall (task_id task) (retry_count task)]).
Proof.
  intros Ht Hz. unfold attempt, timeout_set. rewrite Ht.
  by rewrite (proj2 (Qeq_bool_iff _ _) Hz).
Qed.

Lemma timeout_zero_is_no_timeout_witness :
  attempt (mkTask NORMAL 0 "slow" (fun _ => Returns (PyStr "late") 10) 0 0 1
             (Some 0%Q) None None) = (Returns (PyStr "late") 10, [EvCall "slow" 0]).
Proof.
  apply (timeout_zero_is_no_timeout
           (mkTask NORMAL 0 "slow" (fun _ => Returns (PyStr "late") 10) 0 0 1
              (Some 0%Q) None None) 0); reflexivity.
Defined.

(** Work that is still running when the timeout of its task is over, a
    positive length that [Thread.join] accepts, ends the attempt with a
    [TimeoutError], whatever the work itself returns or raises later: when
    the task has no retry left, or the backoff of its retry is accepted by
    [time.sleep], the result stored for the attempt is a failure with that
    error, and the value the work would have returned is lost. *)
Theorem overrunning_work_times_out (task : Task) (t : Q) (s : TaskQueue) :
  timeout task = Some t -> (0 < t)%Q -> fits_PyTime t = true ->
  match func task (retry_count task) with
  | Returns _ el | Raises _ el | Exits el => (t < el)%Q
  | Hangs => True
  end ->
  ((retry_count task < max_retries task)%Z ->
   exists delay, backoff_delay (bump_retry_count task) = inr delay /\
                 time_sleep delay = None) ->
  exists r,
    completed_tasks (worker_steps 2 (Holding task) s).1.2 !! task_id task = Some r /\
    success r = false /\ error r = Some (TimeoutError t) /\ result r = PyNone.
Proof.
  intros Ht Hpos Hfits Hlong Hretry.
  assert (exists el, (attempt task).1 = Raises (TimeoutError t) el) as [tel Hatt].
  { unfold attempt, timeout_set. rewrite Ht.
    destruct (Qeq_bool t 0) eqn:Hz.
    { apply Qeq_bool_iff in Hz. apply Qlt_not_eq in Hpos. destruct Hpos. by symmetry. }
    unfold _execute_with_timeout, call. rewrite Hfits. cbn [negb].
    destruct (func task (retry_count task)) as [v el|e el|el|];
      [rewrite (proj2 (Qlt_bool_spec _ _) Hlong)..|]; by eexists. }
  destruct (decide (retry_count task < max_retries task)%Z) as [Hlt|Hge].
  - destruct (Hretry Hlt) as (delay & Hdelay & Hsleep).
    rewrite (execute_and_store task s _ _ _ _
               (failed_attempt_retries task _ _ delay (queue s) Hatt Hlt Hdelay Hsleep)).
    eexists. split; [apply lookup_insert_eq|done].
  - rewrite (execute_and_store task s _ _ _ _
               (failed_attempt_ends task _ _ (queue s) Hatt ltac:(lia))).
    eexists. split; [apply lookup_insert_eq|done].
Qed.

Lemma overrunning_work_times_out_witness :
  exists r, completed_tasks (worker_steps 2 (Holding slow_task) (init 1)).1.2 !! "slow"
              = Some r /\
            success r = false /\ error r = Some (TimeoutError (1 # 10)) /\
            result r = PyNone.
Proof.
  apply (overrunning_work_times_out slow_task (1 # 10) (init 1));
    [reflexivity|reflexivity|reflexivity|reflexivity|].
  intros H. exfalso. revert H. cbn. lia.
Defined.

(** Cancelling the same id a second time returns [False] and changes
    nothing. *)
Theorem cancel_task_twice (id : string) (s : TaskQueue) :
  cancel_task id (cancel_task id s).2 = (false, (cancel_task id s).2).
Proof.
  unfold cancel_task. destruct (pending_tasks s !! id) eqn:Hid; cbn.
  - by rewrite lookup_delete_eq.
  - by rewrite Hid.
Qed.

(** *** Waiting for a result *)

Lemma get_result_loop_deadline (fuel : nat) : forall completed_at (elapsed_at : nat -> Q)
    start id t k,
  start <= k -> k < start + fuel -> (t <= elapsed_at k)%Q ->
  exists j r, start <= j <= k /\
    get_result_loop fuel completed_at elapsed_at start id (Some t) = Returned r /\
    match r with
    | Some record => completed_at j !! id = Some record
    | None => completed_at j !! id = None /\ (t <= elapsed_at j)%Q
    end.
Proof.
  induction fuel as [|fuel IH]; intros completed_at elapsed_at start id t k Hs Hk Ht; [lia|].
  cbn [get_result_loop].
  destruct (completed_at start !! id) as [record|] eqn:Hrec.
  { exists start, (Some record). split; [lia|done]. }
  destruct (Qle_bool t (elapsed_at start)) eqn:Hle.
  { exists start, None. apply Qle_bool_iff in Hle. split; [lia|done]. }
  destruct (decide (start = k)) as [->|Hne].
  { apply Qle_bool_iff in Ht. congruence. }
  destruct (IH completed_at elapsed_at (S start) id t k) as (j & r & Hj & Hres & Hr);
    [lia|lia|done|].
  exists j, r. split; [lia|done].
Qed.

(** With a timeout, [get_result] returns: once the clock has reached the
    timeout at some poll, the call has returned by that poll, with the
    record that the completed map held at the poll at which it returned,
    or with [None] when the map held none and the timeout had elapsed. *)
Theorem get_result_returns_by_the_deadline (fuel k : nat)
    (completed_at : nat -> gmap string TaskResult) (elapsed_at : nat -> Q)
    (id : string) (t : Q) :
  k < fuel -> (t <= elapsed_at k)%Q ->
  exists j r, j <= k /\
    get_result fuel completed_at elapsed_at id (Some t) = Returned r /\
    match r with
    | Some record => completed_at j !! id = Some record
    | None => completed_at j !! id = None /\ (t <= elapsed_at j)%Q
    end.
Proof.
  intros Hk Ht.
  destruct (get_result_loop_deadline fuel completed_at elapsed_at 0 id t k)
    as (j & r & Hj & Hres & Hr); [lia|lia|done|].
  exists j, r. split; [lia|done].
Qed.

Lemma get_result_returns_by_the_deadline_witness :
  exists j r, j <= 3 /\
    get_result 10 (fun _ => ∅) (fun k => inject_Z (Z.of_nat k) / 10)%Q "t" (Some (3 # 10)%Q)
      = Returned r /\
    match r with
    | Some record => (∅ : gmap string TaskResult) !! "t" = Some record
    | None => (∅ : gmap string TaskResult) !! "t" = None /\
              ((3 # 10) <= inject_Z (Z.of_nat j) / 10)%Q
    end.
Proof.
  apply (get_result_returns_by_the_deadline 10 3 (fun _ => ∅)
           (fun k => inject_Z (Z.of_nat k) / 10)%Q "t" (3 # 10)%Q).
  - lia.
  - vm_compute. discriminate.
Defined.

Lemma get_result_loop_stored (fuel : nat) : forall completed_at (elapsed_at : nat -> Q)
    start id timeout k r,
  start <= k -> k < start + fuel ->
  (forall j, start <= j < k -> completed_at j !! id = None) ->
  (forall j t, start <= j < k -> timeout = Some t -> (elapsed_at j < t)%Q) ->
  completed_at k !! id = Some r ->
  get_result_loop fuel completed_at elapsed_at start id timeout = Returned (Some r).
Proof.
  induction fuel as [|fuel IH];
    intros completed_at elapsed_at start id timeout k r Hs Hk Hnone Hearly Hr; [lia|].
  cbn [get_result_loop].
  destruct (decide (start = k)) as [->|Hne]; [by rewrite Hr|].
  rewrite Hnone by lia.
  assert (get_result_loop fuel completed_at elapsed_at (S start) id timeout
          = Returned (Some r)) as Hrest.
  { apply (IH _ _ _ _ _ k); [lia|lia| | |done].
    - intros j Hj. apply Hnone. lia.
    - intros j t Hj. apply Hearly. lia. }
  destruct timeout as [t|]; [|done].
  destruct (Qle_bool t (elapsed_at start)) eqn:Hle; [|done].
  apply Qle_bool_iff in Hle. specialize (Hearly start t ltac:(lia) eq_refl).
  by apply Qlt_not_le in Hearly.
Qed.

(** [get_result] returns the record as soon as there is one: when the
    completed map gets a record under the id at poll [k], none before, and
    the timeout (if any) has not elapsed at an earlier poll, the call
    returns that record. *)
Theorem get_result_returns_the_record_once_stored (fuel k : nat)
    (completed_at : nat -> gmap string TaskResult) (elapsed_at : nat -> Q)
    (id : string) (timeout : option Q) (r : TaskResult) :
  k < fuel ->
  (forall j, j < k -> completed_at j !! id = None) ->
  (forall j t, j < k -> timeout = Some t -> (elapsed_at j < t)%Q) ->
  completed_at k !! id = Some r ->
  get_result fuel completed_at elapsed_at id timeout = Returned (Some r).
Proof.
  intros Hk Hnone Hearly Hr.
  apply (get_result_loop_stored fuel completed_at elapsed_at 0 id timeout k r);
    [lia|lia| | |done].
  - intros j Hj. apply Hnone. lia.
  - intros j t Hj. apply Hearly. lia.
Qed.

Lemma get_result_returns_the_record_once_stored_witness :
  get_result 5
    (fun k => if bool_decide (2 <= k)
              then {["t" := mkTaskResult "t" true (PyInt 1) None 0 0]} else ∅)
    (fun _ => 0%Q) "t" None
  = Returned (Some (mkTaskResult "t" true (PyInt 1) None 0 0)).
Proof.
  apply (get_result_returns_the_record_once_stored 5 2).
  - lia.
  - intros j Hj. destruct j as [|[|j]]; [reflexivity|reflexivity|lia].
  - intros j t _ Ht. discriminate Ht.
  - reflexivity.
Defined.

(** *** Statistics *)

Lemma completed_split (m : gmap string TaskResult) :
  size (filter (fun kv : string * TaskResult => success kv.2 = true) m) +
  size (filter (fun kv : string * TaskResult => success kv.2 = false) m) = size m.
Proof.
  rewrite <- (map_filter_union_complement
                (fun kv : string * TaskResult => success kv.2 = true) m) at 3.
  rewrite map_size_disj_union by apply map_disjoint_filter_complement.
  f_equal. f_equal. apply map_filter_ext. intros i x _. cbn.
  destruct (success x); naive_solver.
Qed.

(** The numbers of [get_stats] add up: [failed] is the number of stored
    results that are failures, [success] and [failed] together are
    [completed], and the success rate lies between 0 and 1, also for a
    queue without any result yet. *)
Theorem get_stats_adds_up (workers : nat) (s : TaskQueue) :
  st_failed (get_stats workers s) =
    Z.of_nat (size (filter (fun kv : string * TaskResult => success kv.2 = false)
                      (completed_tasks s))) /\
  (Z.of_nat (st_success (get_stats workers s)) + st_failed (get_stats workers s)
   = Z.of_nat (st_completed (get_stats workers s)))%Z /\
  (0 <= st_success_rate (get_stats workers s))%Q /\
  (st_success_rate (get_stats workers s) <= 1)%Q.
Proof.
  pose proof (completed_split (completed_tasks s)) as Hsplit.
  unfold get_stats. cbn.
  split; [lia|]. split; [lia|].
  case_bool_decide as Hpos; [|done].
  unfold Qle. cbn. split; [lia|].
  assert (Z.pos (Pos.of_nat (size (completed_tasks s)))
          = Z.of_nat (size (completed_tasks s))) as ->.
  { rewrite <- positive_nat_Z. f_equal. apply Nat2Pos.id. lia. }
  lia.
Qed.

(** *** Retries, for any number of them *)

Lemma flat_map_seq_ext {A} (g h : nat -> list A) (len : nat) : forall j,
  (forall i, j <= i < j + len -> g i = h i) ->
  flat_map g (seq j len) = flat_map h (seq j len).
Proof.
  induction len as [|len IH]; intros j H; [done|]. cbn [seq flat_map].
  rewrite (H j) by lia. f_equal. apply IH. intros i Hi. apply H. lia.
Qed.

(** The calls and the sleeps of a row of attempts of one task. *)
Lemma count_lives (uuid : string) (g : nat -> Task) (l : list nat) :
  (forall i, task_id (g i) = uuid) ->
  attempts uuid (flat_map (fun i => attempt_events (g i)) l) = length l /\
  calls_and_sleeps uuid (flat_map (fun i => attempt_events (g i)) l) =
    flat_map (fun i => (_execute_task (g i) []).2) l.
Proof.
  intros Hid. induction l as [|i l [IH1 IH2]]; [done|]. cbn [flat_map length].
  rewrite attempts_app, calls_and_sleeps_app, IH1, IH2.
  destruct (count_attempt_events (g i)) as [H1 H2]. rewrite Hid in H1, H2.
  by rewrite H1, H2.
Qed.

(** The backoff delay of the retry that follows the attempt made at
    [retry_count = i]. *)
Lemma backoff_at (uuid : string) (now : Q) (f : Z -> work_outcome) (p : TaskPriority)
    (m : Z) (d : Q) (to : option Q) (cb : option (pyval -> callback_outcome))
    (ecb : option (option exn -> callback_outcome)) (i : nat) :
  i < 1024 ->
  backoff_delay (bump_retry_count (task_at uuid now f p m d to cb ecb i)) =
    inr (d * 2 ^ Z.of_nat i)%Q.
Proof.
  intros Hi. unfold backoff_delay, bump_retry_count, task_at. cbn.
  replace (Z.of_nat i + 1 - 1)%Z with (Z.of_nat i) by lia.
  destruct (1024 <=? Z.of_nat i)%Z eqn:E; [|done]. apply Z.leb_le in E. lia.
Qed.

(** The failed attempts that are retried: attempt [i] of a task whose work
    raises, with retries left and a backoff that [time.sleep] accepts. *)
Lemma retried_attempt (uuid : string) (now : Q) (f : Z -> work_outcome)
    (p : TaskPriority) (m : Z) (d : Q) (to : option Q)
    (cb : option (pyval -> callback_outcome))
    (ecb : option (option exn -> callback_outcome)) (i : nat) (q : list Task) :
  raises (attempt (task_at uuid now f p m d to cb ecb i)).1 = true ->
  (Z.of_nat i < m)%Z -> i < 1024 -> time_sleep (d * 2 ^ Z.of_nat i)%Q = None ->
  exists r,
    _execute_task (task_at uuid now f p m d to cb ecb i) q =
      (Result r (task_at uuid now f p m d to cb ecb (S i))
         (queue_put q (task_at uuid now f p m d to cb ecb (S i))),
       [EvCall uuid (Z.of_nat i); EvSleep uuid (d * 2 ^ Z.of_nat i)%Q]) /\
    success r = false.
Proof.
  intros Hr Hlt Hi Hsleep.
  destruct (attempt (task_at uuid now f p m d to cb ecb i)).1 as [v el|e el|el|] eqn:Hatt;
    try done.
  eexists.
  rewrite (failed_attempt_retries _ e el (d * 2 ^ Z.of_nat i)%Q q Hatt Hlt
             (backoff_at uuid now f p m d to cb ecb i Hi) Hsleep).
  rewrite bump_task. split; reflexivity.
Qed.

(** A worker comes back from a failed result when the [error_callback]
    does not end the thread. *)
Lemma comes_back_from_failure (task task' : Task) (r : TaskResult) (evs : list event)
    (ecb : option (option exn -> callback_outcome)) :
  _execute_task task [] = (Result r task' [], evs) \/
  _execute_task task [] = (Result r task' (queue_put [] task'), evs) ->
  success r = false -> error_callback task' = ecb ->
  (forall c e, ecb = Some c -> c e <> CallbackExits) ->
  comes_back task = true.
Proof.
  intros Hx Hr Hcb Hecb. unfold comes_back.
  assert ((call_back task' r).1 <> CallbackExits) as Hne.
  { unfold call_back. rewrite Hr, Hcb. destruct ecb as [c|] eqn:E; [|done].
    by apply (Hecb c). }
  destruct Hx as [-> | ->]; by destruct (call_back task' r).1.
Qed.

(** Work that raises on every call is attempted [max_retries + 1] times
    (once when [max_retries] is zero or negative) when [time.sleep]
    accepts every backoff delay and [max_retries] is 1024 at most; the
    worker sleeps [retry_delay * 2^i] after the attempt made at
    [retry_count = i], for every attempt but the last; the result stored
    in the end is the failure of the last attempt, with [retry_count =
    max_retries].  This is so for one worker that serves the queue, the
    task being in the queue once, among tasks of other ids from which the
    worker comes back. *)
Theorem backoff_doubles_with_every_retry (s : TaskQueue) (others : list Task)
    (uuid : string) (now : Q) (f : Z -> work_outcome) (p : TaskPriority) (m : Z) (d : Q)
    (to : option Q) (cb : option (pyval -> callback_outcome))
    (ecb : option (option exn -> callback_outcome)) (n : nat) :
  running s = true ->
  queue s ≡ₚ task_at uuid now f p m d to cb ecb 0 :: others ->
  Forall (fun t => task_id t <> uuid /\ tame t) others ->
  (forall j, raises (f j) = true) ->
  (m <= 1024)%Z ->
  (forall i, i < Z.to_nat (Z.max m 0) -> time_sleep (d * 2 ^ Z.of_nat i)%Q = None) ->
  (forall c e, ecb = Some c -> c e <> CallbackExits) ->
  5 * backlog (queue s) <= n ->
  attempts uuid (_worker n s).2 = Z.to_nat (Z.max m 0) + 1 /\
  calls_and_sleeps uuid (_worker n s).2 =
    flat_map (fun i => [EvCall uuid (Z.of_nat i); EvSleep uuid (d * 2 ^ Z.of_nat i)%Q])
      (seq 0 (Z.to_nat (Z.max m 0)))
    ++ [EvCall uuid (Z.max m 0)] /\
  exists e el,
    (attempt (task_at uuid now f p m d to cb ecb (Z.to_nat (Z.max m 0)))).1 = Raises e el /\
    completed_tasks (_worker n s).1.2 !! uuid =
      Some (mkTaskResult uuid false PyNone (Some e) el (Z.max m 0)) /\
    pending_tasks (_worker n s).1.2 !! uuid = None.
Proof.
  intros Hrun Hperm Hothers Hf Hm Hsleep Hecb Hn.
  remember (Z.to_nat (Z.max m 0)) as k eqn:Hk.
  assert (Z.of_nat k = Z.max m 0) as Hkm by lia.
  assert (forall i q, i < k -> exists r,
            _execute_task (task_at uuid now f p m d to cb ecb i) q =
              (Result r (task_at uuid now f p m d to cb ecb (S i))
                 (queue_put q (task_at uuid now f p m d to cb ecb (S i))),
               [EvCall uuid (Z.of_nat i); EvSleep uuid (d * 2 ^ Z.of_nat i)%Q]) /\
            success r = false) as Hretry.
  { intros i q Hi. apply retried_attempt; [|lia|lia|by apply Hsleep].
    apply raises_attempt, Hf. }
  assert (exists e el, (attempt (task_at uuid now f p m d to cb ecb k)).1 = Raises e el)
    as (e & el & Hatt).
  { pose proof (raises_attempt (task_at uuid now f p m d to cb ecb k) (Hf _)) as H.
    destruct (attempt (task_at uuid now f p m d to cb ecb k)).1 as [v el|e el|el|];
      try done. by eexists _, _. }
  assert (forall q, _execute_task (task_at uuid now f p m d to cb ecb k) q =
            (Result (mkTaskResult uuid false PyNone (Some e) el (Z.of_nat k))
               (task_at uuid now f p m d to cb ecb k) q, [EvCall uuid (Z.of_nat k)]))
    as Hlast.
  { intros q. apply (failed_attempt_ends _ e el q Hatt). cbn. lia. }
  destruct (life uuid now f p m d to cb ecb k (backlog (queue s)) 0 s others n)
    as (r & evsk & Hx & Hev & Hc & Hp); try done; try lia.
  { intros i q Hi. destruct (Hretry i q) as (r & Hx & _); [lia|]. by eexists _, _. }
  { intros q. eexists _, _. apply Hlast. }
  { intros i Hi. destruct (decide (i = k)) as [->|Hne].
    - eapply comes_back_from_failure; [left; apply Hlast|done|done|done].
    - destruct (Hretry i []) as (r & Hx & Hr); [lia|].
      eapply comes_back_from_failure; [right; apply Hx|done|done|done]. }
  rewrite Hlast in Hx. injection Hx as <- _.
  replace (S k - 0) with (S k) in Hev by lia.
  rewrite seq_S, flat_map_app in Hev. cbn [flat_map Nat.add] in Hev.
  rewrite app_nil_r in Hev.
  destruct (count_lives uuid (task_at uuid now f p m d to cb ecb) (seq 0 k)) as [Hn1 Hc1];
    [done|].
  destruct (count_attempt_events (task_at uuid now f p m d to cb ecb k)) as [Hn2 Hc2].
  change (task_id (task_at uuid now f p m d to cb ecb k)) with uuid in Hn2, Hc2.
  rewrite Hlast in Hc2. rewrite length_seq in Hn1.
  rewrite (flat_map_seq_ext
             (fun i => (_execute_task (task_at uuid now f p m d to cb ecb i) []).2)
             (fun i => [EvCall uuid (Z.of_nat i); EvSleep uuid (d * 2 ^ Z.of_nat i)%Q]))
    in Hc1.
  2: { intros i Hi. destruct (Hretry i []) as (r & Hx & _); [lia|]. cbn beta. by rewrite Hx. }
  unfold _worker. split; [|split].
  - by rewrite <- attempts_events_of, Hev, attempts_app, Hn1, Hn2.
  - rewrite <- calls_and_sleeps_events_of, Hev, calls_and_sleeps_app, Hc1, Hc2.
    cbn [snd]. by rewrite Hkm.
  - exists e, el. rewrite <- Hkm. done.
Qed.

Lemma backoff_doubles_with_every_retry_witness :
  attempts "t" (_worker 15 (failing_queue (1 # 2))).2 = 3 /\
  calls_and_sleeps "t" (_worker 15 (failing_queue (1 # 2))).2 =
    [EvCall "t" 0; EvSleep "t" ((1 # 2) * 2 ^ 0)%Q; EvCall "t" 1;
     EvSleep "t" ((1 # 2) * 2 ^ 1)%Q; EvCall "t" 2].
Proof.
  destruct (backoff_doubles_with_every_retry (failing_queue (1 # 2)) [] "t" 0
              always_raises NORMAL 2 (1 # 2) None None None 15) as (Ha & Hcs & _).
  - reflexivity.
  - reflexivity.
  - constructor.
  - intros j. reflexivity.
  - lia.
  - intros i Hi. change (Z.to_nat (Z.max 2 0)) with 2 in Hi.
    destruct i as [|[|i]]; [reflexivity|reflexivity|lia].
  - intros c e [=].
  - vm_compute. lia.
  - split; [exact Ha|exact Hcs].
Defined.

(** An attempt that succeeds ends the life of the task: after [k] failed
    attempts, each with a backoff that [time.sleep] accepts, and a
    successful one, the work has been called [k + 1] times, the id is no
    longer pending, and the stored result is the value the work returned,
    with [retry_count = k].  This is so for one worker that serves the
    queue, the task being in the queue once, among tasks of other ids from
    which the worker comes back. *)
Theorem success_is_stored_with_its_retry_count (s : TaskQueue) (others : list Task)
    (uuid : string) (now : Q) (f : Z -> work_outcome) (p : TaskPriority) (m : Z) (d : Q)
    (to : option Q) (cb : option (pyval -> callback_outcome))
    (ecb : option (option exn -> callback_outcome)) (k n : nat) (v : pyval) (el : Q) :
  running s = true ->
  queue s ≡ₚ task_at uuid now f p m d to cb ecb 0 :: others ->
  Forall (fun t => task_id t <> uuid /\ tame t) others ->
  (forall j, j < k -> raises (attempt (task_at uuid now f p m d to cb ecb j)).1 = true) ->
  (0 < k -> (Z.of_nat k <= m)%Z) ->
  k <= 1024 ->
  (forall i, i < k -> time_sleep (d * 2 ^ Z.of_nat i)%Q = None) ->
  (attempt (task_at uuid now f p m d to cb ecb k)).1 = Returns v el ->
  (forall c e, ecb = Some c -> c e <> CallbackExits) ->
  (forall c, cb = Some c -> c v <> CallbackExits) ->
  5 * backlog (queue s) <= n ->
  attempts uuid (_worker n s).2 = k + 1 /\
  pending_tasks (_worker n s).1.2 !! uuid = None /\
  completed_tasks (_worker n s).1.2 !! uuid =
    Some (mkTaskResult uuid true v None el (Z.of_nat k)).
Proof.
  intros Hrun Hperm Hothers Hfail Hk Hk' Hsleep Hok Hecb Hcb Hn.
  assert (forall i q, i < k -> exists r,
            _execute_task (task_at uuid now f p m d to cb ecb i) q =
              (Result r (task_at uuid now f p m d to cb ecb (S i))
                 (queue_put q (task_at uuid now f p m d to cb ecb (S i))),
               [EvCall uuid (Z.of_nat i); EvSleep uuid (d * 2 ^ Z.of_nat i)%Q]) /\
            success r = false) as Hretry.
  { intros i q Hi. apply retried_attempt; [by apply Hfail|lia|lia|by apply Hsleep]. }
  pose proof (fun q => successful_attempt _ v el q Hok) as Hlast.
  change (task_id (task_at uuid now f p m d to cb ecb k)) with uuid in Hlast.
  change (retry_count (task_at uuid now f p m d to cb ecb k)) with (Z.of_nat k) in Hlast.
  destruct (life uuid now f p m d to cb ecb k (backlog (queue s)) 0 s others n)
    as (r & evsk & Hx & Hev & Hc & Hp); try done; try lia.
  { intros i q Hi. destruct (Hretry i q) as (r & Hx & _); [lia|]. by eexists _, _. }
  { intros q. eexists _, _. apply Hlast. }
  { intros i Hi. destruct (decide (i = k)) as [->|Hne].
    - unfold comes_back. rewrite Hlast. unfold call_back. cbn.
      destruct cb as [c|] eqn:E; [|done]. cbn.
      pose proof (Hcb c eq_refl) as Hne. by destruct (c v).
    - destruct (Hretry i []) as (r & Hx & Hr); [lia|].
      eapply comes_back_from_failure; [right; apply Hx|done|done|done]. }
  rewrite Hlast in Hx. injection Hx as <- _.
  replace (S k - 0) with (S k) in Hev by lia.
  rewrite seq_S, flat_map_app in Hev. cbn [flat_map Nat.add] in Hev.
  rewrite app_nil_r in Hev.
  destruct (count_lives uuid (task_at uuid now f p m d to cb ecb) (seq 0 k)) as [Hn1 _];
    [done|].
  destruct (count_attempt_events (task_at uuid now f p m d to cb ecb k)) as [Hn2 _].
  change (task_id (task_at uuid now f p m d to cb ecb k)) with uuid in Hn2.
  rewrite length_seq in Hn1. unfold _worker. split; [|done].
  by rewrite <- attempts_events_of, Hev, attempts_app, Hn1, Hn2.
Qed.

Lemma success_is_stored_with_its_retry_count_witness :
  completed_tasks (_worker 20 (submit "t" 0 raises_once NORMAL 3 1 None None None
                                 (start (init 1))).2).1.2 !! "t"
  = Some (mkTaskResult "t" true (PyInt 42) None 0 1).
Proof.
  destruct (success_is_stored_with_its_retry_count
              (submit "t" 0 raises_once NORMAL 3 1 None None None (start (init 1))).2 []
              "t" 0 raises_once NORMAL 3 1 None None None 1 20 (PyInt 42) 0)
    as (_ & _ & Hc).
  - reflexivity.
  - reflexivity.
  - constructor.
  - intros j Hj. replace j with 0 by lia. reflexivity.
  - intros _. simpl. lia.
  - lia.
  - intros i Hi. replace i with 0 by lia. reflexivity.
  - reflexivity.
  - intros c e [=].
  - intros c [=].
  - vm_compute. lia.
  - exact Hc.
Defined.

(** A retry does not go to the back of the queue: a task that is put back
    after a failed attempt, its backoff accepted by [time.sleep], keeps the
    [created_at] of its submission, so the next worker does not take a task
    of the same priority that was created after it. *)
Theorem retried_task_keeps_its_place (ops : list op) (w k i : nat)
    (task other task' : Task) (e : exn) (el delay : Q) (s' : TaskQueue) :
  threads (run_ops ops (boot w)) !! k = Some (Holding task) ->
  (attempt task).1 = Raises e el ->
  (retry_count task < max_retries task)%Z ->
  backoff_delay (bump_retry_count task) = inr delay ->
  time_sleep delay = None ->
  queue (tq (run_ops ops (boot w))) !! i = Some other ->
  priority other = priority task ->
  (created_at task < created_at other)%Q ->
  worker_get (tq (run_op (OpStep k) (run_ops ops (boot w)))) = Some (task', s') ->
  task' <> other.
Proof.
  intros Hk Hatt Hlt Hdelay Hsleep Hi Hprio Htime Hget.
  assert (heap_ordered Task_lt (queue (tq (run_op (OpStep k) (run_ops ops (boot w))))))
    as Hord by (apply run_op_ordered, reachable_ordered).
  assert (bump_retry_count task ∈ queue (tq (run_op (OpStep k) (run_ops ops (boot w)))))
    as Hin.
  { cbn [run_op]. rewrite Hk. cbn [worker_step].
    rewrite (failed_attempt_retries task e el delay _ Hatt Hlt Hdelay Hsleep).
    cbn. unfold queue_put. rewrite heappush_perm. apply list_elem_of_here. }
  unfold worker_get in Hget.
  destruct (queue_get (queue (tq (run_op (OpStep k) (run_ops ops (boot w))))))
    as [[t q']|] eqn:Hpop; [|done].
  injection Hget as -> <-.
  pose proof (queue_get_min _ _ _ Hord Hpop _ Hin) as Hmin.
  intros ->. rewrite <- not_true_iff_false in Hmin. apply Hmin.
  apply Task_lt_spec. right. cbn. by rewrite Hprio.
Qed.

Lemma retried_task_keeps_its_place_witness :
  exists task' s',
    worker_get (tq (run_op (OpStep 0)
                      (run_ops [OpStart;
                                OpSubmit "t" 0 always_raises NORMAL 1 1 None None None;
                                OpStep 0; OpStep 0; submit_plain "u" NORMAL 5] (boot 1))))
      = Some (task', s') /\
    task' <> plain_task "u" NORMAL 5.
Proof.
  eexists _, _. split; [reflexivity|].
  eapply (retried_task_keeps_its_place
            [OpStart; OpSubmit "t" 0 always_raises NORMAL 1 1 None None None;
             OpStep 0; OpStep 0; submit_plain "u" NORMAL 5]
            1 0 0 (task_at "t" 0 always_raises NORMAL 1 1 None None None 0)
            (plain_task "u" NORMAL 5) _ (WorkError "boom") 0%Q (1 * 2 ^ 0)%Q);
    reflexivity.
Defined.

(** *** What [time.sleep] and [except Exception] let through *)

(** A retry whose backoff is refused loses the task: when the work raises
    with retries left and the delay cannot be computed or [time.sleep]
    raises for it, the exception leaves [_execute_task] before the task is
    put back; [_worker] logs it and goes on.  With nothing else in the
    queue, nothing changes from then on: the task is not in the queue, no
    result is ever stored for it, no callback is called, and its id stays
    in [pending_tasks] if it was there. *)
Theorem refused_backoff_loses_the_task (task : Task) (s : TaskQueue) (e : exn) (el : Q)
    (n : nat) :
  (attempt task).1 = Raises e el ->
  (retry_count task < max_retries task)%Z ->
  (forall delay, backoff_delay (bump_retry_count task) = inr delay ->
                 time_sleep delay <> None) ->
  queue s = [] -> 1 <= n ->
  (worker_steps n (Holding task) s).1.2 = s /\
  (worker_steps n (Holding task) s).2 = [EvCall (task_id task) (retry_count task)].
Proof.
  intros Hatt Hlt Hbad Hq Hn. destruct n as [|n]; [lia|].
  rewrite worker_steps_S.
  assert (worker_step (Holding task) s =
            (AtLoop, s, [EvCall (task_id task) (retry_count task)])) as ->.
  { pose proof (execute_task_cases task (queue s)) as H. cbn zeta in H.
    rewrite Hatt, (proj2 (Z.ltb_lt _ _) Hlt) in H. cbn [worker_step].
    destruct (backoff_delay (bump_retry_count task)) as [e'|delay]; [by rewrite H|].
    destruct (time_sleep delay) eqn:Hs; [by rewrite H|]. by destruct (Hbad delay). }
  destruct (idle n AtLoop s Hq) as [H1 H2]; [by left|].
  destruct (worker_steps n AtLoop s) as [[w2 s2] evs2]. cbn in *. by subst.
Qed.

Lemma refused_backoff_loses_the_task_witness :
  (worker_steps 7 (Holding (task_at "t" 0 always_raises NORMAL 2 (-1) None None None 0))
     (set_queue [] (failing_queue (-1)))).1.2 = set_queue [] (failing_queue (-1)) /\
  is_Some (pending_tasks (set_queue [] (failing_queue (-1))) !! "t") /\
  completed_tasks (set_queue [] (failing_queue (-1))) !! "t" = None.
Proof.
  destruct (refused_backoff_loses_the_task
              (task_at "t" 0 always_raises NORMAL 2 (-1) None None None 0)
              (set_queue [] (failing_queue (-1))) (WorkError "boom") 0%Q 7) as [Hs _].
  - reflexivity.
  - reflexivity.
  - intros delay [= <-]. discriminate.
  - reflexivity.
  - lia.
  - split; [exact Hs|]. split; [eexists; reflexivity|reflexivity].
Defined.

(** Work that ends with [SystemExit] (or another exception that is no
    [Exception]) ends the worker thread when the task has no timeout:
    neither [_execute_task] nor [_worker] catches it.  No result is stored,
    the queue is as it was, and the worker takes no further task. *)
Theorem exit_in_work_ends_the_worker (task : Task) (s : TaskQueue) (el : Q) (n : nat) :
  timeout_set task = None ->
  func task (retry_count task) = Exits el ->
  1 <= n ->
  worker_steps n (Holding task) s =
    (Gone, s, [EvCall (task_id task) (retry_count task)]).
Proof.
  intros Hto Hf Hn. destruct n as [|n]; [lia|]. rewrite worker_steps_S.
  cbn [worker_step]. unfold _execute_task. rewrite (attempt_untimed _ Hto).
  unfold call. rewrite Hf. by rewrite gone.
Qed.

Lemma exit_in_work_ends_the_worker_witness :
  worker_steps 4 (Holding (mkTask NORMAL 0 "x" (fun _ => Exits 0) 3 0 1 None None None))
    (init 1) = (Gone, init 1, [EvCall "x" 0]).
Proof.
  apply (exit_in_work_ends_the_worker
           (mkTask NORMAL 0 "x" (fun _ => Exits 0) 3 0 1 None None None) (init 1) 0%Q 4);
    [reflexivity|reflexivity|lia].
Defined.

(** Under a timeout the same work is taken for a success: the thread that
    [_execute_with_timeout] starts for the work ends without having put
    anything into either container, so the attempt returns [None], and the
    result stored is a success with the value [None]. *)
Theorem exit_in_timed_work_is_stored_as_success (task : Task) (t : Q) (s : TaskQueue)
    (el : Q) :
  timeout task = Some t -> (0 < t)%Q -> fits_PyTime t = true ->
  func task (retry_count task) = Exits el -> (el < t)%Q ->
  completed_tasks (worker_steps 2 (Holding task) s).1.2 !! task_id task =
    Some (mkTaskResult (task_id task) true PyNone None el (retry_count task)).
Proof.
  intros Ht Hpos Hfits Hf Hel.
  assert ((attempt task).1 = Returns PyNone el) as Hatt.
  { unfold attempt, timeout_set. rewrite Ht.
    destruct (Qeq_bool t 0) eqn:Hz.
    { apply Qeq_bool_iff in Hz. apply Qlt_not_eq in Hpos. destruct Hpos. by symmetry. }
    unfold _execute_with_timeout, call. rewrite Hfits, Hf. cbn [negb].
    destruct (Qlt_bool t el) eqn:E; [|done].
    apply Qlt_bool_spec in E. destruct (Qlt_irrefl t). by apply (Qlt_trans t el t). }
  rewrite (execute_and_store task s _ _ _ _ (successful_attempt task _ _ (queue s) Hatt)).
  apply lookup_insert_eq.
Qed.

Lemma exit_in_timed_work_is_stored_as_success_witness :
  completed_tasks
    (worker_steps 2 (Holding (mkTask NORMAL 0 "x" (fun _ => Exits 0) 3 0 1 (Some 5%Q)
                                None None)) (init 1)).1.2 !! "x" =
    Some (mkTaskResult "x" true PyNone None 0 0).
Proof.
  apply (exit_in_timed_work_is_stored_as_success
           (mkTask NORMAL 0 "x" (fun _ => Exits 0) 3 0 1 (Some 5%Q) None None) 5%Q
           (init 1) 0%Q); reflexivity.
Defined.

(** [stop] does not hold back a worker that has passed the test of
    [self.running] and waits in [self.queue.get]: a task that is submitted
    after the [stop] is still taken by that worker and executed, and its
    result is stored, while [running] is false. *)
Theorem waiting_worker_serves_a_stopped_queue :
  let sys := run_ops [OpStart; OpStep 0; OpStop; submit_plain "t" NORMAL 0;
                      OpStep 0; OpStep 0; OpStep 0] (boot 1) in
  running (tq sys) = false /\
  trace sys = [EvCall "t" 0;
               EvStore (plain_task "t" NORMAL 0)
                 (mkTaskResult "t" true PyNone None 0 0)] /\
  completed_tasks (tq sys) !! "t" = Some (mkTaskResult "t" true PyNone None 0 0).
Proof. repeat split; reflexivity. Qed.

End scheduler_more.

(* ===================================================================== *)
(** * Part V: more of the registry                                        *)
(* ===================================================================== *)

Section registry_more.
Import plugin_loader.

(** *** More on dicts *)

Lemma dict_in_keys {V} (k : string) (d : list (string * V)) :
  dict_in k d = true <-> k ∈ dict_keys d.
Proof.
  unfold dict_in, dict_keys. induction d as [|[k0 v0] d IH]; cbn.
  - split; [done|]. by intros ?%elem_of_nil.
  - destruct (String.eqb_spec k k0) as [->|Hne].
    + split; [|done]. intros _. apply elem_of_cons. by left.
    + rewrite IH, elem_of_cons. split; [by right|]. by intros [?|?].
Qed.

Lemma dict_keys_set {V} (k : string) (v : V) (d : list (string * V)) :
  dict_keys (dict_set k v d) = if dict_in k d then dict_keys d else dict_keys d ++ [k].
Proof.
  unfold dict_in, dict_keys. induction d as [|[k0 v0] d IH]; cbn; [done|].
  destruct (String.eqb k k0); cbn; [done|].
  rewrite IH. by destruct (dict_get k d).
Qed.

Lemma dict_del_filter {V} (k : string) (d : list (string * V)) :
  dict_del k d = filter (fun item => item.1 <> k) d.
Proof.
  induction d as [|[k0 v0] d IH]; [done|]. rewrite filter_cons. cbn [dict_del fst].
  destruct (String.eqb_spec k k0) as [->|Hne].
  - by rewrite decide_False by (intros H; by apply H).
  - rewrite decide_True by (by intros ->). by rewrite IH.
Qed.

Lemma NoDup_dict_set {V} (k : string) (v : V) (d : list (string * V)) :
  NoDup (dict_keys d) -> NoDup (dict_keys (dict_set k v d)).
Proof.
  intros Hd. rewrite dict_keys_set. destruct (dict_in k d) eqn:Hin; [done|].
  apply NoDup_app. split; [done|]. split; [|apply NoDup_singleton].
  intros x Hx ->%list_elem_of_singleton. apply dict_in_keys in Hx. congruence.
Qed.

Lemma NoDup_dict_del {V} (k : string) (d : list (string * V)) :
  NoDup (dict_keys d) -> NoDup (dict_keys (dict_del k d)).
Proof.
  unfold dict_keys. induction d as [|[k0 v0] d IH]; cbn; [done|].
  intros [Hk0 Hd]%NoDup_cons. destruct (String.eqb k k0); [by apply IH|].
  cbn. apply NoDup_cons. split; [|by apply IH].
  intros Hin. apply Hk0. rewrite dict_del_filter in Hin.
  apply list_elem_of_fmap in Hin as ([k1 v1] & -> & Hin%list_elem_of_filter).
  apply list_elem_of_fmap. exists (k1, v1). split; [done|]. by destruct Hin.
Qed.

Lemma dict_set_same {V} (k : string) (v : V) (d : list (string * V)) :
  dict_get k d = Some v -> dict_set k v d = d.
Proof.
  induction d as [|[k0 v0] d IH]; cbn; [done|].
  destruct (String.eqb_spec k k0) as [->|Hne]; [by intros [= ->]|].
  intros H. by rewrite IH.
Qed.

Lemma dict_set_set {V} (k : string) (v v' : V) (d : list (string * V)) :
  dict_set k v (dict_set k v' d) = dict_set k v d.
Proof.
  induction d as [|[k0 v0] d IH]; cbn.
  - by rewrite String.eqb_refl.
  - destruct (String.eqb k k0) eqn:Hk; cbn; rewrite Hk; [done|]. by rewrite IH.
Qed.

(** *** Loading *)

(** [load_plugin] fails atomically: unless it returns from its last line,
    having stored the new instance, it leaves the loader exactly as it
    found it.  The instance it stores is enabled and holds the
    configuration it was given (the empty one for [None]); manifests and
    paths are never touched. *)
Theorem load_plugin_all_or_nothing
    (import_class : string -> string -> option PluginClass) (plugin_name : string)
    (config : option (list (string * json))) (s : PluginLoader) :
  match (load_plugin import_class plugin_name config s).1.1 with
  | Loaded =>
      dict_in plugin_name (plugins s) = false /\
      (exists c,
         plugins (load_plugin import_class plugin_name config s).1.2 =
           plugins s ++ [(plugin_name, mkBasePlugin c (default [] config) true)]) /\
      manifests (load_plugin import_class plugin_name config s).1.2 = manifests s /\
      plugin_paths (load_plugin import_class plugin_name config s).1.2 = plugin_paths s
  | _ => (load_plugin import_class plugin_name config s).1.2 = s
  end.
Proof.
  unfold load_plugin.
  destruct (dict_in plugin_name (plugins s)) eqn:Hin; [done|].
  destruct (dict_get plugin_name (manifests s)); [|done].
  destruct (dict_get plugin_name (plugin_paths s)); [|done].
  destruct (negb _); [done|].
  destruct (import_class _ _) as [c|]; [|done].
  destruct (construct c); [|done].
  destruct (initialize c) as [[|]|]; [|done|done].
  cbn. split; [done|]. split; [|done]. exists c. apply dict_set_new.
  unfold dict_in in Hin. by destruct (dict_get plugin_name (plugins s)).
Qed.

(** Loading is idempotent: once [load_plugin] has loaded a plugin, a second
    call for the same name, with whatever configuration, returns [True]
    without constructing or initializing anything and leaves the loader,
    and so the first instance and its configuration, as they are. *)
Theorem load_plugin_twice
    (import_class import_class' : string -> string -> option PluginClass)
    (plugin_name : string) (config config' : option (list (string * json)))
    (s s' : PluginLoader) (evs : list plugin_event) :
  load_plugin import_class plugin_name config s = (Loaded, s', evs) ->
  load_plugin import_class' plugin_name config' s' = (AlreadyLoaded, s', []).
Proof.
  intros Hload. apply load_plugin_Loaded in Hload as [plugin ->].
  unfold load_plugin. cbn. by rewrite dict_in_set, String.eqb_refl.
Qed.

Lemma load_plugin_twice_witness :
  load_plugin import_failing_shutdown "A" (Some [("volume", JInt 3)])
    (load_plugin import_plain "A" None loader_with_A_B).1.2
  = (AlreadyLoaded, (load_plugin import_plain "A" None loader_with_A_B).1.2, []).
Proof.
  apply (load_plugin_twice import_plain import_failing_shutdown "A" None
           (Some [("volume", JInt 3)]) loader_with_A_B _
           [EvConstruct "A"; EvInitialize "A"]).
  reflexivity.
Defined.

(** *** What the loader keeps true *)

Lemma discover_loop_wf found : forall s discovered,
  loader_wf s -> loader_wf (discover_loop found s discovered).2.
Proof.
  induction found as [|[item_path file] found IH]; intros s discovered Hwf; [done|].
  cbn [discover_loop]. destruct file as [data|]; [|by apply IH].
  destruct (_load_manifest data) as [manifest| | |]; try by apply IH.
  apply IH. destruct Hwf as (Hp & Hm & Hpaths & Hnames).
  split; [done|]. split; [by apply NoDup_dict_set|]. split.
  - intros n. cbn. by rewrite !dict_in_set, Hpaths.
  - intros n manifest'. cbn. rewrite dict_get_set.
    destruct (String.eqb_spec n (name manifest)) as [->|Hne]; [by intros [= <-]|].
    apply Hnames.
Qed.

Lemma set_plugins_wf (p : list (string * BasePlugin)) (s : PluginLoader) :
  loader_wf s -> NoDup (dict_keys p) -> loader_wf (set_plugins p s).
Proof. intros (_ & Hm & Hpaths & Hnames) Hp. by split. Qed.

Lemma load_plugin_wf import_class plugin_name config (s : PluginLoader) :
  loader_wf s -> loader_wf (load_plugin import_class plugin_name config s).1.2.
Proof.
  intros Hwf. unfold load_plugin.
  destruct (dict_in plugin_name (plugins s)); [done|].
  destruct (dict_get plugin_name (manifests s)); [|done].
  destruct (dict_get plugin_name (plugin_paths s)); [|done].
  destruct (negb _); [done|].
  destruct (import_class _ _) as [c|]; [|done].
  destruct (construct c); [|done].
  destruct (initialize c) as [[|]|]; [|done|done].
  apply set_plugins_wf; [done|]. apply NoDup_dict_set. apply Hwf.
Qed.

Lemma unload_plugin_wf plugin_name (s : PluginLoader) :
  loader_wf s -> loader_wf (unload_plugin plugin_name s).1.2.
Proof.
  intros Hwf. unfold unload_plugin.
  destruct (dict_get plugin_name (plugins s)) as [plugin|]; [|done].
  destruct (shutdown (cls plugin)); [|done].
  apply set_plugins_wf; [done|]. apply NoDup_dict_del. apply Hwf.
Qed.

Lemma unload_plugin_wf_plugins plugin_name (s : PluginLoader) :
  NoDup (dict_keys (plugins s)) ->
  NoDup (dict_keys (plugins (unload_plugin plugin_name s).1.2)).
Proof.
  intros Hnodup. unfold unload_plugin.
  destruct (dict_get plugin_name (plugins s)) as [plugin|]; [|done].
  destruct (shutdown (cls plugin)); [|done]. by apply NoDup_dict_del.
Qed.

Lemma load_all_loop_wf import_class enabled_only items : forall s loaded_count,
  loader_wf s ->
  loader_wf (load_all_loop import_class enabled_only items s loaded_count).2.
Proof.
  induction items as [|[plugin_name manifest] items IH]; intros s loaded_count Hwf; [done|].
  cbn [load_all_loop]. destruct (enabled_only && negb (enabled manifest)); [by apply IH|].
  pose proof (load_plugin_wf import_class plugin_name None s Hwf).
  destruct (returned _) as [[|]|]; [by apply IH|by apply IH|done].
Qed.

Lemma unload_all_loop_wf plugin_names : forall s,
  loader_wf s -> loader_wf (unload_all_loop plugin_names s).
Proof.
  induction plugin_names as [|plugin_name rest IH]; intros s Hwf; [done|].
  cbn [unload_all_loop]. apply IH. by apply unload_plugin_wf.
Qed.

Lemma run_loader_op_wf (o : loader_op) (s : PluginLoader) :
  loader_wf s -> loader_wf (run_loader_op o s).
Proof.
  intros Hwf. destruct o; cbn [run_loader_op].
  - by apply discover_loop_wf.
  - by apply load_plugin_wf.
  - by apply unload_plugin_wf.
  - unfold enable_plugin. destruct (dict_get plugin_name (plugins s)); [|done].
    apply set_plugins_wf; [done|]. apply NoDup_dict_set. apply Hwf.
  - unfold disable_plugin. destruct (dict_get plugin_name (plugins s)); [|done].
    apply set_plugins_wf; [done|]. apply NoDup_dict_set. apply Hwf.
  - by apply load_all_loop_wf.
  - by apply unload_all_loop_wf.
Qed.

Lemma reachable_wf (ops : list loader_op) (plugin_dirs : list string) :
  loader_wf (run_loader_ops ops (init plugin_dirs)).
Proof.
  assert (forall s, loader_wf s -> loader_wf (run_loader_ops ops s)) as H.
  { induction ops as [|o ops IH]; intros s Hs; [done|].
    apply IH. by apply run_loader_op_wf. }
  apply H. repeat split; cbn; try apply NoDup_nil_2; done.
Qed.

(** [load_plugin] never raises: in a loader that has been brought about by
    discovering, loading, unloading, enabling and disabling, every manifest
    has its path, so the lookup of the path outside of the [try] does not
    fail and the call returns [True] or [False]. *)
Theorem load_plugin_returns (ops : list loader_op) (plugin_dirs : list string)
    (import_class : string -> string -> option PluginClass) (plugin_name : string)
    (config : option (list (string * json))) :
  exists b,
    returned (load_plugin import_class plugin_name config
                (run_loader_ops ops (init plugin_dirs))).1.1 = Some b.
Proof.
  destruct (reachable_wf ops plugin_dirs) as (_ & _ & Hpaths & _).
  generalize dependent (run_loader_ops ops (init plugin_dirs)). intros s Hpaths.
  unfold load_plugin.
  destruct (dict_in plugin_name (plugins s)); [by eexists|].
  destruct (dict_get plugin_name (manifests s)) eqn:Hm; [|by eexists].
  destruct (dict_get plugin_name (plugin_paths s)) eqn:Hp.
  2:{ specialize (Hpaths plugin_name). unfold dict_in in Hpaths.
      by rewrite Hm, Hp in Hpaths. }
  destruct (negb _); [by eexists|].
  destruct (import_class _ _) as [c|]; [|by eexists].
  destruct (construct c); [|by eexists].
  destruct (initialize c) as [[|]|]; by eexists.
Qed.

(** *** Manifests and discovery *)

(** A manifest that lacks one of the five required keys is refused with a
    [ValueError] that names a required key the manifest lacks, whatever
    else the manifest holds. *)
Theorem missing_required_field_is_refused (data : list (string * json)) (f : string) :
  f ∈ required_fields -> dict_get f data = None ->
  exists g, _load_manifest data = RaisesValueError g /\
            g ∈ required_fields /\ dict_get g data = None.
Proof.
  intros Hf Hnone. unfold _load_manifest.
  destruct (filter (fun f => negb (dict_in f data)) required_fields) as [|g rest] eqn:Hfilter.
  - assert (f ∈ filter (fun f => negb (dict_in f data)) required_fields) as Hin.
    { apply list_elem_of_filter. split; [|done]. unfold dict_in. by rewrite Hnone. }
    rewrite Hfilter in Hin. by apply elem_of_nil in Hin.
  - exists g. split; [done|].
    assert (g ∈ filter (fun f => negb (dict_in f data)) required_fields) as Hin
      by (rewrite Hfilter; apply elem_of_cons; by left).
    apply list_elem_of_filter in Hin as [Hg Hreq]. split; [done|].
    unfold dict_in in Hg. by destruct (dict_get g data).
Qed.

Lemma missing_required_field_is_refused_witness :
  exists g, _load_manifest [("name", JStr "p"); ("capabilities", JList [])]
            = RaisesValueError g /\
            g ∈ required_fields /\
            dict_get g [("name", JStr "p"); ("capabilities", JList [])] = None.
Proof.
  apply (missing_required_field_is_refused _ "author"); [|reflexivity].
  unfold required_fields. rewrite !elem_of_cons. auto.
Defined.

(** A manifest that has the required keys and also a key that is no field
    of [PluginManifest] is refused with the [TypeError] of the dataclass
    constructor, which names such a key: a manifest cannot carry extra
    keys. *)
Theorem unexpected_key_is_refused (data : list (string * json)) (k : string) :
  (forall f, f ∈ required_fields -> dict_in f data = true) ->
  k ∈ dict_keys data -> k ∉ manifest_fields ->
  exists k', _load_manifest data = RaisesTypeError k' /\
             k' ∈ dict_keys data /\ k' ∉ manifest_fields.
Proof.
  intros Hreq Hk Hnot. unfold _load_manifest.
  destruct (filter (fun f => negb (dict_in f data)) required_fields) as [|g rest] eqn:Hfilter.
  2:{ assert (g ∈ filter (fun f => negb (dict_in f data)) required_fields) as Hin
        by (rewrite Hfilter; apply elem_of_cons; by left).
      apply list_elem_of_filter in Hin as [Hg Hin]. rewrite (Hreq g Hin) in Hg. done. }
  unfold PluginManifest_init.
  destruct (filter (fun k => k ∉ manifest_fields) (dict_keys data)) as [|k' rest] eqn:Hkeys.
  - assert (k ∈ filter (fun k => k ∉ manifest_fields) (dict_keys data)) as Hin
      by (by apply list_elem_of_filter).
    rewrite Hkeys in Hin. by apply elem_of_nil in Hin.
  - exists k'. split; [done|].
    assert (k' ∈ filter (fun k => k ∉ manifest_fields) (dict_keys data)) as Hin
      by (rewrite Hkeys; apply elem_of_cons; by left).
    by apply list_elem_of_filter in Hin as [? ?].
Qed.

Lemma unexpected_key_is_refused_witness :
  exists k', _load_manifest (manifest_json "p" [] [] ++ [("license", JStr "MIT")])
             = RaisesTypeError k' /\
             k' ∈ dict_keys (manifest_json "p" [] [] ++ [("license", JStr "MIT")]) /\
             k' ∉ manifest_fields.
Proof.
  apply (unexpected_key_is_refused _ "license").
  - intros f Hf. unfold required_fields in Hf. rewrite !elem_of_cons in Hf.
    destruct Hf as [->|[->|[->|[->|[->|Hf]]]]]; try reflexivity.
    by apply elem_of_nil in Hf.
  - cbn. rewrite !elem_of_cons. auto 10.
  - unfold manifest_fields. rewrite !elem_of_cons, elem_of_nil.
    intros H. repeat destruct H as [H|H]; done.
Defined.

Lemma discover_loop_app found1 : forall found2 s discovered,
  discover_loop (found1 ++ found2) s discovered =
  discover_loop found2 (discover_loop found1 s discovered).2
    (discover_loop found1 s discovered).1.
Proof.
  induction found1 as [|[item_path file] found1 IH]; intros found2 s discovered; [done|].
  cbn [app discover_loop]. destruct file as [data|]; [|apply IH].
  destruct (_load_manifest data); apply IH.
Qed.

(** A plugin folder whose manifest cannot be read or parsed, or is refused
    by [_load_manifest] with a [ValueError] (a required field is missing)
    or by the dataclass with a [TypeError] (an unexpected key, or a field
    without default is missing), does not disturb the scan: discovery gives
    the same names and the same loader as if the folder were not there.
    (A manifest with a value of another type than the annotated one is not
    refused by the code; the statement does not cover it.) *)
Theorem discovery_skips_a_bad_manifest
    (found1 found2 : list (string * option (list (string * json))))
    (item_path : string) (file : option (list (string * json))) (s : PluginLoader) :
  (forall data, file = Some data ->
     (exists field, _load_manifest data = RaisesValueError field) \/
     (exists key, _load_manifest data = RaisesTypeError key)) ->
  discover_plugins (found1 ++ (item_path, file) :: found2) s =
  discover_plugins (found1 ++ found2) s.
Proof.
  intros Hbad. unfold discover_plugins. rewrite !discover_loop_app.
  cbn [discover_loop]. destruct file as [data|]; [|done].
  by destruct (Hbad data eq_refl) as [[field ->]|[key ->]].
Qed.

Lemma discovery_skips_a_bad_manifest_witness :
  discover_plugins ([("plugins/A", Some (manifest_json "A" [] []))] ++
                    ("plugins/p", Some manifest_without_capabilities) ::
                    [("plugins/B", Some (manifest_json "B" [] ["A"]))]) (init []) =
  discover_plugins ([("plugins/A", Some (manifest_json "A" [] []))] ++
                    [("plugins/B", Some (manifest_json "B" [] ["A"]))]) (init []).
Proof.
  apply discovery_skips_a_bad_manifest.
  intros data [= <-]. right. exists "capabilities". reflexivity.
Defined.

Lemma discover_loop_mono found : forall s discovered n,
  (dict_in n (manifests s) = true ->
   dict_in n (manifests (discover_loop found s discovered).2) = true) /\
  (dict_in n (plugin_paths s) = true ->
   dict_in n (plugin_paths (discover_loop found s discovered).2) = true) /\
  plugins (discover_loop found s discovered).2 = plugins s.
Proof.
  induction found as [|[item_path file] found IH]; intros s discovered n; [done|].
  cbn [discover_loop]. destruct file as [data|]; [|apply IH].
  destruct (_load_manifest data) as [manifest| | |]; try apply IH.
  match goal with |- context [discover_loop found ?s1 ?d1] =>
    destruct (IH s1 d1 n) as (Hm & Hp & Hpl) end.
  cbn [manifests plugin_paths plugins] in Hm, Hp, Hpl.
  rewrite dict_in_set in Hm. rewrite dict_in_set in Hp.
  split; [|split; [|done]]; intros H; [apply Hm|apply Hp]; rewrite H; apply orb_true_r.
Qed.

Lemma discover_loop_names found : forall s discovered n,
  n ∈ (discover_loop found s discovered).1 ->
  n ∈ discovered \/
  (dict_in n (manifests (discover_loop found s discovered).2) = true /\
   dict_in n (plugin_paths (discover_loop found s discovered).2) = true).
Proof.
  induction found as [|[item_path file] found IH]; intros s discovered n; [by left|].
  cbn [discover_loop]. destruct file as [data|]; [|apply IH].
  destruct (_load_manifest data) as [manifest| | |]; try apply IH.
  intros Hn. apply IH in Hn as [Hn|Hn]; [|by right].
  apply elem_of_app in Hn as [Hn|Hn]; [by left|].
  apply list_elem_of_singleton in Hn as ->. right.
  match goal with |- context [discover_loop found ?s1 ?d1] =>
    destruct (discover_loop_mono found s1 d1 (name manifest)) as (Hm & Hp & _) end.
  split; [apply Hm|apply Hp]; cbn [manifests plugin_paths];
    by rewrite dict_in_set, String.eqb_refl.
Qed.

(** Discovery only reads and registers: it never changes which plugins are
    loaded, it keeps every manifest that was registered before, and every
    name it returns has a manifest and a path afterwards. *)
Theorem discovery_registers_what_it_returns
    (found : list (string * option (list (string * json)))) (s : PluginLoader)
    (n : string) :
  plugins (discover_plugins found s).2 = plugins s /\
  (dict_in n (manifests s) = true ->
   dict_in n (manifests (discover_plugins found s).2) = true) /\
  (n ∈ (discover_plugins found s).1 ->
   dict_in n (manifests (discover_plugins found s).2) = true /\
   dict_in n (plugin_paths (discover_plugins found s).2) = true).
Proof.
  unfold discover_plugins.
  destruct (discover_loop_mono found s [] n) as (Hm & _ & Hpl).
  split; [done|]. split; [done|].
  intros Hn. apply discover_loop_names in Hn as [Hn|Hn]; [|done].
  by apply elem_of_nil in Hn.
Qed.

Lemma discovery_registers_what_it_returns_witness :
  dict_in "B" (manifests loader_with_A_B) = true /\
  dict_in "B" (plugin_paths loader_with_A_B) = true.
Proof.
  destruct (discovery_registers_what_it_returns
              [("plugins/A", Some (manifest_json "A" [] []));
               ("plugins/B", Some (manifest_json "B" [] ["A"]))] (init []) "B")
    as (_ & _ & H).
  apply H. change ("B" ∈ ["A"; "B"]). apply list_elem_of_further, list_elem_of_here.
Defined.

(** *** Enabling, disabling, unloading everything *)

Lemma filter_ext_elem {A} (P Q : A -> Prop) `{!forall x, Decision (P x)}
    `{!forall x, Decision (Q x)} (l : list A) :
  (forall x, x ∈ l -> P x <-> Q x) -> filter P l = filter Q l.
Proof.
  induction l as [|x l IH]; intros Hext; [done|]. rewrite !filter_cons.
  assert (P x <-> Q x) as Hx by (apply Hext, list_elem_of_here).
  rewrite IH by (intros y Hy; apply Hext; by apply list_elem_of_further).
  destruct (decide (P x)), (decide (Q x)); tauto.
Qed.

Lemma filter_all {A} (P : A -> Prop) `{!forall x, Decision (P x)} (l : list A) :
  (forall x, x ∈ l -> P x) -> filter P l = l.
Proof.
  induction l as [|x l IH]; intros Hall; [done|]. rewrite filter_cons.
  rewrite decide_True by apply Hall, list_elem_of_here.
  by rewrite IH by (intros y Hy; apply Hall; by apply list_elem_of_further).
Qed.

Lemma dict_get_elem {V} (k : string) (v : V) (d : list (string * V)) :
  NoDup (dict_keys d) -> (k, v) ∈ d -> dict_get k d = Some v.
Proof.
  unfold dict_keys. induction d as [|[k0 v0] d IH]; cbn.
  - by intros _ ?%elem_of_nil.
  - intros [Hk0 Hd]%NoDup_cons [[= -> ->]|Hin]%elem_of_cons.
    + by rewrite String.eqb_refl.
    + destruct (String.eqb_spec k k0) as [->|Hne]; [|by apply IH].
      destruct Hk0. apply list_elem_of_fmap. by exists (k0, v).
Qed.

Lemma dict_get_None_elem {V} (k : string) (d : list (string * V)) :
  dict_get k d = None -> forall item, item ∈ d -> item.1 <> k.
Proof.
  induction d as [|[k0 v0] d IH]; cbn.
  - by intros _ item ?%elem_of_nil.
  - destruct (String.eqb_spec k k0) as [->|Hne]; [done|].
    intros Hnone item [->|Hin]%elem_of_cons; [by intros <-|by apply IH].
Qed.

Lemma filter_dict_set {V} (P : string * V -> Prop) `{!forall x, Decision (P x)}
    (k : string) (v : V) (d : list (string * V)) :
  NoDup (dict_keys d) -> is_Some (dict_get k d) -> ~ P (k, v) ->
  filter P (dict_set k v d) = filter (fun item => item.1 <> k /\ P item) d.
Proof.
  unfold dict_keys. induction d as [|[k0 v0] d IH]; cbn [dict_get dict_set fmap list_fmap].
  - by intros _ [? ?].
  - intros [Hk0 Hd]%NoDup_cons Hsome Hnot.
    destruct (String.eqb_spec k k0) as [->|Hne].
    + rewrite !filter_cons. rewrite decide_False by done.
      rewrite decide_False by (cbn; tauto).
      apply filter_ext_elem. intros [k1 v1] Hin. cbn. split; [|tauto].
      intros HP. split; [|done]. intros ->. destruct Hk0.
      apply list_elem_of_fmap. by exists (k0, v1).
    + rewrite !filter_cons. rewrite IH by done. cbn.
      destruct (decide (P (k0, v0))).
      * by rewrite decide_True by (split; [by intros ->|done]).
      * by rewrite decide_False by tauto.
Qed.

(** A disabled plugin provides nothing: after [disable_plugin] the providers
    of any capability are the enabled instances that declare it, as before,
    without the one loaded under the disabled name.  The others keep their
    place in the order. *)
Theorem disabled_plugin_provides_nothing (ops : list loader_op)
    (plugin_dirs : list string) (plugin_name capability : string) :
  get_plugins_by_capability capability
    (disable_plugin plugin_name (run_loader_ops ops (init plugin_dirs))).2 =
  (snd <$> filter (fun item => item.1 <> plugin_name /\
                               (p_enabled item.2 = true /\
                                capability ∈ get_capabilities (cls item.2)))
             (plugins (run_loader_ops ops (init plugin_dirs)))).
Proof.
  destruct (reachable_wf ops plugin_dirs) as (Hnodup & _).
  generalize dependent (run_loader_ops ops (init plugin_dirs)). intros s Hnodup.
  unfold get_plugins_by_capability. rewrite capability_loop_filter. cbn [app].
  f_equal. unfold disable_plugin.
  destruct (dict_get plugin_name (plugins s)) as [plugin|] eqn:Hget; cbn [snd plugins set_plugins].
  - apply (filter_dict_set
             (fun item => p_enabled item.2 = true /\
                          capability ∈ get_capabilities (cls item.2)));
      [done|by rewrite Hget|]. cbn. by intros [? _].
  - apply filter_ext_elem. intros item Hin. split; [|tauto].
    intros H. split; [|done]. by eapply dict_get_None_elem.
Qed.

(** [enable_plugin] undoes [disable_plugin]: disabling a loaded, enabled
    plugin and enabling it again gives back the loader as it was, both
    calls returning [True]. *)
Theorem enable_undoes_disable (plugin_name : string) (s : PluginLoader)
    (plugin : BasePlugin) :
  dict_get plugin_name (plugins s) = Some plugin -> p_enabled plugin = true ->
  (disable_plugin plugin_name s).1 = true /\
  enable_plugin plugin_name (disable_plugin plugin_name s).2 = (true, s).
Proof.
  intros Hget Hen. unfold disable_plugin. rewrite Hget. cbn [fst snd].
  split; [done|]. unfold enable_plugin. cbn [plugins set_plugins].
  rewrite dict_get_set, String.eqb_refl. f_equal.
  rewrite dict_set_set.
  replace (set_enabled true (set_enabled false plugin)) with plugin
    by (destruct plugin; cbn in *; by subst).
  rewrite dict_set_same by done. by destruct s.
Qed.

Lemma enable_undoes_disable_witness :
  (disable_plugin "p" (loader_with_p import_plain)).1 = true /\
  enable_plugin "p" (disable_plugin "p" (loader_with_p import_plain)).2
  = (true, loader_with_p import_plain).
Proof.
  apply (enable_undoes_disable "p" (loader_with_p import_plain)
           (mkBasePlugin BasePlugin_class [] true)); reflexivity.
Defined.

Lemma unload_all_loop_plugins plugin_names : forall s,
  NoDup (dict_keys (plugins s)) ->
  plugins (unload_all_loop plugin_names s) =
  filter (fun item => ~ (item.1 ∈ plugin_names /\ shutdown_raises item.2 = false))
    (plugins s).
Proof.
  induction plugin_names as [|n rest IH]; intros s Hnodup; cbn [unload_all_loop].
  { symmetry. apply filter_all. intros item _ [Hin _]. by apply elem_of_nil in Hin. }
  rewrite IH by (apply unload_plugin_wf_plugins; done). unfold unload_plugin.
  destruct (dict_get n (plugins s)) as [plugin|] eqn:Hget.
  - destruct (shutdown (cls plugin)) eqn:Hshut; cbn [fst snd plugins set_plugins].
    + rewrite dict_del_filter, list_filter_filter.
      apply filter_ext_elem. intros [k v] Hin. cbn. rewrite elem_of_cons.
      assert (k = n -> shutdown_raises v = false) as Hfact.
      { intros ->. apply dict_get_elem in Hin; [|done]. rewrite Hget in Hin.
        injection Hin as <-. unfold shutdown_raises. by rewrite Hshut. }
      tauto.
    + apply filter_ext_elem. intros [k v] Hin. cbn. rewrite elem_of_cons.
      assert (k = n -> shutdown_raises v = false -> False) as Hfact.
      { intros -> Hr. apply dict_get_elem in Hin; [|done]. rewrite Hget in Hin.
        injection Hin as <-. unfold shutdown_raises in Hr. by rewrite Hshut in Hr. }
      tauto.
  - cbn [fst snd]. apply filter_ext_elem. intros [k v] Hin. cbn. rewrite elem_of_cons.
    pose proof (dict_get_None_elem _ _ Hget _ Hin) as Hne. cbn in Hne. tauto.
Qed.

(** [unload_all] shuts every loaded plugin down and removes those whose
    [shutdown] returns; the plugins whose [shutdown] raises are still
    loaded afterwards, in their old order. *)
Theorem unload_all_keeps_what_fails_to_shut_down (ops : list loader_op)
    (plugin_dirs : list string) :
  plugins (unload_all (run_loader_ops ops (init plugin_dirs))) =
  filter (fun item => shutdown_raises item.2 = true)
    (plugins (run_loader_ops ops (init plugin_dirs))).
Proof.
  destruct (reachable_wf ops plugin_dirs) as (Hnodup & _).
  generalize dependent (run_loader_ops ops (init plugin_dirs)). intros s Hnodup.
  unfold unload_all. rewrite unload_all_loop_plugins by done.
  apply filter_ext_elem. intros [k v] Hin. cbn.
  assert (k ∈ dict_keys (plugins s)) as Hk
    by (apply list_elem_of_fmap; by exists (k, v)).
  destruct (shutdown_raises v); split.
  - done.
  - by intros _ [_ ?].
  - intros H. by destruct H.
  - done.
Qed.

(** *** Loading everything *)

Lemma load_plugin_effect import_class plugin_name config (s : PluginLoader) :
  (forall n, dict_in n (manifests s) = dict_in n (plugin_paths s)) ->
  returned (load_plugin import_class plugin_name config s).1.1 =
    Some (dict_in plugin_name (plugins (load_plugin import_class plugin_name config s).1.2)) /\
  manifests (load_plugin import_class plugin_name config s).1.2 = manifests s /\
  plugin_paths (load_plugin import_class plugin_name config s).1.2 = plugin_paths s /\
  forall k, k <> plugin_name ->
    dict_in k (plugins (load_plugin import_class plugin_name config s).1.2) =
    dict_in k (plugins s).
Proof.
  intros Hpaths. unfold load_plugin.
  destruct (dict_in plugin_name (plugins s)) eqn:Hin;
    [by (cbn [fst snd]; rewrite Hin)|].
  destruct (dict_get plugin_name (manifests s)) eqn:Hm;
    [|by (cbn [fst snd]; rewrite Hin)].
  destruct (dict_get plugin_name (plugin_paths s)) eqn:Hp.
  2:{ specialize (Hpaths plugin_name). unfold dict_in in Hpaths.
      by rewrite Hm, Hp in Hpaths. }
  destruct (negb _); [by (cbn [fst snd]; rewrite Hin)|].
  destruct (import_class _ _) as [c|]; [|by (cbn [fst snd]; rewrite Hin)].
  destruct (construct c); [|by (cbn [fst snd]; rewrite Hin)].
  destruct (initialize c) as [[|]|];
    [|by (cbn [fst snd]; rewrite Hin)|by (cbn [fst snd]; rewrite Hin)].
  cbn. rewrite dict_in_set, String.eqb_refl. repeat split.
  intros k Hk. rewrite dict_in_set. by rewrite (proj2 (String.eqb_neq k plugin_name)).
Qed.

Lemma load_all_loop_count import_class enabled_only items : forall s loaded_count,
  (forall n, dict_in n (manifests s) = dict_in n (plugin_paths s)) ->
  NoDup (dict_keys items) ->
  (load_all_loop import_class enabled_only items s loaded_count).1 =
    Some (loaded_count +
          length (filter (fun item : string * PluginManifest =>
                            (enabled_only = false \/ enabled item.2 = true) /\
                            dict_in item.1
                              (plugins (load_all_loop import_class enabled_only items s
                                          loaded_count).2) = true)
                    items)) /\
  (forall k, k ∉ dict_keys items ->
     dict_in k (plugins (load_all_loop import_class enabled_only items s loaded_count).2)
     = dict_in k (plugins s)) /\
  manifests (load_all_loop import_class enabled_only items s loaded_count).2 = manifests s /\
  plugin_paths (load_all_loop import_class enabled_only items s loaded_count).2
    = plugin_paths s.
Proof.
  induction items as [|[n m] items IH]; intros s loaded_count Hpaths Hnodup.
  { cbn. by rewrite Nat.add_0_r. }
  apply NoDup_cons in Hnodup as [Hn Hnodup]. cbn [load_all_loop].
  destruct (enabled_only && negb (enabled m)) eqn:Hskip.
  - destruct (IH s loaded_count Hpaths Hnodup) as (Hcount & Hother & Hm & Hp).
    split; [|split; [|done]].
    + rewrite Hcount. rewrite filter_cons. cbn [snd].
      rewrite decide_False; [done|].
      intros [[->|Hen] _]; [done|]. rewrite Hen in Hskip. by destruct enabled_only.
    + intros k Hk. apply Hother. intros Hin. apply Hk. by apply list_elem_of_further.
  - destruct (load_plugin_effect import_class n None s Hpaths) as (Hret & Hm1 & Hp1 & Hk1).
    set (s1 := (load_plugin import_class n None s).1.2) in *.
    assert (forall n, dict_in n (manifests s1) = dict_in n (plugin_paths s1)) as Hpaths1
      by (intros k; by rewrite Hm1, Hp1).
    assert (enabled_only = false \/ enabled m = true) as Hconsidered.
    { destruct enabled_only; [|by left]. right. by destruct (enabled m). }
    rewrite Hret.
    destruct (dict_in n (plugins s1)) eqn:Hloaded.
    + destruct (IH s1 (loaded_count + 1) Hpaths1 Hnodup) as (Hcount & Hother & Hm & Hp).
      split; [|split; [|by rewrite Hm, Hp]].
      * rewrite Hcount. rewrite filter_cons. cbn [fst snd].
        rewrite decide_True by (by rewrite Hother, Hloaded). cbn [length]. f_equal. lia.
      * intros k Hk. rewrite Hother by (intros Hin; apply Hk; by apply list_elem_of_further).
        apply Hk1. intros ->. apply Hk. apply list_elem_of_here.
    + destruct (IH s1 loaded_count Hpaths1 Hnodup) as (Hcount & Hother & Hm & Hp).
      split; [|split; [|by rewrite Hm, Hp]].
      * rewrite Hcount. rewrite filter_cons. cbn [fst snd].
        rewrite decide_False; [done|]. intros [_ H]. rewrite Hother in H by done. congruence.
      * intros k Hk. rewrite Hother by (intros Hin; apply Hk; by apply list_elem_of_further).
        apply Hk1. intros ->. apply Hk. apply list_elem_of_here.
Qed.

(** [load_all] never raises, and the count it returns is the number of
    manifests it considered (all of them, or those enabled by default with
    [enabled_only]) whose plugin is loaded when it returns: a plugin that
    was loaded before counts, a plugin that failed to load, for instance
    because its dependency comes later in the order of discovery, does
    not. *)
Theorem load_all_counts_what_is_loaded (ops : list loader_op)
    (plugin_dirs : list string)
    (import_class : string -> string -> option PluginClass) (enabled_only : bool) :
  (load_all import_class enabled_only (run_loader_ops ops (init plugin_dirs))).1 =
  Some (length
          (filter (fun item : string * PluginManifest =>
                     (enabled_only = false \/ enabled item.2 = true) /\
                     dict_in item.1
                       (plugins (load_all import_class enabled_only
                                   (run_loader_ops ops (init plugin_dirs))).2) = true)
             (manifests (run_loader_ops ops (init plugin_dirs))))).
Proof.
  destruct (reachable_wf ops plugin_dirs) as (_ & Hnodup & Hpaths & _).
  generalize dependent (run_loader_ops ops (init plugin_dirs)). intros s Hnodup Hpaths.
  unfold load_all.
  by destruct (load_all_loop_count import_class enabled_only (manifests s) s 0 Hpaths Hnodup)
    as (-> & _).
Qed.

(** *** Listing *)

(** [list_plugins] has one entry for every discovered manifest, in the
    order of discovery, each under the name of its manifest and none of
    them [None], whether the plugin is loaded or not. *)
Theorem list_plugins_lists_every_manifest (ops : list loader_op)
    (plugin_dirs : list string) :
  (fmap i_name <$> list_plugins (run_loader_ops ops (init plugin_dirs))) =
  (Some <$> dict_keys (manifests (run_loader_ops ops (init plugin_dirs)))).
Proof.
  destruct (reachable_wf ops plugin_dirs) as (_ & _ & _ & Hnames).
  generalize dependent (run_loader_ops ops (init plugin_dirs)). intros s Hnames.
  unfold list_plugins. rewrite <- list_fmap_compose.
  apply list_fmap_ext. intros _ k Hk%list_elem_of_lookup_2.
  apply dict_in_keys in Hk. unfold dict_in in Hk. cbn. unfold get_plugin_info.
  destruct (dict_get k (manifests s)) as [manifest|] eqn:Hget; [|done].
  cbn. f_equal. by apply Hnames.
Qed.

End registry_more.
